(** * pdf_filler: the annotation flattening pipeline of [src/services/pdfService.js]

    A shallow embedding of the server-side half of the pipeline (colour codec,
    path command parser, curve flattener, annotation renderers, page
    orchestrator, document load and save) and the properties its
    specification states about it; then of the rest of the service (upload,
    expiry, deletion and cleanup of the temporary files) and of what the
    session manager and the controller do with it, with further properties
    of the code.

    Conventions of the embedding.
    - A JavaScript number is a binary64 float ([PrimFloat.float]); the
      arithmetic below is the IEEE arithmetic the program runs.
    - A JavaScript string is a [string] of characters with codes below 128
      (for those, [toUpperCase], [trim] and the regular expressions of the
      source act as defined here).
    - [async] functions are run to completion one after the other, as
      [await] does in the source; the logger has no effect on the results
      and is left out.
    - Exceptions are explicit: an effectful function returns the new state
      and either a value or the thrown error.
    - What lies outside the program (the pdf library, the database, the
      clock, the environment, the listing of a directory, the base64 codec)
      is a parameter of the definitions that use it. *)

From Stdlib Require Import Floats ZArith Ascii String.
From stdpp Require Import gmap strings list fin_maps.

Set Warnings "-inexact-float,-register-all".
Local Open Scope Z_scope.

(** ** JavaScript numbers *)

Module JsNum.

Definition f0 : float := 0%float.
Definition fnan : float := PrimFloat.nan.

(** [ToBoolean] of a number: [0], [-0] and [NaN] are falsy. *)
Definition truthy (x : float) : bool :=
  negb (PrimFloat.is_nan x || PrimFloat.is_zero x).

Definition is_neg_zero (x : float) : bool :=
  PrimFloat.is_zero x && PrimFloat.get_sign x.

Definition is_pos_zero (x : float) : bool :=
  PrimFloat.is_zero x && negb (PrimFloat.get_sign x).

(** [Math.min(a, b)]: [NaN] if either is, [-0] below [+0]. *)
Definition Math_min (a b : float) : float :=
  if PrimFloat.is_nan a || PrimFloat.is_nan b then fnan
  else if is_neg_zero b && is_pos_zero a then b
  else if (b <? a)%float then b else a.

(** [Math.max(a, b)]: [NaN] if either is, [+0] above [-0]. *)
Definition Math_max (a b : float) : float :=
  if PrimFloat.is_nan a || PrimFloat.is_nan b then fnan
  else if is_pos_zero b && is_neg_zero a then b
  else if (a <? b)%float then b else a.

(** Round-to-nearest-even conversion of the integer [m * 2^e]. *)
Definition of_Z_exp (m e : Z) : float :=
  SF2Prim (binary_normalize prec emax m e false).

Definition of_Z (m : Z) : float := of_Z_exp m 0.

(** The double nearest to [num / den] ([num >= 0], [den > 0]): the quotient
    is taken with at least 64 significant bits and a sticky bit, then
    rounded once. *)
Definition of_ratio (num den : Z) : float :=
  if num =? 0 then f0
  else
    let s := Z.max 0 (66 + Z.log2 den - Z.log2 num) in
    let n := Z.shiftl num s in
    let q := n / den in
    let sticky := if n mod den =? 0 then 0 else 1 in
    of_Z_exp (2 * q + sticky) (- (s + 1)).

(** The double nearest to [m * 10^e10] ([m >= 0]), which is the value
    engines give a decimal literal.  Beyond [10^400] it is infinite and
    below [10^-400] it is zero; these two cases are cut short. *)
Definition of_decimal (m e10 : Z) : float :=
  if m =? 0 then f0
  else
    let digits := Z.log2 m / 3 + 1 in
    if 400 <? e10 then PrimFloat.infinity
    else if digits + e10 <? -400 then f0
    else if 0 <=? e10 then of_Z (m * 10 ^ e10)
    else of_ratio m (10 ^ (- e10)).

Definition neg_if (neg : bool) (x : float) : float :=
  if neg then (- x)%float else x.

End JsNum.
Export JsNum.

(** ** JavaScript strings and the built-in parsers *)

Module JsStr.

Definition code (c : ascii) : Z := Z.of_N (N_of_ascii c).

(** White space and line terminators of the language, below code 128. *)
Definition isWhite (c : ascii) : bool :=
  let n := code c in ((9 <=? n) && (n <=? 13)) || (n =? 32).

Definition upperChar (c : ascii) : ascii :=
  let n := code c in
  if (97 <=? n) && (n <=? 122) then ascii_of_N (Z.to_N (n - 32)) else c.

Fixpoint toUpperCase (s : string) : string :=
  match s with
  | EmptyString => EmptyString
  | String c r => String (upperChar c) (toUpperCase r)
  end.

Fixpoint trimStart (s : string) : string :=
  match s with
  | String c r => if isWhite c then trimStart r else s
  | EmptyString => EmptyString
  end.

(** [trimEnd]: a white character is kept only if something that is not
    white follows it. *)
Fixpoint trimEnd (s : string) : string :=
  match s with
  | EmptyString => EmptyString
  | String c r =>
      match trimEnd r with
      | EmptyString => if isWhite c then EmptyString else String c EmptyString
      | r' => String c r'
      end
  end.

Definition trim (s : string) : string := trimEnd (trimStart s).

Fixpoint startsWith (s p : string) : bool :=
  match p, s with
  | EmptyString, _ => true
  | String a p', String b s' => (code a =? code b) && startsWith s' p'
  | String _ _, EmptyString => false
  end.

Fixpoint drop (n : nat) (s : string) : string :=
  match n, s with
  | S n', String _ r => drop n' r
  | _, _ => s
  end.

Fixpoint take (n : nat) (s : string) : string :=
  match n, s with
  | S n', String c r => String c (take n' r)
  | _, _ => EmptyString
  end.

(** [s.slice(a, b)] for [0 <= a <= b]. *)
Definition slice (a b : nat) (s : string) : string := take (b - a) (drop a s).

Definition slice_from (a : nat) (s : string) : string := drop a s.

(** The value of a digit character in radixes up to 36. *)
Definition digitVal (c : ascii) : option Z :=
  let n := code c in
  if (48 <=? n) && (n <=? 57) then Some (n - 48)
  else if (97 <=? n) && (n <=? 122) then Some (n - 87)
  else if (65 <=? n) && (n <=? 90) then Some (n - 55)
  else None.

(** The longest prefix of digits of radix [R], as their values. *)
Fixpoint takeDigits (R : Z) (s : string) : list Z * string :=
  match s with
  | String c r =>
      match digitVal c with
      | Some d =>
          if d <? R then let '(ds, rest) := takeDigits R r in (d :: ds, rest)
          else ([], s)
      | None => ([], s)
      end
  | EmptyString => ([], s)
  end.

Definition digitsVal (R : Z) (ds : list Z) : Z :=
  fold_left (fun acc d => R * acc + d) ds 0.

Definition takeSign (s : string) : bool * string :=
  match s with
  | String "-" r => (true, r)
  | String "+" r => (false, r)
  | _ => (false, s)
  end.

(** The longest prefix of [s] that is a [StrDecimalLiteral], with its value
    and what follows it. *)
Definition parseDecimalPrefix (s : string) : option (float * string) :=
  let '(neg, s1) := takeSign s in
  if startsWith s1 "Infinity" then Some (neg_if neg PrimFloat.infinity, drop 8 s1)
  else
    let '(ip, s2) := takeDigits 10 s1 in
    let '(fp, s3) :=
      match s2 with
      | String "." r => takeDigits 10 r
      | _ => ([], s2)
      end in
    match ip, fp with
    | [], [] => None
    | _, _ =>
        let '(e, s4) :=
          match s3 with
          | String c r =>
              if (code c =? 101) || (code c =? 69) then
                let '(eneg, r1) := takeSign r in
                match takeDigits 10 r1 with
                | ([], _) => (0, s3)
                | (ed, r2) => ((if eneg then - digitsVal 10 ed else digitsVal 10 ed), r2)
                end
              else (0, s3)
          | EmptyString => (0, s3)
          end in
        Some (neg_if neg (of_decimal (digitsVal 10 (ip ++ fp)) (e - Z.of_nat (length fp))), s4)
    end.

(** [parseFloat(s)] of a string. *)
Definition parseFloat (s : string) : float :=
  match parseDecimalPrefix (trimStart s) with
  | Some (v, _) => v
  | None => fnan
  end.

Definition has0x (s : string) : bool :=
  match s with
  | String "0" (String c _) => (code c =? 120) || (code c =? 88)
  | _ => false
  end.

(** [parseInt(s, radix)]; [radix = None] is the call with one argument. *)
Definition parseInt (s : string) (radix : option Z) : float :=
  let '(neg, s1) := takeSign (trimStart s) in
  let r := match radix with Some r => r | None => 0 end in
  if negb (r =? 0) && ((r <? 2) || (36 <? r)) then fnan
  else
    let '(R, s2) :=
      if ((r =? 0) || (r =? 16)) && has0x s1 then (16, drop 2 s1)
      else ((if r =? 0 then 10 else r), s1) in
    match takeDigits R s2 with
    | ([], _) => fnan
    | (ds, _) => neg_if neg (of_Z (digitsVal R ds))
    end.

(** [ToNumber] of a string ([StringToNumber]): the whole trimmed string must
    be a numeric literal, and the empty string is [0]. *)
Definition radixLiteral (s : string) : option Z :=
  match s with
  | String "0" (String c r) =>
      let n := code c in
      let R := if (n =? 120) || (n =? 88) then 16
               else if (n =? 111) || (n =? 79) then 8
               else if (n =? 98) || (n =? 66) then 2 else 0 in
      if R =? 0 then None
      else match takeDigits R r with
           | (d :: ds, EmptyString) => Some (digitsVal R (d :: ds))
           | _ => None
           end
  | _ => None
  end.

Definition StringToNumber (s : string) : float :=
  match trim s with
  | EmptyString => f0
  | t =>
      match radixLiteral t with
      | Some n => of_Z n
      | None =>
          match parseDecimalPrefix t with
          | Some (v, EmptyString) => v
          | _ => fnan
          end
      end
  end.

End JsStr.
Export JsStr.

(** ** Values, errors and outcomes *)

(** A value as [JSON.parse] builds it; an object lists its properties in
    insertion order. *)
Inductive jsval :=
| JUndefined
| JNull
| JBool (b : bool)
| JNum (x : float)
| JStr (s : string)
| JArr (l : list jsval)
| JObj (l : list (string * jsval)).

Inductive error :=
| TypeError (what : string)
| FsError (code : string)
| LibraryError (what : string)
| Error (message : string).

Definition message (e : error) : string :=
  match e with
  | TypeError w => w
  | FsError c => c
  | LibraryError w => w
  | Error m => m
  end.

Inductive outcome (A : Type) :=
| Ret (a : A)
| Throw (e : error).
Arguments Ret {A} a.
Arguments Throw {A} e.

(** [ToBoolean]. *)
Definition toBoolean (v : jsval) : bool :=
  match v with
  | JUndefined | JNull => false
  | JBool b => b
  | JNum x => truthy x
  | JStr s => negb (String.eqb s "")
  | JArr _ | JObj _ => true
  end.

(** [ToString(v)] throws a [TypeError] for an object that has a property
    of its own called [toString]: no value parsed from JSON can be called,
    so that property hides the inherited method, and [valueOf] gives back
    the object, which is no primitive.  Any other object prints as
    ["[object Object]"].  An array prints every one of its elements, so it
    throws when one of them does. *)
Fixpoint toStringThrows (v : jsval) : bool :=
  match v with
  | JObj l => existsb (fun kv => String.eqb (fst kv) "toString") l
  | JArr l => existsb toStringThrows l
  | _ => false
  end.

(** The numeric prefix of [ToString(v)] when [v] prints.  A number prints
    to a string that reads back as itself ([-0] prints as ["0"]); an array
    prints its elements joined by commas, so only its first element can
    contribute; every other value prints to text with no numeric prefix. *)
Fixpoint numericPrefix (v : jsval) : float :=
  match v with
  | JNum x => if PrimFloat.is_zero x then f0 else x
  | JStr s => parseFloat s
  | JArr (e :: _) => numericPrefix e
  | _ => fnan
  end.

(** [parseFloat(v)] of any value: [parseFloat] reads the numeric prefix of
    [ToString(v)], and throws when [ToString] does. *)
Definition parseFloatV (v : jsval) : outcome float :=
  if toStringThrows v then Throw (TypeError "Cannot convert object to primitive value")
  else Ret (numericPrefix v).

(** ** Colour codec: [parseColor] *)

Record color := { r : float; g : float; b : float }.

Definition parseColor (colorString : string) : color :=
  if startsWith colorString "#" then
    let hex := slice_from 1 colorString in
    {| r := (parseInt (slice 0 2 hex) (Some 16%Z) / 255)%float;
       g := (parseInt (slice 2 4 hex) (Some 16%Z) / 255)%float;
       b := (parseInt (slice 4 6 hex) (Some 16%Z) / 255)%float |}
  else {| r := f0; g := f0; b := f0 |}.

(** ** Path command parser: [parseSVGPath] *)

(** An element of the canonical command stream. *)
Inductive token :=
| Cmd (s : string)
| Num (x : float).

Module PathParser.

(** The loop over the operands of a tuple, from index 1 on: each is pushed
    as [parseFloat] reads it, and the first that cannot be read throws. *)
Fixpoint operandTokens (operands : list jsval) : outcome (list token) :=
  match operands with
  | [] => Ret []
  | v :: rest =>
      match parseFloatV v with
      | Ret x =>
          match operandTokens rest with
          | Ret ts => Ret (Num x :: ts)
          | Throw e => Throw e
          end
      | Throw e => Throw e
      end
  end.

(** One [[command, ...operands]] tuple of the array and keyed encodings.
    [command.toUpperCase()] exists only on a string. *)
Definition tupleTokens (pathCommand : jsval) : outcome (list token) :=
  match pathCommand with
  | JArr (command :: operands) =>
      match command with
      | JStr c =>
          match operandTokens operands with
          | Ret ts => Ret (Cmd (toUpperCase c) :: ts)
          | Throw e => Throw e
          end
      | _ => Throw (TypeError "command.toUpperCase is not a function")
      end
  | _ => Ret []
  end.

(** The loop over the tuples, pushing onto [commands]. *)
Fixpoint tuplesTokens (commands : list token) (l : list jsval) : outcome (list token) :=
  match l with
  | [] => Ret commands
  | pathCommand :: rest =>
      match tupleTokens pathCommand with
      | Ret ts => tuplesTokens (commands ++ ts) rest
      | Throw e => Throw e
      end
  end.

(** A canonical array index: decimal digits without a leading zero, at
    most [2^32 - 2]. *)
Definition arrayIndex (k : string) : option Z :=
  match takeDigits 10 k with
  | (d :: ds, EmptyString) =>
      let n := digitsVal 10 (d :: ds) in
      if ((negb (d =? 0)) || (length ds =? 0)%nat) && (n <=? 4294967294)
      then Some n else None
  | _ => None
  end.

(** Stable insertion sort; [lt y x] says that [y] must come before [x]. *)
Fixpoint insertSorted {A} (lt : A -> A -> bool) (x : A) (l : list A) : list A :=
  match l with
  | [] => [x]
  | y :: l' => if lt y x then y :: insertSorted lt x l' else x :: l
  end.

Definition sortStable {A} (lt : A -> A -> bool) (l : list A) : list A :=
  foldr (insertSorted lt) [] l.

(** [obj[key]]: the last binding of the key, if any. *)
Definition getProp {A} (l : list (string * A)) (key : string) : option A :=
  fold_left (fun acc kv => if String.eqb (fst kv) key then Some (snd kv) else acc) l None.

Definition getValue (l : list (string * jsval)) (key : string) : jsval :=
  default JUndefined (getProp l key).

(** The keys of an object, each once, in the order in which they were
    first inserted: a key that is written again keeps its place. *)
Fixpoint insertionOrder (seen keys : list string) : list string :=
  match keys with
  | [] => []
  | k :: rest =>
      if existsb (String.eqb k) seen then insertionOrder seen rest
      else k :: insertionOrder (k :: seen) rest
  end.

(** [Object.keys], and the order of [for ... in]: array indices in
    ascending order, then the other keys in insertion order. *)
Definition Object_keys {A} (l : list (string * A)) : list string :=
  let ks := insertionOrder [] (map fst l) in
  let idx := filter (fun k => is_Some (arrayIndex k)) ks in
  let others := filter (fun k => arrayIndex k = None) ks in
  sortStable (fun a b => match arrayIndex a, arrayIndex b with
                         | Some x, Some y => x <? y
                         | _, _ => false
                         end) idx ++ others.

(** [keys.sort((a, b) => parseInt(a) - parseInt(b))]: [a] goes before [b]
    when the difference is negative, and [NaN] counts as equal.  [sort] is
    stable; it is run here as an insertion sort, which every stable sort
    agrees with when no key parses to [NaN].  With a key that parses to
    [NaN] the comparison is not consistent and the language leaves the
    order to the engine: the order computed here is then one of the
    possible ones only, and what is proved of keyed objects below either
    concerns keys that parse to numbers or does not depend on the order. *)
Definition keyBefore (a b : string) : bool :=
  (parseInt a None - parseInt b None <? 0)%float.

Definition sortedKeys {A} (l : list (string * A)) : list string :=
  sortStable keyBefore (Object_keys l).

Definition isCommandLetter (c : ascii) : bool :=
  let n := code (upperChar c) in
  existsb (Z.eqb n) [77; 76; 72; 86; 67; 83; 81; 84; 65; 90].

(** [replace(/,/g, ' ')]. *)
Fixpoint commasToSpaces (s : string) : string :=
  match s with
  | EmptyString => EmptyString
  | String c rest => String (if code c =? 44 then " "%char else c) (commasToSpaces rest)
  end.

(** [replace(/\s+/g, ' ')]: every run of white space becomes one space;
    [inRun] says that the previous character was white. *)
Fixpoint collapseSpaces (inRun : bool) (s : string) : string :=
  match s with
  | EmptyString => EmptyString
  | String c rest =>
      if isWhite c then
        if inRun then collapseSpaces true rest
        else String " " (collapseSpaces true rest)
      else String c (collapseSpaces false rest)
  end.

(** [split(/(?=[MLHVCSQTAZ])/i)]: a cut before every command letter that
    does not start the piece being read. *)
Fixpoint splitAtCommands (piece : string) (s : string) : list string :=
  match s with
  | EmptyString => [piece]
  | String c rest =>
      if isCommandLetter c && negb (String.eqb piece "")
      then piece :: splitAtCommands (String c EmptyString) rest
      else splitAtCommands (piece +:+ String c EmptyString) rest
  end.

(** [split(/\s+/)]: the pieces between the runs of white space. *)
Fixpoint splitWhite (inRun : bool) (piece : string) (s : string) : list string :=
  match s with
  | EmptyString => [piece]
  | String c rest =>
      if isWhite c then
        if inRun then splitWhite true piece rest
        else piece :: splitWhite true EmptyString rest
      else splitWhite false (piece +:+ String c EmptyString) rest
  end.

(** The body of the loop over the tokens of an SVG path string. *)
Definition svgTokenTokens (tok : string) : list token :=
  match splitWhite false EmptyString (trim tok) with
  | [] => []
  | command :: rest =>
      let coords := filter (fun n => negb (PrimFloat.is_nan n)) (map parseFloat rest) in
      let C := toUpperCase command in
      Cmd C ::
        (if String.eqb C "M" || String.eqb C "L" then
           match coords with
           | c0 :: c1 :: _ => [Num c0; Num c1]
           | _ => []
           end
         else if String.eqb C "Q" then
           match coords with
           | c0 :: c1 :: c2 :: c3 :: _ => [Num c0; Num c1; Num c2; Num c3]
           | _ => []
           end
         else if String.eqb C "C" then
           match coords with
           | c0 :: c1 :: c2 :: c3 :: c4 :: c5 :: _ =>
               [Num c0; Num c1; Num c2; Num c3; Num c4; Num c5]
           | _ => []
           end
         else [])
  end.

Definition parseSVGPath (pathData : jsval) : outcome (list token) :=
  if negb (toBoolean pathData) then Ret []
  else
    match pathData with
    | JArr l => tuplesTokens [] l
    | JObj l => tuplesTokens [] (map (getValue l) (sortedKeys l))
    | JStr str =>
        let cleaned := collapseSpaces false (commasToSpaces (trim str)) in
        let tokens :=
          filter (fun tok => negb (String.eqb (trim tok) ""))
                 (splitAtCommands EmptyString cleaned) in
        Ret (concat (map svgTokenTokens tokens))
    | _ => Ret []
    end.

End PathParser.
Export PathParser.

(** ** Annotation objects *)

(** [a || b] and [a || d] on a property that holds a number when present. *)
Definition orElse (a b : option float) : option float :=
  match a with
  | Some v => if truthy v then a else b
  | None => b
  end.

Definition orNum (a : option float) (d : float) : float :=
  match a with
  | Some v => if truthy v then v else d
  | None => d
  end.

(** [a || d] on a property that holds a string when present. *)
Definition orStr (a : option string) (d : string) : string :=
  match a with
  | Some v => if String.eqb v "" then d else v
  | None => d
  end.

(** An annotation object of the wire format: one keyed structure read by
    property name, every property optional.  The numeric properties hold
    numbers and the textual ones strings, as the data model has them. *)
Module Obj.
Record t := {
  type : option string;
  text : option string;
  fontSize : option float;
  manualScaleX : option float;
  manualScaleY : option float;
  scaleX : option float;
  scaleY : option float;
  fill : option string;
  stroke : option string;
  strokeWidth : option float;
  left : option float;
  top : option float;
  width : option float;
  height : option float;
  path : jsval;
  src : option string
}.
End Obj.

Record point := { pt_x : float; pt_y : float }.

(** ** Curve flattener: the two loops of [drawSVGPathCommands] *)

Module Flattener.

(** [pathCommands[i + 1 + k]] used as a number, where [rest] is what follows
    index [i]: a missing element is [undefined], hence [NaN], and a string
    is converted by [ToNumber]. *)
Definition operand (rest : list token) (k : nat) : float :=
  match rest !! k with
  | Some (Num v) => v
  | Some (Cmd s) => StringToNumber s
  | None => fnan
  end.

Record bounds := { minX : float; minY : float; maxX : float; maxY : float }.

Definition bounds0 : bounds :=
  {| minX := PrimFloat.infinity; minY := PrimFloat.infinity;
     maxX := PrimFloat.neg_infinity; maxY := PrimFloat.neg_infinity |}.

Definition grow (bb : bounds) (x y : float) : bounds :=
  {| minX := Math_min (minX bb) x; minY := Math_min (minY bb) y;
     maxX := Math_max (maxX bb) x; maxY := Math_max (maxY bb) y |}.

(** The bounding-box loop.  [skip] counts the elements that [i += n] jumps
    over; an element reached by the loop is looked at only if it is a
    string. *)
Fixpoint boundingBox (skip : nat) (pathCommands : list token) (bb : bounds) : bounds :=
  match pathCommands with
  | [] => bb
  | tok :: rest =>
      match skip with
      | S k => boundingBox k rest bb
      | O =>
          match tok with
          | Num _ => boundingBox 0 rest bb
          | Cmd cmd =>
              if String.eqb cmd "M" || String.eqb cmd "L" then
                boundingBox 2 rest (grow bb (operand rest 0) (operand rest 1))
              else if String.eqb cmd "Q" then
                boundingBox 4 rest
                  (grow (grow bb (operand rest 0) (operand rest 1))
                        (operand rest 2) (operand rest 3))
              else if String.eqb cmd "C" then
                boundingBox 6 rest
                  (grow (grow (grow bb (operand rest 0) (operand rest 1))
                              (operand rest 2) (operand rest 3))
                        (operand rest 4) (operand rest 5))
              else boundingBox 0 rest bb
          end
      end
  end.

(** The values [t] takes in [for (let t = t0; t <= 1; t += 0.1)].  The loop
    is run with fuel; [sampleFuel] is more than it ever uses (see
    [samples_fuel]). *)
Fixpoint samples (fuel : nat) (t : float) : list float :=
  match fuel with
  | O => []
  | S fuel' => if (t <=? 1)%float then t :: samples fuel' (t + 0.1)%float else []
  end.

Definition sampleFuel : nat := 32.

Record drawState := {
  pathSegments : list (list point);
  currentSegment : list point;
  currentX : float;
  currentY : float
}.

Definition drawState0 : drawState :=
  {| pathSegments := []; currentSegment := []; currentX := f0; currentY := f0 |}.

Section Transform.

(** [Math.pow] is implementation-approximated: it is a parameter. *)
Variable Math_pow : float -> float -> float.

(** [scaleX], [scaleY], [objectLeft], [objectTop], [minX], [minY] and
    [pageHeight] of the source. *)
Variables sX sY objectLeft objectTop mnX mnY pageHeight : float.

Definition toPageX (pathX : float) : float :=
  let relativeX := ((pathX - mnX) * sX)%float in
  (objectLeft + relativeX)%float.

Definition toPageY (pathY : float) : float :=
  let relativeY := ((pathY - mnY) * sY)%float in
  (pageHeight - (objectTop + relativeY))%float.

Definition quadPoint (st : drawState) (cpx cpy x y t : float) : point :=
  {| pt_x := ((1 - t) * (1 - t) * currentX st + 2 * (1 - t) * t * cpx + t * t * x)%float;
     pt_y := ((1 - t) * (1 - t) * currentY st + 2 * (1 - t) * t * cpy + t * t * y)%float |}.

Definition cubicPoint (st : drawState) (cp1x cp1y cp2x cp2y x y t : float) : point :=
  {| pt_x := (Math_pow (1 - t) 3 * currentX st +
              3 * Math_pow (1 - t) 2 * t * cp1x +
              3 * (1 - t) * Math_pow t 2 * cp2x +
              Math_pow t 3 * x)%float;
     pt_y := (Math_pow (1 - t) 3 * currentY st +
              3 * Math_pow (1 - t) 2 * t * cp1y +
              3 * (1 - t) * Math_pow t 2 * cp2y +
              Math_pow t 3 * y)%float |}.

(** The body of the second loop for the string [cmd] found at index [i],
    [rest] being what follows it: the new state and the jump [i += n]. *)
Definition drawCommand (cmd : string) (rest : list token) (st : drawState)
  : drawState * nat :=
  if String.eqb cmd "M" then
    let flushed :=
      match currentSegment st with
      | [] => pathSegments st
      | _ => pathSegments st ++ [currentSegment st]
      end in
    let x := toPageX (operand rest 0) in
    let y := toPageY (operand rest 1) in
    ({| pathSegments := flushed;
        currentSegment := [ {| pt_x := x; pt_y := y |} ];
        currentX := x; currentY := y |}, 2%nat)
  else if String.eqb cmd "L" then
    let x := toPageX (operand rest 0) in
    let y := toPageY (operand rest 1) in
    ({| pathSegments := pathSegments st;
        currentSegment := currentSegment st ++ [ {| pt_x := x; pt_y := y |} ];
        currentX := x; currentY := y |}, 2%nat)
  else if String.eqb cmd "Q" then
    let cpx := toPageX (operand rest 0) in
    let cpy := toPageY (operand rest 1) in
    let x := toPageX (operand rest 2) in
    let y := toPageY (operand rest 3) in
    ({| pathSegments := pathSegments st;
        currentSegment :=
          currentSegment st ++ map (quadPoint st cpx cpy x y) (samples sampleFuel 0.1);
        currentX := x; currentY := y |}, 4%nat)
  else if String.eqb cmd "C" then
    let cp1x := toPageX (operand rest 0) in
    let cp1y := toPageY (operand rest 1) in
    let cp2x := toPageX (operand rest 2) in
    let cp2y := toPageY (operand rest 3) in
    let x := toPageX (operand rest 4) in
    let y := toPageY (operand rest 5) in
    ({| pathSegments := pathSegments st;
        currentSegment :=
          currentSegment st ++
          map (cubicPoint st cp1x cp1y cp2x cp2y x y) (samples sampleFuel 0);
        currentX := x; currentY := y |}, 6%nat)
  else if String.eqb cmd "Z" then
    ({| pathSegments := pathSegments st;
        currentSegment :=
          match currentSegment st with
          | [] => []
          | first :: _ => currentSegment st ++ [first]
          end;
        currentX := currentX st; currentY := currentY st |}, 0%nat)
  else (st, 0%nat).

(** The second loop. *)
Fixpoint drawLoop (skip : nat) (pathCommands : list token) (st : drawState) : drawState :=
  match pathCommands with
  | [] => st
  | tok :: rest =>
      match skip with
      | S k => drawLoop k rest st
      | O =>
          match tok with
          | Num _ => drawLoop 0 rest st
          | Cmd cmd => let '(st', n) := drawCommand cmd rest st in drawLoop n rest st'
          end
      end
  end.

(** The segments collected when the loop ends, the open one included. *)
Definition finish (st : drawState) : list (list point) :=
  match currentSegment st with
  | [] => pathSegments st
  | _ => pathSegments st ++ [currentSegment st]
  end.

End Transform.

(** The path segments [drawSVGPathCommands] collects for an annotation. *)
Definition pathSegmentsOf (Math_pow : float -> float -> float)
    (pathCommands : list token) (pathData : Obj.t) (pageHeight : float)
  : list (list point) :=
  let scaleX := orNum (Obj.scaleX pathData) 1 in
  let scaleY := orNum (Obj.scaleY pathData) 1 in
  let objectLeft := orNum (Obj.left pathData) 0 in
  let objectTop := orNum (Obj.top pathData) 0 in
  let bb := boundingBox 0 pathCommands bounds0 in
  finish (drawLoop Math_pow scaleX scaleY objectLeft objectTop (minX bb) (minY bb)
            pageHeight 0 pathCommands drawState0).

End Flattener.
Export Flattener.

(** ** Effects: state, exceptions and the pdf library *)

(** A computation over a state [S] that returns a value or throws. *)
Definition M (S A : Type) : Type := S -> S * outcome A.

Definition ret {S A} (a : A) : M S A := fun s => (s, Ret a).

Definition throw {S A} (e : error) : M S A := fun s => (s, Throw e).

Definition bind {S A B} (m : M S A) (k : A -> M S B) : M S B :=
  fun s =>
    match m s with
    | (s', Ret a) => k a s'
    | (s', Throw e) => (s', Throw e)
    end.

(** [try { body } catch (error) { handler }]: what [body] did to the state
    before it threw stays done. *)
Definition try_catch {S A} (body : M S A) (handler : error -> M S A) : M S A :=
  fun s =>
    match body s with
    | (s', Throw e) => handler e s'
    | done => done
    end.

Notation "'let!' x ':=' m 'in' k" := (bind m (fun x => k))
  (at level 10, x pattern, m at level 100, k at level 200).

(** A mark a page's drawing methods commit to it. *)
Inductive imageKind := Png | Jpg.

Inductive mark :=
| MText (text : string) (x y size : float) (c : color)
| MLine (start finish : point) (thickness : float) (c : color)
| MRectangle (x y width height : float) (borderColor : color)
    (borderWidth : float) (fillColor : option color)
| MImage (kind : imageKind) (data : string) (x y width height : float).

(** A page: its size and the marks drawn on it, oldest first. *)
Record page := { pageWidth : float; pageHeight : float; marks : list mark }.

(** The calls into the pdf library. *)
Inductive libcall :=
| Call_rgb (red green blue : float)
| Call_embedFont
| Call_embedPng (data : string)
| Call_embedJpg (data : string)
| Call_draw (m : mark).

Module Renderer.
Section WithLibrary.

(** The pdf library is outside the program: which of its calls throw is a
    parameter ([lib_throws]), and so is [Math.pow]. *)
Variable lib_throws : libcall -> bool.
Variable Math_pow : float -> float -> float.

(** A call that succeeds returns; a drawing call also adds its mark. *)
Definition lib (c : libcall) : M page unit :=
  fun p =>
    if lib_throws c then (p, Throw (LibraryError "pdf-lib"))
    else
      match c with
      | Call_draw m =>
          ({| pageWidth := pageWidth p; pageHeight := pageHeight p;
              marks := marks p ++ [m] |}, Ret tt)
      | _ => (p, Ret tt)
      end.

Definition rgb (red green blue : float) : M page color :=
  let! _ := lib (Call_rgb red green blue) in
  ret {| r := red; g := green; b := blue |}.

(** *** Text *)

(** [actualFontSize] of [addTextToPage], before and after the limits. *)
Definition textScaledSize (textData : Obj.t) : float :=
  let baseFontSize := orNum (Obj.fontSize textData) 20 in
  let scaleX := orNum (orElse (Obj.manualScaleX textData) (Obj.scaleX textData)) 1 in
  let scaleY := orNum (orElse (Obj.manualScaleY textData) (Obj.scaleY textData)) 1 in
  let averageScale := ((scaleX + scaleY) / 2)%float in
  (baseFontSize * averageScale)%float.

Definition textFontSize (textData : Obj.t) : float :=
  let minFontSize := 6%float in
  let maxFontSize := 72%float in
  Math_max minFontSize (Math_min maxFontSize (textScaledSize textData)).

Definition addTextToPage (textData : Obj.t) (pageWidth pageHeight : float) : M page unit :=
  try_catch
    (let actualFontSize := textFontSize textData in
     let color := parseColor (orStr (Obj.fill textData) "#000000") in
     let text := orStr (Obj.text textData) "" in
     if String.eqb (trim text) "" then ret tt
     else
       let x := orNum (Obj.left textData) 0 in
       let y := (pageHeight - orNum (Obj.top textData) 0 - actualFontSize * 0.87)%float in
       let! _ := lib Call_embedFont in
       let! c := rgb (r color) (g color) (b color) in
       lib (Call_draw (MText text x y actualFontSize c)))
    (fun error => throw error).

(** *** Paths *)

Definition renderPathBoundingBox (pathData : Obj.t) (pageWidth pageHeight : float)
    (color : color) (strokeWidth : float) : M page unit :=
  let baseWidth := orNum (Obj.width pathData) 0 in
  let baseHeight := orNum (Obj.height pathData) 0 in
  let scaleX := orNum (Obj.scaleX pathData) 1 in
  let scaleY := orNum (Obj.scaleY pathData) 1 in
  let actualWidth := (baseWidth * scaleX)%float in
  let actualHeight := (baseHeight * scaleY)%float in
  match Obj.left pathData, Obj.top pathData with
  | Some left_, Some top_ =>
      if (0 <? actualWidth)%float && (0 <? actualHeight)%float then
        let x := left_ in
        let y := (pageHeight - top_ - actualHeight)%float in
        let! c := rgb (r color) (g color) (b color) in
        lib (Call_draw (MRectangle x y actualWidth actualHeight c
                          (Math_max 1 strokeWidth) None))
      else ret tt
  | _, _ => ret tt
  end.

(** The loop of [drawPathSegment] from index [i] on, [prev] being
    [points[i-1]]. *)
Fixpoint drawLines (prev : point) (points : list point) (color : color)
    (strokeWidth : float) : M page unit :=
  match points with
  | [] => ret tt
  | p :: rest =>
      let! _ := lib (Call_draw (MLine prev p strokeWidth color)) in
      drawLines p rest color strokeWidth
  end.

Definition drawPathSegment (points : list point) (color : color)
    (strokeWidth : float) : M page unit :=
  match points with
  | first :: (_ :: _) as rest =>
      try_catch (drawLines first rest color strokeWidth) (fun _ => ret tt)
  | _ => ret tt
  end.

Fixpoint drawSegments (segments : list (list point)) (color : color)
    (strokeWidth : float) : M page unit :=
  match segments with
  | [] => ret tt
  | segment :: rest =>
      let! _ := (if (1 <? length segment)%nat
                 then drawPathSegment segment color strokeWidth else ret tt) in
      drawSegments rest color strokeWidth
  end.

Definition drawSVGPathCommands (pathCommands : list token) (pathData : Obj.t)
    (pageHeight : float) (color : color) (strokeWidth : float) : M page unit :=
  let! colorObj := rgb (r color) (g color) (b color) in
  drawSegments (pathSegmentsOf Math_pow pathCommands pathData pageHeight)
    colorObj strokeWidth.

Definition renderSVGPath (pathData : Obj.t) (pageWidth pageHeight : float)
    (color : color) (strokeWidth : float) : M page unit :=
  try_catch
    (match parseSVGPath (Obj.path pathData) with
     | Throw e => throw e
     | Ret pathCommands =>
         drawSVGPathCommands pathCommands pathData pageHeight color strokeWidth
     end)
    (fun _ => renderPathBoundingBox pathData pageWidth pageHeight color strokeWidth).

(** The test [addPathToPage] makes on [pathData.path]. *)
Definition hasPathData (path : jsval) : bool :=
  toBoolean path &&
  match path with
  | JStr s => (0 <? String.length s)%nat
  | JArr l => (0 <? length l)%nat
  | JObj l => (0 <? length (Object_keys l))%nat
  | _ => false
  end.

Definition addPathToPage (pathData : Obj.t) (pageWidth pageHeight : float) : M page unit :=
  try_catch
    (let color := parseColor (orStr (Obj.stroke pathData) "#000000") in
     let strokeWidth := orNum (Obj.strokeWidth pathData) 2 in
     if hasPathData (Obj.path pathData)
     then renderSVGPath pathData pageWidth pageHeight color strokeWidth
     else renderPathBoundingBox pathData pageWidth pageHeight color strokeWidth)
    (fun _ => ret tt).

(** *** Images *)

Definition renderSignaturePlaceholder (x y width height : float) : M page unit :=
  let! borderColor := rgb 0.4 0.4 0.8 in
  let! color := rgb 0.9 0.9 1.0 in
  let! _ := lib (Call_draw (MRectangle x y width height borderColor 1 (Some color))) in
  let! _ := lib Call_embedFont in
  let fontSize := Math_min (Math_min 10 (height / 3)%float) (width / 8)%float in
  if (6 <? fontSize)%float then
    let! c := rgb 0.4 0.4 0.8 in
    lib (Call_draw (MText "SIGNATURE" (x + 5)%float
                      (y + height / 2 - fontSize / 2)%float fontSize c))
  else ret tt.

(** [s.split(',')]. *)
Fixpoint splitComma (piece : string) (s : string) : list string :=
  match s with
  | EmptyString => [piece]
  | String c rest =>
      if code c =? 44 then piece :: splitComma EmptyString rest
      else splitComma (piece +:+ String c EmptyString) rest
  end.

(** The image bytes are kept as the base64 text that encodes them. *)
Definition renderSignatureImage (imageData : Obj.t) (x y width height : float)
  : M page unit :=
  try_catch
    (let imageDataUrl := default EmptyString (Obj.src imageData) in
     match splitComma EmptyString imageDataUrl !! 1%nat with
     | None => throw (TypeError "Buffer.from(undefined)")
     | Some base64Data =>
         let! kind :=
           (if startsWith imageDataUrl "data:image/png" then
              let! _ := lib (Call_embedPng base64Data) in ret Png
            else if startsWith imageDataUrl "data:image/jpeg"
                    || startsWith imageDataUrl "data:image/jpg" then
              let! _ := lib (Call_embedJpg base64Data) in ret Jpg
            else
              let! _ := lib (Call_embedPng base64Data) in ret Png) in
         lib (Call_draw (MImage kind base64Data x y width height))
     end)
    (fun _ => renderSignaturePlaceholder x y width height).

(** [adjustedX] and [adjustedY] of [addImageToPage]. *)
Definition imageActualWidth (imageData : Obj.t) : float :=
  (orNum (Obj.width imageData) 120 * orNum (Obj.scaleX imageData) 1)%float.

Definition imageActualHeight (imageData : Obj.t) : float :=
  (orNum (Obj.height imageData) 60 * orNum (Obj.scaleY imageData) 1)%float.

Definition imageAdjustedX (imageData : Obj.t) (pageWidth : float) : float :=
  let actualWidth := imageActualWidth imageData in
  let x := orNum (Obj.left imageData) 0 in
  Math_max 0 (Math_min x (pageWidth - actualWidth)%float).

Definition imageAdjustedY (imageData : Obj.t) (pageHeight : float) : float :=
  let actualHeight := imageActualHeight imageData in
  let y := (pageHeight - orNum (Obj.top imageData) 0 - actualHeight)%float in
  Math_max 0 (Math_min y (pageHeight - actualHeight)%float).

Definition addImageToPage (imageData : Obj.t) (pageWidth pageHeight : float)
  : M page unit :=
  try_catch
    (let actualWidth := imageActualWidth imageData in
     let actualHeight := imageActualHeight imageData in
     let adjustedX := imageAdjustedX imageData pageWidth in
     let adjustedY := imageAdjustedY imageData pageHeight in
     if startsWith (orStr (Obj.src imageData) "") "data:image/"
     then renderSignatureImage imageData adjustedX adjustedY actualWidth actualHeight
     else renderSignaturePlaceholder adjustedX adjustedY actualWidth actualHeight)
    (fun _ => ret tt).

(** *** Page orchestrator *)

(** The dispatch on [objData.type], inside the [try] of the loop of
    [addAnnotationsToPage]. *)
Definition renderAnnotation (objData : Obj.t) (pageWidth pageHeight : float) : M page unit :=
  match Obj.type objData with
  | Some ty =>
      if String.eqb ty "i-text" then addTextToPage objData pageWidth pageHeight
      else if String.eqb ty "path" then addPathToPage objData pageWidth pageHeight
      else if String.eqb ty "image" then addImageToPage objData pageWidth pageHeight
      else ret tt
  | None => ret tt
  end.

(** The body of the loop: the dispatch and the [catch] around it. *)
Definition addAnnotation (objData : Obj.t) (pageWidth pageHeight : float) : M page unit :=
  try_catch (renderAnnotation objData pageWidth pageHeight) (fun _ => ret tt).

Fixpoint addAnnotations (pageObjects : list Obj.t) (pageWidth pageHeight : float)
  : M page unit :=
  match pageObjects with
  | [] => ret tt
  | objData :: rest =>
      let! _ := addAnnotation objData pageWidth pageHeight in
      addAnnotations rest pageWidth pageHeight
  end.

Definition addAnnotationsToPage (pageObjects : list Obj.t) : M page unit :=
  fun page => addAnnotations pageObjects (pageWidth page) (pageHeight page) page.

(** ** Documents and files *)

(** A file's content, one character a byte. *)
Definition bytes := string.

Inductive entry :=
| File (content : bytes)
| Directory
| NoAccess.

(** The part of the file system the service reads and writes. *)
Definition fileSystem := gmap string entry.

Definition fs_stat (path : string) : M fileSystem bool :=
  fun fs =>
    match fs !! path with
    | None => (fs, Throw (FsError "ENOENT"))
    | Some NoAccess => (fs, Throw (FsError "EACCES"))
    | Some (File _) => (fs, Ret true)
    | Some Directory => (fs, Ret false)
    end.

Definition fs_readFile (path : string) : M fileSystem bytes :=
  fun fs =>
    match fs !! path with
    | None => (fs, Throw (FsError "ENOENT"))
    | Some NoAccess => (fs, Throw (FsError "EACCES"))
    | Some Directory => (fs, Throw (FsError "EISDIR"))
    | Some (File content) => (fs, Ret content)
    end.

Definition fs_writeFile (path : string) (content : bytes) : M fileSystem unit :=
  fun fs =>
    match fs !! path with
    | Some NoAccess => (fs, Throw (FsError "EACCES"))
    | Some Directory => (fs, Throw (FsError "EISDIR"))
    | _ => (<[path := File content]> fs, Ret tt)
    end.

(** [error.code]. *)
Definition errorCode (e : error) : option string :=
  match e with
  | FsError c => Some c
  | _ => None
  end.

(** The service's directory, [path.join], and the pdf library's reading and
    writing of a document (its pages) are parameters. *)
Variable tempDir : string.
Variable path_join : string -> string -> string.
Variable PDFDocument_load : bytes -> outcome (list page).
Variable PDFDocument_save : list page -> outcome bytes.

Definition loadPdf (fileId : string) : M fileSystem bytes :=
  let! found :=
    try_catch
      (let filledPath := path_join tempDir (fileId +:+ "_filled.pdf") in
       let! isFile := fs_stat filledPath in
       if isFile
       then (let! content := fs_readFile filledPath in ret (Some content))
       else ret None)
      (fun error =>
         if bool_decide (errorCode error = Some "ENOENT") then ret None
         else throw error) in
  match found with
  | Some content => ret content
  | None =>
      let filePath := path_join tempDir (fileId +:+ ".pdf") in
      fs_readFile filePath
  end.

(** The request body: [pages] maps a page number to its annotations. *)
Record modifications := { pages : option (list (string * option (list Obj.t))) }.

(** The position, among [count] pages, that the number [index] names. *)
Definition pageIndex (count : nat) (index : float) : option nat :=
  find (fun i => (of_Z (Z.of_nat i) =? index)%float) (seq 0 count).

(** [pdfDoc.getPage(index)]: the page at an index within range. *)
Definition getPage (pdfDoc : list page) (index : float) : outcome (nat * page) :=
  match pageIndex (length pdfDoc) index with
  | Some i =>
      match pdfDoc !! i with
      | Some p => Ret (i, p)
      | None => Throw (LibraryError "index out of range")
      end
  | None => Throw (LibraryError "index out of range")
  end.

(** The loop over [modifications.pages]; the document is the state. *)
Fixpoint applyPages (allPages : list (string * option (list Obj.t)))
    (keys : list string) : M (list page) unit :=
  match keys with
  | [] => ret tt
  | pageNumStr :: rest =>
      let pageNum := parseInt pageNumStr None in
      let! _ :=
        (match default None (getProp allPages pageNumStr) with
         | None => ret tt
         | Some pageObjects =>
             if (length pageObjects =? 0)%nat then ret tt
             else
               fun pdfDoc =>
                 match getPage pdfDoc (pageNum - 1)%float with
                 | Throw e => (pdfDoc, Throw e)
                 | Ret (i, page) =>
                     let '(page', result) := addAnnotationsToPage pageObjects page in
                     (<[i := page']> pdfDoc, result)
                 end
         end) in
      applyPages allPages rest
  end.

(** What [savePdfWithChanges] does with the bytes [loadPdf] returned. *)
Definition flattenInto (fileId : string) (mods : modifications)
    (existingPdfBytes : bytes) : M fileSystem string :=
  let modifiedFilePath := path_join tempDir (fileId +:+ "_filled.pdf") in
  let! pdfDoc :=
    (match PDFDocument_load existingPdfBytes with
     | Ret doc => ret doc
     | Throw encryptionError =>
         throw (Error ("Unable to process PDF: " +:+ message encryptionError))
     end) in
  let allPages := default [] (pages mods) in
  match applyPages allPages (Object_keys allPages) pdfDoc with
  | (_, Throw e) => throw e
  | (pdfDoc', Ret _) =>
      match PDFDocument_save pdfDoc' with
      | Throw e => throw e
      | Ret modifiedPdfBytes =>
          let! _ := fs_writeFile modifiedFilePath modifiedPdfBytes in
          ret (fileId +:+ "_filled")
      end
  end.

Definition savePdfWithChanges (fileId : string) (mods : modifications)
  : M fileSystem string :=
  try_catch
    (let! existingPdfBytes := loadPdf fileId in
     flattenInto fileId mods existingPdfBytes)
    (fun error => throw error).

End WithLibrary.
End Renderer.
Export Renderer.

(** ** Temporary files: upload, expiry, deletion and cleanup *)

(** [s.endsWith(suffix)]. *)
Definition endsWith (s suffix : string) : bool :=
  let n := String.length s in
  let k := String.length suffix in
  (k <=? n)%nat && String.eqb (drop (n - k) s) suffix.

(** [Math.floor]: a number with a fractional part goes down to the integer
    below it; integers, zeros, infinities and [NaN] are returned as they
    are. *)
Definition Math_floor (x : float) : float :=
  match Prim2SF x with
  | S754_finite s m e =>
      if 0 <=? e then x
      else
        let n := (if s then Z.neg m else Z.pos m) / 2 ^ (- e) in
        if n =? 0 then f0 else of_Z n
  | _ => x
  end.

(** [a || d] on numbers. *)
Definition orNumber (a d : float) : float := if truthy a then a else d.

Module TempFiles.

(** [fs.unlink]: a file is removed; a path with no entry, an entry that
    denies access and a directory make it throw. *)
Definition fs_unlink (path : string) : M fileSystem unit :=
  fun fs =>
    match fs !! path with
    | None => (fs, Throw (FsError "ENOENT"))
    | Some NoAccess => (fs, Throw (FsError "EACCES"))
    | Some Directory => (fs, Throw (FsError "EISDIR"))
    | Some (File _) => (delete path fs, Ret tt)
    end.

(** What [fs.stat] reports and the service uses: the status of
    [checkFileExpiry]. *)
Record fileStatus := {
  fileExists : bool;
  expired : bool;
  ageHours : float;
  maxAgeHours : float
}.

Section WithEnvironment.

(** The service's directory and [path.join], as before; further the clock
    [Date.now()], the modification time [stats.mtime.getTime()] of a path,
    the variables of [process.env], the names [fs.readdir] lists in a
    directory, and the decoding [Buffer.from(data, 'base64')] are
    parameters. *)
Variable tempDir : string.
Variable path_join : string -> string -> string.
Variable now : float.
Variable mtime : string -> float.
Variable env : string -> option string.
Variable readdir : fileSystem -> string -> outcome (list string).
Variable Buffer_from_base64 : string -> bytes.

Definition fs_readdir (path : string) : M fileSystem (list string) :=
  fun fs => (fs, readdir fs path).

(** [parseInt(process.env[name])]: a variable that is not set is
    [undefined], which [parseInt] reads as the text ["undefined"]. *)
Definition envInt (name : string) : float :=
  parseInt (default "undefined" (env name)) None.

(** [savePdfFromBase64]; [uuid] is what [uuidv4()] returns in this call. *)
Definition savePdfFromBase64 (uuid : string) (base64Data : string) : M fileSystem string :=
  let pdfBuffer := Buffer_from_base64 base64Data in
  let fileId := uuid in
  let filePath := path_join tempDir (fileId +:+ ".pdf") in
  let! _ := fs_writeFile filePath pdfBuffer in
  ret fileId.

Definition checkFileExpiry (fileId : string) : M fileSystem fileStatus :=
  try_catch
    (let filePath := path_join tempDir (fileId +:+ ".pdf") in
     let! _ := fs_stat filePath in
     let fileAge := (now - mtime filePath)%float in
     let maxAge := orNumber (envInt "URL_EXPIRY_HOURS") 168 in
     let maxAgeMs := (maxAge * 60 * 60 * 1000)%float in
     let ageHours := Math_floor (fileAge / (60 * 60 * 1000))%float in
     ret {| fileExists := true;
            expired := (maxAgeMs <? fileAge)%float;
            ageHours := ageHours;
            maxAgeHours := maxAge |})
    (fun error =>
       if bool_decide (errorCode error = Some "ENOENT") then
         let maxAge := orNumber (envInt "URL_EXPIRY_HOURS") 168 in
         ret {| fileExists := false;
                expired := true;
                ageHours := 0;
                maxAgeHours := maxAge |}
       else throw error).

Definition deleteTemporaryPdf (fileId : string) : M fileSystem unit :=
  try_catch
    (let filePath := path_join tempDir (fileId +:+ ".pdf") in
     fs_unlink filePath)
    (fun error =>
       if bool_decide (errorCode error = Some "ENOENT") then ret tt
       else throw error).

(** The loop of [cleanupOldTemporaryFiles] over the names listed. *)
Fixpoint cleanupFiles (files : list string) (cutoffTime : float) (deletedCount : nat)
  : M fileSystem nat :=
  match files with
  | [] => ret deletedCount
  | file :: rest =>
      let! deletedCount' :=
        (if endsWith file ".pdf" then
           let filePath := path_join tempDir file in
           let! _ := fs_stat filePath in
           if (mtime filePath <? cutoffTime)%float then
             try_catch
               (let! _ := fs_unlink filePath in ret (S deletedCount))
               (fun _ => ret deletedCount)
           else ret deletedCount
         else ret deletedCount) in
      cleanupFiles rest cutoffTime deletedCount'
  end.

(** [cutoffTime] of [cleanupOldTemporaryFiles]. *)
Definition cleanupCutoff : float :=
  let maxAge :=
    orNumber (orNumber (envInt "MAX_TEMP_FILE_AGE_HOURS") (envInt "URL_EXPIRY_HOURS")) 24 in
  (now - maxAge * 60 * 60 * 1000)%float.

Definition cleanupOldTemporaryFiles : M fileSystem unit :=
  try_catch
    (let! files := fs_readdir tempDir in
     let cutoffTime := cleanupCutoff in
     let! _ := cleanupFiles files cutoffTime 0 in
     ret tt)
    (fun _ => ret tt).

End WithEnvironment.
End TempFiles.
Export TempFiles.

(** ** Sessions: the files of [src/utils/sessionManager.js] *)

Module Sessions.

(** A row of the table [session_documents]. *)
Record sessionDocument := {
  file_id : string;
  document_type : string;
  status : string;
  signed_at : option string
}.

(** An element of the result of [getSignedDocuments]. *)
Record signedDocument := {
  signedType : string;
  originalFileId : string;
  filledFileId : string;
  base64Data : string;
  signedAt : option string
}.

Section WithDatabase.

(** The database is outside the program: what its calls return is a
    parameter, and so is the encoding [buffer.toString('base64')]. *)
Variable tempDir : string.
Variable path_join : string -> string -> string.
Variable getSessionDocuments : string -> outcome (list sessionDocument).
Variable removeApprovalSession : string -> outcome unit.
Variable toBase64 : bytes -> string.

(** The loop of [getSignedDocuments] over the signed documents, pushing
    onto [results]. *)
Fixpoint readSignedDocuments (signedDocuments : list sessionDocument)
    (results : list signedDocument) : M fileSystem (list signedDocument) :=
  match signedDocuments with
  | [] => ret results
  | doc :: rest =>
      let filledFileId := file_id doc +:+ "_filled" in
      let! results' :=
        try_catch
          (let filledPdfPath := path_join tempDir (filledFileId +:+ ".pdf") in
           let! pdfBuffer := fs_readFile filledPdfPath in
           ret (results ++ [ {| signedType := document_type doc;
                                originalFileId := file_id doc;
                                filledFileId := filledFileId;
                                base64Data := toBase64 pdfBuffer;
                                signedAt := signed_at doc |} ]))
          (fun _ => ret results) in
      readSignedDocuments rest results'
  end.

Definition getSignedDocuments (sessionId : string) : M fileSystem (list signedDocument) :=
  try_catch
    (match getSessionDocuments sessionId with
     | Throw e => throw e
     | Ret documents =>
         let signedDocuments :=
           filter (fun doc => String.eqb (status doc) "signed") documents in
         readSignedDocuments signedDocuments []
     end)
    (fun error => throw error).

(** The loop of [cleanupSession] over the documents of the session. *)
Fixpoint cleanupSessionFiles (documents : list sessionDocument) : M fileSystem unit :=
  match documents with
  | [] => ret tt
  | doc :: rest =>
      let! _ :=
        try_catch
          (let! _ := deleteTemporaryPdf tempDir path_join (file_id doc) in
           deleteTemporaryPdf tempDir path_join (file_id doc +:+ "_filled"))
          (fun _ => ret tt) in
      cleanupSessionFiles rest
  end.

Definition cleanupSession (sessionId : string) : M fileSystem unit :=
  try_catch
    (match getSessionDocuments sessionId with
     | Throw e => throw e
     | Ret documents =>
         let! _ := cleanupSessionFiles documents in
         match removeApprovalSession sessionId with
         | Throw e => throw e
         | Ret _ => ret tt
         end
     end)
    (fun error => throw error).

End WithDatabase.
End Sessions.
Export Sessions.

(** ** The controller: what it checks before it calls the service *)

Module Controller.

(** [validateAnnotations]; [None] is a request without [modifications]. *)
Definition validateAnnotations (mods : option modifications) : bool :=
  match mods with
  | None => false
  | Some modifications =>
      match pages modifications with
      | None => false
      | Some allPages =>
          existsb
            (fun pageNum =>
               match default None (getProp allPages pageNum) with
               | Some pageObjects => (0 <? length pageObjects)%nat
               | None => false
               end)
            (Object_keys allPages)
      end
  end.

Definition cleanupIndividualDocumentFiles (tempDir : string)
    (path_join : string -> string -> string)
    (originalFileId filledFileId : string) : M fileSystem unit :=
  try_catch
    (deleteTemporaryPdf tempDir path_join originalFileId)
    (fun _ => ret tt).

(** How [uploadSession] answers before it creates a session: a rejection
    with status 400 for one of five reasons, an exception handed to the
    error handler, or the go-ahead. *)
Inductive rejection :=
| CallbackUrlRequired
| ExactlyTwoDocumentsRequired
| TypeAndContentBytesRequired
| InvalidDocumentType
| BothDocumentTypesRequired.

Inductive verdict :=
| Rejected (status : Z) (reason : rejection)
| Failed (e : error)
| Accepted.

(** [v[name]] for a value of the request body. *)
Definition property (v : jsval) (name : string) : outcome jsval :=
  match v with
  | JUndefined | JNull => Throw (TypeError "Cannot read properties")
  | JObj l => Ret (getValue l name)
  | _ => Ret JUndefined
  end.

(** The loop that checks the structure of each document. *)
Fixpoint checkStructure (documents : list jsval) : option verdict :=
  match documents with
  | [] => None
  | doc :: rest =>
      match property doc "type" with
      | Throw e => Some (Failed e)
      | Ret type =>
          if negb (toBoolean type)
          then Some (Rejected 400 TypeAndContentBytesRequired)
          else
            match property doc "contentBytes" with
            | Throw e => Some (Failed e)
            | Ret contentBytes =>
                if negb (toBoolean contentBytes)
                then Some (Rejected 400 TypeAndContentBytesRequired)
                else checkStructure rest
            end
      end
  end.

(** [array.includes(s)] for an array of values and a string [s]. *)
Definition includes (l : list jsval) (s : string) : bool :=
  existsb (fun v => match v with JStr t => String.eqb t s | _ => false end) l.

(** [validTypes.includes(type)]. *)
Definition isValidType (type : jsval) : bool :=
  match type with
  | JStr t => String.eqb t "original" || String.eqb t "dar"
  | _ => false
  end.

Definition uploadSessionChecks (callbackUrl documents : jsval) : verdict :=
  if negb (toBoolean callbackUrl) then Rejected 400 CallbackUrlRequired
  else
    match documents with
    | JArr [d1; d2] =>
        match checkStructure [d1; d2] with
        | Some answer => answer
        | None =>
            let types :=
              map (fun doc => match property doc "type" with
                              | Ret type => type
                              | Throw _ => JUndefined
                              end) [d1; d2] in
            if negb (forallb isValidType types)
            then Rejected 400 InvalidDocumentType
            else if negb (includes types "original") || negb (includes types "dar")
            then Rejected 400 BothDocumentTypesRequired
            else Accepted
        end
    | _ => Rejected 400 ExactlyTwoDocumentsRequired
    end.

End Controller.
Export Controller.

(** * Specification-side definitions and example data *)

(** [a <= b] and [a < b] as the program tests them, and being a number. *)
Definition fle (a b : float) : Prop := (a <=? b)%float = true.
Definition flt (a b : float) : Prop := (a <? b)%float = true.
Definition number (a : float) : Prop := PrimFloat.is_nan a = false.

(** [a == b]: the same number, the two zeros being one. *)
Definition feq (a b : float) : Prop := (a =? b)%float = true.

(** ** Colour codec *)

Definition black : color := {| r := f0; g := f0; b := f0 |}.

Definition isHexDigit (c : ascii) : bool :=
  match digitVal c with
  | Some d => d <? 16
  | None => false
  end.

(** The integer two hexadecimal digits write. *)
Definition hexByte (c1 c2 : ascii) : Z :=
  16 * default 0 (digitVal c1) + default 0 (digitVal c2).

(** The string [#RRGGBB] with the given six characters, then [rest]. *)
Definition hexColor (r1 r2 g1 g2 b1 b2 : ascii) (rest : string) : string :=
  String "#" (String r1 (String r2 (String g1 (String g2 (String b1 (String b2 rest)))))).

Definition allAscii : list ascii := map ascii_of_nat (seq 0 256).

(** What [parseColor] computes for one channel written by two hexadecimal
    digits, checked on every pair of characters. *)
Definition hexPairOK (c1 c2 : ascii) : bool :=
  implb (isHexDigit c1 && isHexDigit c2)
    (let v := parseInt (String c1 (String c2 EmptyString)) (Some 16) in
     PrimFloat.Leibniz.eqb v (of_Z (hexByte c1 c2)) &&
     (0 <=? hexByte c1 c2) && (hexByte c1 c2 <=? 255) &&
     (0 <=? v / 255)%float && (v / 255 <=? 1)%float).

(** ** Text and image annotations *)

(** The font size as the specification words it: the base font size times
    the average of the two manual scales, clamped to [6, 72]. *)
Definition specFontSize (baseFontSize manualScaleX manualScaleY : float) : float :=
  Math_max 6 (Math_min 72 (baseFontSize * ((manualScaleX + manualScaleY) / 2))%float).

(** A text annotation with the given text, size and manual scales. *)
Definition textObject (text : string) (fontSize manualScaleX manualScaleY : option float)
  : Obj.t :=
  {| Obj.type := Some "i-text"; Obj.text := Some text; Obj.fontSize := fontSize;
     Obj.manualScaleX := manualScaleX; Obj.manualScaleY := manualScaleY;
     Obj.scaleX := None; Obj.scaleY := None; Obj.fill := None; Obj.stroke := None;
     Obj.strokeWidth := None; Obj.left := None; Obj.top := None;
     Obj.width := None; Obj.height := None; Obj.path := JUndefined; Obj.src := None |}.

(** An image annotation with the given base size, scale and position. *)
Definition imageObject (width height scaleX scaleY left top : option float)
    (src : option string) : Obj.t :=
  {| Obj.type := Some "image"; Obj.text := None; Obj.fontSize := None;
     Obj.manualScaleX := None; Obj.manualScaleY := None;
     Obj.scaleX := scaleX; Obj.scaleY := scaleY; Obj.fill := None; Obj.stroke := None;
     Obj.strokeWidth := None; Obj.left := left; Obj.top := top;
     Obj.width := width; Obj.height := height; Obj.path := JUndefined; Obj.src := src |}.

(** An image 200 wide placed at [left = 100] on a page 100 wide and 100
    high. *)
Definition wideImage : Obj.t :=
  imageObject (Some 200%float) (Some 50%float) (Some 1%float) (Some 1%float)
    (Some 100%float) (Some 10%float) None.

(** A text annotation with a fill colour. *)
Definition filledText (text fill : string) (left top : float) : Obj.t :=
  {| Obj.type := Some "i-text"; Obj.text := Some text; Obj.fontSize := Some 12%float;
     Obj.manualScaleX := None; Obj.manualScaleY := None;
     Obj.scaleX := None; Obj.scaleY := None; Obj.fill := Some fill; Obj.stroke := None;
     Obj.strokeWidth := None; Obj.left := Some left; Obj.top := Some top;
     Obj.width := None; Obj.height := None; Obj.path := JUndefined; Obj.src := None |}.

(** A path annotation under the identity transform. *)
Definition identityPath (path : jsval) : Obj.t :=
  {| Obj.type := Some "path"; Obj.text := None; Obj.fontSize := None;
     Obj.manualScaleX := None; Obj.manualScaleY := None;
     Obj.scaleX := Some 1%float; Obj.scaleY := Some 1%float;
     Obj.fill := None; Obj.stroke := None; Obj.strokeWidth := None;
     Obj.left := Some 0%float; Obj.top := Some 0%float;
     Obj.width := None; Obj.height := None; Obj.path := path; Obj.src := None |}.

(** ** Path encodings *)

Definition canonical_M0_L10 : list token :=
  [Cmd "M"; Num 0; Num 0; Cmd "L"; Num 10; Num 10].

Definition tuple_M0 : jsval := JArr [JStr "M"; JNum 0; JNum 0].
Definition tuple_L10 : jsval := JArr [JStr "L"; JNum 10; JNum 10].

(** Keys listed in ascending order as the comparator of the sort sees them:
    [parseInt(a) - parseInt(b)] is negative for each key [a] and every
    later key [b], and [parseInt(b) - parseInt(a)] is not. *)
Fixpoint ascendingKeys (ks : list string) : bool :=
  match ks with
  | [] => true
  | a :: rest =>
      forallb (fun b => keyBefore a b && negb (keyBefore b a)) rest
      && ascendingKeys rest
  end.

(** ** Curve flattener *)

(** The flattener as the specification words it (section 4.3), over
    commands that carry the operands they consume. *)
Module PathSpec.

(** The command letters the flattener draws. *)
Definition drawable (name : string) : bool :=
  existsb (String.eqb name) ["M"; "L"; "Q"; "C"; "Z"].

(** Besides the five commands, a stream may hold a command that is not
    drawn, emitted without operands, and numbers that no command
    consumes. *)
Inductive command :=
| MoveTo (x y : float)
| LineTo (x y : float)
| QuadTo (cx cy x y : float)
| CubicTo (c1x c1y c2x c2y x y : float)
| ClosePath
| Unsupported (name : string) (unknown : drawable name = false)
| Stray (x : float).

(** The canonical stream of a command: its letter, then its operands. *)
Definition encode (c : command) : list token :=
  match c with
  | MoveTo x y => [Cmd "M"; Num x; Num y]
  | LineTo x y => [Cmd "L"; Num x; Num y]
  | QuadTo cx cy x y => [Cmd "Q"; Num cx; Num cy; Num x; Num y]
  | CubicTo c1x c1y c2x c2y x y =>
      [Cmd "C"; Num c1x; Num c1y; Num c2x; Num c2y; Num x; Num y]
  | ClosePath => [Cmd "Z"]
  | Unsupported name _ => [Cmd name]
  | Stray x => [Num x]
  end.

Definition stream (cs : list command) : list token := concat (map encode cs).

(** The end points and control points of a command. *)
Definition coordinates (c : command) : list (float * float) :=
  match c with
  | MoveTo x y | LineTo x y => [(x, y)]
  | QuadTo cx cy x y => [(cx, cy); (x, y)]
  | CubicTo c1x c1y c2x c2y x y => [(c1x, c1y); (c2x, c2y); (x, y)]
  | ClosePath | Unsupported _ _ | Stray _ => []
  end.

(** Step 1: the minimum over all end points and control points. *)
Definition minimum (vs : list float) : float :=
  fold_left Math_min vs PrimFloat.infinity.

Definition boxMinX (cs : list command) : float :=
  minimum (map fst (concat (map coordinates cs))).

Definition boxMinY (cs : list command) : float :=
  minimum (map snd (concat (map coordinates cs))).

(** Step 2: every coordinate [(px, py)] is mapped to draw space. *)
Definition mapCoordinates (fx fy : float -> float) (c : command) : command :=
  match c with
  | MoveTo x y => MoveTo (fx x) (fy y)
  | LineTo x y => LineTo (fx x) (fy y)
  | QuadTo cx cy x y => QuadTo (fx cx) (fy cy) (fx x) (fy y)
  | CubicTo c1x c1y c2x c2y x y =>
      CubicTo (fx c1x) (fy c1y) (fx c2x) (fy c2y) (fx x) (fy y)
  | ClosePath | Unsupported _ _ | Stray _ => c
  end.

(** Steps 3 to 7, on commands that are in draw space already. *)
Record pen := {
  finished : list (list point);
  polyline : list point;
  position : point
}.

Definition pen0 : pen :=
  {| finished := []; polyline := []; position := {| pt_x := f0; pt_y := f0 |} |}.

Definition flushed (pn : pen) : list (list point) :=
  match polyline pn with
  | [] => finished pn
  | _ => finished pn ++ [polyline pn]
  end.

Definition quadBlend (p0 p1 p2 : point) (t : float) : point :=
  {| pt_x := ((1 - t) * (1 - t) * pt_x p0 + 2 * (1 - t) * t * pt_x p1
              + t * t * pt_x p2)%float;
     pt_y := ((1 - t) * (1 - t) * pt_y p0 + 2 * (1 - t) * t * pt_y p1
              + t * t * pt_y p2)%float |}.

Definition cubicBlend (pow : float -> float -> float) (p0 p1 p2 p3 : point)
    (t : float) : point :=
  {| pt_x := (pow (1 - t) 3 * pt_x p0 + 3 * pow (1 - t) 2 * t * pt_x p1
              + 3 * (1 - t) * pow t 2 * pt_x p2 + pow t 3 * pt_x p3)%float;
     pt_y := (pow (1 - t) 3 * pt_y p0 + 3 * pow (1 - t) 2 * t * pt_y p1
              + 3 * (1 - t) * pow t 2 * pt_y p2 + pow t 3 * pt_y p3)%float |}.

Definition stroke (pow : float -> float -> float) (pn : pen) (c : command) : pen :=
  match c with
  | MoveTo x y =>
      {| finished := flushed pn;
         polyline := [ {| pt_x := x; pt_y := y |} ];
         position := {| pt_x := x; pt_y := y |} |}
  | LineTo x y =>
      {| finished := finished pn;
         polyline := polyline pn ++ [ {| pt_x := x; pt_y := y |} ];
         position := {| pt_x := x; pt_y := y |} |}
  | QuadTo cx cy x y =>
      {| finished := finished pn;
         polyline := polyline pn ++
           map (quadBlend (position pn) {| pt_x := cx; pt_y := cy |}
                  {| pt_x := x; pt_y := y |})
               (samples sampleFuel 0.1);
         position := {| pt_x := x; pt_y := y |} |}
  | CubicTo c1x c1y c2x c2y x y =>
      {| finished := finished pn;
         polyline := polyline pn ++
           map (cubicBlend pow (position pn) {| pt_x := c1x; pt_y := c1y |}
                  {| pt_x := c2x; pt_y := c2y |} {| pt_x := x; pt_y := y |})
               (samples sampleFuel 0);
         position := {| pt_x := x; pt_y := y |} |}
  | ClosePath =>
      {| finished := finished pn;
         polyline := match polyline pn with
                     | [] => []
                     | first :: _ => polyline pn ++ [first]
                     end;
         position := position pn |}
  | Unsupported _ _ | Stray _ => pn
  end.

(** The polylines collected, the last one included. *)
Definition polylines (pow : float -> float -> float) (cs : list command)
  : list (list point) :=
  flushed (fold_left (stroke pow) cs pen0).

(** Steps 1 to 7 together. *)
Definition flatten (pow : float -> float -> float) (cs : list command)
    (scaleX scaleY objectLeft objectTop pageHeight : float) : list (list point) :=
  let minX := boxMinX cs in
  let minY := boxMinY cs in
  polylines pow
    (map (mapCoordinates
            (fun px => (objectLeft + (px - minX) * scaleX)%float)
            (fun py => (pageHeight - (objectTop + (py - minY) * scaleY))%float))
         cs).

(** The number of points a command adds to a polyline that is open. *)
Definition pointsAdded (c : command) : nat :=
  match c with
  | MoveTo _ _ | LineTo _ _ | ClosePath => 1
  | QuadTo _ _ _ _ => 10
  | CubicTo _ _ _ _ _ _ => 11
  | Unsupported _ _ | Stray _ => 0
  end.

End PathSpec.

Definition toPen (st : drawState) : PathSpec.pen :=
  {| PathSpec.finished := pathSegments st;
     PathSpec.polyline := currentSegment st;
     PathSpec.position := {| pt_x := currentX st; pt_y := currentY st |} |}.

Definition totalPoints (segments : list (list point)) : nat :=
  length (concat segments).

Definition pt (x y : float) : point := {| pt_x := x; pt_y := y |}.

(** ** Pages and the orchestrator *)

(** The page with more marks on it. *)
Definition addMarks (p : page) (ms : list mark) : page :=
  {| pageWidth := pageWidth p; pageHeight := pageHeight p; marks := marks p ++ ms |}.

(** A computation that, on every page, adds the same marks, all of them
    satisfying [P], and ends the same way. *)
Definition appendOnly {A} (P : mark -> Prop) (m : M page A) : Prop :=
  exists ms res, Forall P ms /\ forall p, m p = (addMarks p ms, res).

Definition anyMark (m : mark) : Prop := True.

(** An image or a rectangle has the given position and size; other marks
    are not constrained. *)
Definition placedAt (x y width height : float) (m : mark) : Prop :=
  match m with
  | MImage _ _ x' y' width' height' =>
      (x', y', width', height') = (x, y, width, height)
  | MRectangle x' y' width' height' _ _ _ =>
      (x', y', width', height') = (x, y, width, height)
  | MText _ _ _ _ _ | MLine _ _ _ _ => True
  end.

(** Step 8 of the flattener: a polyline of two or more points is drawn as
    the strokes that join its consecutive points. *)
Fixpoint linesFrom (prev : point) (points : list point) (thickness : float)
    (c : color) : list mark :=
  match points with
  | [] => []
  | p :: rest => MLine prev p thickness c :: linesFrom p rest thickness c
  end.

Definition polylineMarks (thickness : float) (c : color) (polyline : list point)
  : list mark :=
  match polyline with
  | first :: (_ :: _) as rest => linesFrom first rest thickness c
  | _ => []
  end.

(** A page of the given size with nothing drawn on it. *)
Definition blankPage (width height : float) : page :=
  {| pageWidth := width; pageHeight := height; marks := [] |}.

(** A pdf library that, of all calls, rejects only a colour with a channel
    outside [0, 1]. *)
Definition strictColours (c : libcall) : bool :=
  match c with
  | Call_rgb red green blue =>
      negb (forallb (fun v => (0 <=? v)%float && (v <=? 1)%float) [red; green; blue])
  | _ => false
  end.

(** The marks an annotation's renderer draws on a page of the given size,
    up to the point where it returns or throws. *)
Definition drawnBy (lib_throws : libcall -> bool) (Math_pow : float -> float -> float)
    (objData : Obj.t) (w h : float) : list mark :=
  marks (fst (renderAnnotation lib_throws Math_pow objData w h (blankPage w h))).

(** ** Documents and files *)

(** The pages whose annotations are applied name pages of a document of
    [count] pages. *)
Definition pagesInRange (mods : modifications) (count : nat) : Prop :=
  forall pageNumStr pageObjects,
    In pageNumStr (Object_keys (default [] (pages mods))) ->
    getProp (default [] (pages mods)) pageNumStr = Some (Some pageObjects) ->
    pageObjects <> [] ->
    is_Some (pageIndex count (parseInt pageNumStr None - 1)%float).

Definition demoJoin (dir name : string) : string := dir +:+ "/" +:+ name.

Definition markText (m : mark) : string :=
  match m with
  | MText text _ _ _ _ => text
  | _ => EmptyString
  end.

(** A reader that accepts only bytes that begin with the pdf signature and
    then yields a one-page document, and a writer that lists the texts
    drawn. *)
Definition demoLoad (content : bytes) : outcome (list page) :=
  if startsWith content "%PDF" then Ret [blankPage 600 800]
  else Throw (LibraryError "No PDF header found").

Definition demoSave (pdfDoc : list page) : outcome bytes :=
  Ret ("%PDF-" +:+ String.concat "," (map markText (concat (map marks pdfDoc)))).

Definition demoMods : modifications :=
  {| pages := Some [("1", Some [filledText "First" "#000000" 10 20;
                                filledText "Second" "#zz0000" 10 40;
                                filledText "Third" "#ff0000" 10 60])] |}.

Definition demoFiles : fileSystem := {[ "/srv/temp/doc.pdf" := File "%PDF-1.7" ]}.

Definition demoBroken : fileSystem := {[ "/srv/temp/doc.pdf" := File "not a pdf" ]}.

Definition demoService : string -> modifications -> M fileSystem string :=
  savePdfWithChanges strictColours (fun v _ => v) "/srv/temp" demoJoin demoLoad demoSave.

(** ** Temporary files and sessions *)

(** A path that holds a file or nothing, which [fs.unlink] and
    [fs.writeFile] accept or find absent. *)
Definition clearable (fs : fileSystem) (path : string) : Prop :=
  fs !! path = None \/ exists content, fs !! path = Some (File content).

(** [fs'] is [fs] with some of its files removed, each at a path that
    satisfies [P]; nothing else differs. *)
Definition removedOnly (P : string -> Prop) (fs fs' : fileSystem) : Prop :=
  forall path,
    fs' !! path = fs !! path \/
    (fs' !! path = None /\ (exists content, fs !! path = Some (File content)) /\ P path).

(** The names of a listing that end in [.pdf]. *)
Definition pdfNames (files : list string) : list string :=
  List.filter (fun file => endsWith file ".pdf") files.

(** The element [getSignedDocuments] returns for a document whose filled
    file can be read. *)
Definition signedEntry (tempDir : string) (path_join : string -> string -> string)
    (toBase64 : bytes -> string) (fs : fileSystem) (doc : sessionDocument)
  : option signedDocument :=
  match fs !! path_join tempDir ((file_id doc +:+ "_filled") +:+ ".pdf") with
  | Some (File pdfBuffer) =>
      Some {| signedType := document_type doc;
              originalFileId := file_id doc;
              filledFileId := file_id doc +:+ "_filled";
              base64Data := toBase64 pdfBuffer;
              signedAt := signed_at doc |}
  | _ => None
  end.

(** A path names a file that [cleanupOldTemporaryFiles] may remove: it is
    older than the cutoff and is the path of a listed name that ends in
    [.pdf]. *)
Definition listedOldPdf (tempDir : string) (path_join : string -> string -> string)
    (mtime : string -> float) (cutoff : float) (files : list string) (path : string)
  : Prop :=
  flt (mtime path) cutoff /\
  exists file, In file files /\ endsWith file ".pdf" = true /\
               path = path_join tempDir file.

(** A path is that of the original or of the filled version of a document
    of the session. *)
Definition sessionPaths (tempDir : string) (path_join : string -> string -> string)
    (documents : list sessionDocument) (path : string) : Prop :=
  exists doc, In doc documents /\
    (path = path_join tempDir (file_id doc +:+ ".pdf") \/
     path = path_join tempDir ((file_id doc +:+ "_filled") +:+ ".pdf")).

(** ** Path encodings and polylines *)

(** A tuple of the array encoding: the command letter, then its operands. *)
Definition fabricTuple (letter : string) (operands : list float) : jsval :=
  JArr (JStr letter :: map JNum operands).

(** A number as [parseFloat] reads it back from its own text: [-0] is
    written [0]. *)
Definition readBack (x : float) : float :=
  if PrimFloat.is_zero x then f0 else x.

(** The part of the canonical stream a tuple stands for. *)
Definition tupleStream (letter : string) (operands : list float) : list token :=
  Cmd (toUpperCase letter) :: map (fun x => Num (readBack x)) operands.

(** A tuple that cannot be read: an array whose first element is not a
    string, or one of whose operands does not print. *)
Definition malformedTuple (v : jsval) : bool :=
  match v with
  | JArr (JStr _ :: operands) => existsb toStringThrows operands
  | JArr (_ :: _) => true
  | _ => false
  end.

(** The strokes of a polyline that get drawn: those before the first one
    the library rejects. *)
Fixpoint strokesAccepted (lib_throws : libcall -> bool) (strokes : list mark)
  : list mark :=
  match strokes with
  | [] => []
  | m :: rest =>
      if lib_throws (Call_draw m) then []
      else m :: strokesAccepted lib_throws rest
  end.

Definition isMoveTo (c : PathSpec.command) : bool :=
  match c with
  | PathSpec.MoveTo _ _ => true
  | _ => false
  end.

(** The number of strokes a command adds to a polyline that is open. *)
Definition linesDrawn (c : PathSpec.command) : nat :=
  match c with
  | PathSpec.LineTo _ _ | PathSpec.ClosePath => 1
  | PathSpec.QuadTo _ _ _ _ => 10
  | PathSpec.CubicTo _ _ _ _ _ _ => 11
  | PathSpec.MoveTo _ _ | PathSpec.Unsupported _ _ | PathSpec.Stray _ => 0
  end.

(** The number of strokes that join the points of some polylines. *)
Definition lineCount (segments : list (list point)) : nat :=
  sum_list (map (fun segment => (length segment - 1)%nat) segments).

(** A number that is neither [NaN] nor infinite. *)
Definition finite (x : float) : Prop :=
  match Prim2SF x with
  | S754_nan | S754_infinity _ => False
  | _ => True
  end.

(** A point whose horizontal, or vertical, coordinate is [NaN]. *)
Definition nanX (p : point) : Prop := PrimFloat.is_nan (pt_x p) = true.
Definition nanY (p : point) : Prop := PrimFloat.is_nan (pt_y p) = true.

(** No polyline is empty. *)
Definition noEmptySegment (segments : list (list point)) : Prop :=
  Forall (fun segment => segment <> []) segments.

(** ** Marks *)

(** What [renderSignaturePlaceholder] draws when the library accepts its
    calls. *)
Definition placeholderMarks (x y width height : float) : list mark :=
  let fontSize := Math_min (Math_min 10 (height / 3)%float) (width / 8)%float in
  MRectangle x y width height {| r := 0.4; g := 0.4; b := 0.8 |} 1
    (Some {| r := 0.9; g := 0.9; b := 1.0 |}) ::
  (if (6 <? fontSize)%float
   then [MText "SIGNATURE" (x + 5)%float (y + height / 2 - fontSize / 2)%float fontSize
           {| r := 0.4; g := 0.4; b := 0.8 |}]
   else []).

(** The same page with more marks on it. *)
Definition pageExtends (p p' : page) : Prop := exists ms, p' = addMarks p ms.

(** A block of the stream the string encoding yields: a command word in
    upper case, then no operand at all, or the two operands of [M] or [L],
    the four of [Q] or the six of [C], every one a number. *)
Definition svgBlock (block : list token) : Prop :=
  exists name operands,
    block = Cmd name :: map Num operands /\
    toUpperCase name = name /\
    Forall number operands /\
    (operands = [] \/
     ((name = "M" \/ name = "L") /\ length operands = 2%nat) \/
     (name = "Q" /\ length operands = 4%nat) \/
     (name = "C" /\ length operands = 6%nat)).

(** [upperChar] leaves an upper-case character as it is, checked on every
    character. *)
Definition upperCharStable (c : ascii) : bool :=
  code (upperChar (upperChar c)) =? code (upperChar c).

(** ** Example data for the temporary files *)

(** A clock, modification times, an environment and a directory listing:
    [old.pdf] was modified long ago and the limit is 24 hours. *)
Definition demoNow : float := 1700000000000.

Definition demoMtime (path : string) : float :=
  if String.eqb path "/srv/temp/old.pdf" then 1600000000000 else 1699999000000.

Definition demoEnv (name : string) : option string :=
  if String.eqb name "URL_EXPIRY_HOURS" then Some "24" else None.

Definition demoReaddir (fs : fileSystem) (dir : string) : outcome (list string) :=
  Ret ["old.pdf"; "doc.pdf"; "notes.txt"].

Definition demoDisk : fileSystem :=
  <["/srv/temp/old.pdf" := File "%PDF-old"]>
    (<["/srv/temp/notes.txt" := File "notes"]> demoFiles).

(** Stand-ins for the base64 codec. *)
Definition demoDecode (base64Data : string) : bytes := "%PDF-" +:+ base64Data.

Definition demoEncode (content : bytes) : string := "b64:" +:+ content.

(** A session of one signed document, and a database that answers. *)
Definition demoDocument : sessionDocument :=
  {| file_id := "doc"; document_type := "original"; status := "signed";
     signed_at := Some "2024-01-01 10:00:00" |}.

Definition demoDocuments (sessionId : string) : outcome (list sessionDocument) :=
  Ret [demoDocument].

Definition demoRemove (sessionId : string) : outcome unit := Ret tt.

Definition acceptAll (c : libcall) : bool := false.

(** A library that cannot embed images. *)
Definition noImages (c : libcall) : bool :=
  match c with
  | Call_embedPng _ | Call_embedJpg _ => true
  | _ => false
  end.

(** A path annotation with a size, whose path is the given value. *)
Definition boxedPath (path : jsval) : Obj.t :=
  {| Obj.type := Some "path"; Obj.text := None; Obj.fontSize := None;
     Obj.manualScaleX := None; Obj.manualScaleY := None;
     Obj.scaleX := Some 2%float; Obj.scaleY := Some 2%float;
     Obj.fill := None; Obj.stroke := Some "#0000ff"; Obj.strokeWidth := None;
     Obj.left := Some 10%float; Obj.top := Some 20%float;
     Obj.width := Some 30%float; Obj.height := Some 40%float;
     Obj.path := path; Obj.src := None |}.

(** * Properties *)

(** ** Facts about binary64 comparison *)

Module FloatFacts.

Ltac cmp_cases :=
  repeat match goal with
  | |- context [PosDef.Pos.compare_cont Eq ?a ?b] =>
      change (PosDef.Pos.compare_cont Eq a b) with (Pos.compare a b)
  | H : context [PosDef.Pos.compare_cont Eq ?a ?b] |- _ =>
      change (PosDef.Pos.compare_cont Eq a b) with (Pos.compare a b) in H
  end;
  repeat match goal with
  | |- context [Z.compare ?a ?b] => destruct (Z.compare_spec a b)
  | H : context [Z.compare ?a ?b] |- _ => destruct (Z.compare_spec a b)
  | |- context [Pos.compare ?a ?b] => destruct (Pos.compare_spec a b)
  | H : context [Pos.compare ?a ?b] |- _ => destruct (Pos.compare_spec a b)
  end.

Lemma SFcompare_antisym x y :
  SFcompare y x = option_map CompOpp (SFcompare x y).
Proof.
  destruct x as [[]|[]| |[] m1 e1], y as [[]|[]| |[] m2 e2]; simpl; try reflexivity;
    cmp_cases; simpl; try reflexivity; try lia; subst; try lia.
Qed.

Lemma SFcompare_le_lt_trans x y z c :
  SFcompare x y = Some c -> c <> Gt ->
  SFcompare y z = Some Lt -> SFcompare x z = Some Lt.
Proof.
  destruct x as [[]|[]| |[] m1 e1], y as [[]|[]| |[] m2 e2], z as [[]|[]| |[] m3 e3];
    simpl; intros H1 Hc H2; try discriminate; try reflexivity;
    try (injection H1 as <-; try congruence);
    try (exfalso; apply Hc; reflexivity);
    cmp_cases; simpl in *; try discriminate; try reflexivity; try congruence;
    try lia; subst; try lia.
Qed.

Lemma SFcompare_refl x : x <> S754_nan -> SFcompare x x = Some Eq.
Proof.
  destruct x as [[]|[]| |[] m e]; simpl; intros H; try congruence;
    cmp_cases; simpl; try reflexivity; lia.
Qed.

Lemma SFcompare_some x y :
  x <> S754_nan -> y <> S754_nan -> exists c, SFcompare x y = Some c.
Proof.
  destruct x as [[]|[]| |[] m1 e1], y as [[]|[]| |[] m2 e2]; simpl; intros Hx Hy;
    try congruence; eexists; reflexivity.
Qed.

Lemma number_SF a : number a <-> Prim2SF a <> S754_nan.
Proof.
  unfold number, PrimFloat.is_nan. rewrite FloatAxioms.eqb_spec. unfold SFeqb. split.
  - intros H E. rewrite E in H. discriminate.
  - intros H. rewrite (SFcompare_refl _ H). reflexivity.
Qed.

Lemma flt_fle a b : flt a b -> fle a b.
Proof.
  unfold flt, fle. rewrite FloatAxioms.ltb_spec, FloatAxioms.leb_spec. unfold SFltb, SFleb.
  destruct (SFcompare _ _) as [[]|]; congruence.
Qed.

Lemma fle_refl a : number a -> fle a a.
Proof.
  intros H%number_SF. unfold fle. rewrite FloatAxioms.leb_spec. unfold SFleb.
  rewrite (SFcompare_refl _ H). reflexivity.
Qed.

Lemma not_flt_fle a b :
  number a -> number b -> (a <? b)%float = false -> fle b a.
Proof.
  intros Ha%number_SF Hb%number_SF. unfold fle. rewrite FloatAxioms.ltb_spec, FloatAxioms.leb_spec.
  unfold SFltb, SFleb. rewrite (SFcompare_antisym (Prim2SF a) (Prim2SF b)).
  destruct (SFcompare_some _ _ Ha Hb) as [c ->]. destruct c; simpl; congruence.
Qed.

Lemma flt_asym a b : flt a b -> (b <? a)%float = false.
Proof.
  unfold flt. rewrite !FloatAxioms.ltb_spec. unfold SFltb.
  rewrite (SFcompare_antisym (Prim2SF a) (Prim2SF b)).
  destruct (SFcompare _ _) as [[]|]; simpl; congruence.
Qed.

Lemma fle_flt_trans a b c : fle a b -> flt b c -> flt a c.
Proof.
  unfold fle, flt. rewrite FloatAxioms.leb_spec, !FloatAxioms.ltb_spec. unfold SFleb, SFltb.
  destruct (SFcompare (Prim2SF a) (Prim2SF b)) as [cmp|] eqn:E1; [|discriminate].
  intros H1 H2.
  destruct (SFcompare (Prim2SF b) (Prim2SF c)) as [[]|] eqn:E2; try discriminate.
  rewrite (SFcompare_le_lt_trans _ _ _ cmp E1); [reflexivity| |exact E2].
  destruct cmp; congruence.
Qed.

Lemma flt_number a b : flt a b -> number a /\ number b.
Proof.
  unfold flt. rewrite FloatAxioms.ltb_spec. unfold SFltb. intros H.
  split; apply number_SF; intros E; rewrite E in H;
    destruct (Prim2SF a), (Prim2SF b); discriminate.
Qed.

Lemma fle_number a b : fle a b -> number a /\ number b.
Proof.
  unfold fle. rewrite FloatAxioms.leb_spec. unfold SFleb. intros H.
  split; apply number_SF; intros E; rewrite E in H;
    destruct (Prim2SF a), (Prim2SF b); discriminate.
Qed.

(** Two zeros compare as equal whatever their signs. *)
Lemma zeros_fle a b :
  PrimFloat.is_zero a = true -> PrimFloat.is_zero b = true -> fle a b.
Proof.
  unfold PrimFloat.is_zero, fle. rewrite !FloatAxioms.eqb_spec, FloatAxioms.leb_spec.
  unfold SFeqb, SFleb.
  change (Prim2SF PrimFloat.zero) with (S754_zero false).
  destruct (Prim2SF a) as [[]|[]| |[] m1 e1], (Prim2SF b) as [[]|[]| |[] m2 e2];
    simpl; congruence.
Qed.

(** [Math.min] and [Math.max] of two numbers return one of them, on the
    right side of the other. *)
Lemma Math_min_cases a b :
  number a -> number b ->
  (Math_min a b = a /\ fle a b) \/ (Math_min a b = b /\ fle b a).
Proof.
  intros Ha Hb. unfold Math_min. rewrite Ha, Hb. simpl.
  destruct (is_neg_zero b && is_pos_zero a) eqn:Ez.
  - right. split; [reflexivity|].
    apply andb_true_iff in Ez as [Hbz Haz].
    apply andb_true_iff in Hbz as [Hbz _]. apply andb_true_iff in Haz as [Haz _].
    now apply zeros_fle.
  - destruct (b <? a)%float eqn:E.
    + right. split; [reflexivity|]. now apply flt_fle.
    + left. split; [reflexivity|]. now apply not_flt_fle.
Qed.

Lemma Math_max_cases a b :
  number a -> number b ->
  (Math_max a b = a /\ fle b a) \/ (Math_max a b = b /\ fle a b).
Proof.
  intros Ha Hb. unfold Math_max. rewrite Ha, Hb. simpl.
  destruct (is_pos_zero b && is_neg_zero a) eqn:Ez.
  - right. split; [reflexivity|].
    apply andb_true_iff in Ez as [Hbz Haz].
    apply andb_true_iff in Hbz as [Hbz _]. apply andb_true_iff in Haz as [Haz _].
    now apply zeros_fle.
  - destruct (a <? b)%float eqn:E.
    + right. split; [reflexivity|]. now apply flt_fle.
    + left. split; [reflexivity|]. now apply not_flt_fle.
Qed.

Lemma Math_min_number a b : number a -> number b -> number (Math_min a b).
Proof. intros Ha Hb. destruct (Math_min_cases a b Ha Hb) as [[-> _]|[-> _]]; assumption. Qed.

Lemma Math_max_number a b : number a -> number b -> number (Math_max a b).
Proof. intros Ha Hb. destruct (Math_max_cases a b Ha Hb) as [[-> _]|[-> _]]; assumption. Qed.

(** [Math.max(lo, Math.min(hi, v))] of a number lies between the limits. *)
Lemma clamp_bounds lo hi v :
  fle lo hi -> number v ->
  fle lo (Math_max lo (Math_min hi v)) /\ fle (Math_max lo (Math_min hi v)) hi.
Proof.
  intros Hlh Hv. destruct (fle_number _ _ Hlh) as [Hlo Hhi].
  pose proof (Math_min_number hi v Hhi Hv) as Hm.
  assert (fle (Math_min hi v) hi) as Hmh.
  { destruct (Math_min_cases hi v Hhi Hv) as [[-> _]|[-> H]];
      [now apply fle_refl | exact H]. }
  destruct (Math_max_cases lo (Math_min hi v) Hlo Hm) as [[-> H]|[-> H]].
  - split; [now apply fle_refl | exact Hlh].
  - split; [exact H | exact Hmh].
Qed.

End FloatFacts.
Import FloatFacts.

(** ** The built-in parsers on known values *)

Example parseFloat_values :
  parseFloat "0.1" = 0.1%float /\
  parseFloat " -12.5e1xyz" = (-125)%float /\
  parseFloat ".5e-1" = 0.05%float /\
  parseFloat "1e" = 1%float /\
  parseFloat "-0" = (-0)%float /\
  parseFloat "1.7976931348623157e308" = 1.7976931348623157e308%float /\
  parseFloat "1.8e308" = PrimFloat.infinity /\
  parseFloat "4.9e-324" = 4.9e-324%float /\
  parseFloat "2e-324" = 0%float /\
  parseFloat "9007199254740993" = 9007199254740992%float /\
  PrimFloat.is_nan (parseFloat "px") = true /\
  PrimFloat.is_nan (parseFloat ".") = true.
Proof. split_and!; vm_compute; reflexivity. Qed.

Example parseInt_values :
  parseInt "ff" (Some 16) = 255%float /\
  parseInt " 12abc" None = 12%float /\
  parseInt "0x1f" None = 31%float /\
  parseInt "-7" None = (-7)%float /\
  PrimFloat.is_nan (parseInt "" (Some 16)) = true /\
  PrimFloat.is_nan (parseInt "zz" (Some 16)) = true.
Proof. split_and!; vm_compute; reflexivity. Qed.

Example StringToNumber_values :
  StringToNumber " 12 " = 12%float /\
  StringToNumber "" = 0%float /\
  StringToNumber "0X1F" = 31%float /\
  PrimFloat.is_nan (StringToNumber "L") = true /\
  PrimFloat.is_nan (StringToNumber "1e") = true.
Proof. split_and!; vm_compute; reflexivity. Qed.

Example parseSVGPath_values :
  parseSVGPath (JStr " m1,2   l 3.5,,4 q 1 2 3 z H 5 c 1 2 3 4 5 6 7")
    = Ret [Cmd "M1"; Cmd "L"; Num 3.5; Num 4; Cmd "Q"; Cmd "Z"; Cmd "H";
           Cmd "C"; Num 1; Num 2; Num 3; Num 4; Num 5; Num 6] /\
  parseSVGPath (JArr [JArr [JStr "m"; JNum 1; JStr "2px"; JNull]; JNum 7; JArr []])
    = Ret [Cmd "M"; Num 1; Num 2; Num PrimFloat.nan] /\
  parseSVGPath (JArr [JArr [JNum 1]])
    = Throw (TypeError "command.toUpperCase is not a function").
Proof. split_and!; vm_compute; reflexivity. Qed.

(** ** Colour codec *)

Lemma allAscii_complete c : In c allAscii.
Proof.
  rewrite <- (ascii_nat_embedding c). apply in_map, in_seq.
  pose proof (nat_ascii_bounded c). lia.
Qed.

Lemma hexPairs_checked :
  forallb (fun c1 => forallb (hexPairOK c1) allAscii) allAscii = true.
Proof. vm_compute. reflexivity. Qed.

Lemma hexPair_ok c1 c2 :
  isHexDigit c1 = true -> isHexDigit c2 = true ->
  parseInt (String c1 (String c2 EmptyString)) (Some 16) = of_Z (hexByte c1 c2) /\
  0 <= hexByte c1 c2 <= 255 /\
  fle 0 (of_Z (hexByte c1 c2) / 255) /\ fle (of_Z (hexByte c1 c2) / 255) 1.
Proof.
  intros H1 H2.
  pose proof hexPairs_checked as H.
  rewrite forallb_forall in H. specialize (H c1 (allAscii_complete c1)).
  rewrite forallb_forall in H. specialize (H c2 (allAscii_complete c2)).
  unfold hexPairOK in H. rewrite H1, H2 in H. simpl in H.
  repeat (apply andb_true_iff in H as [H ?]).
  apply FloatAxioms.Leibniz.eqb_spec in H. rewrite H in *.
  unfold fle. repeat split; try assumption; lia.
Qed.

(** C7 as stated fails: a string that starts with [#] but is not of the
    [#RRGGBB] form does not yield black.  The eight-digit form [#ff000080]
    yields red, its first six digits being read and the rest ignored; the
    short form [#fff] yields a blue channel that is [NaN], neither black
    nor within [0, 1]. *)
Lemma C7_short_hex_is_not_black :
  parseColor "#ff000080" = {| r := 1; g := 0; b := 0 |} /\
  parseColor "#ff000080" <> black /\
  parseColor "#fff" <> black /\
  r (parseColor "#fff") = 1%float /\
  PrimFloat.is_nan (b (parseColor "#fff")) = true /\
  (0 <=? b (parseColor "#fff"))%float = false.
Proof.
  split_and!; try (vm_compute; reflexivity).
  - intros H. apply (f_equal (fun c => PrimFloat.Leibniz.eqb (r c) 0)) in H.
    vm_compute in H. discriminate.
  - intros H. apply (f_equal (fun c => PrimFloat.is_nan (b c))) in H.
    vm_compute in H. discriminate.
Qed.

(** C7 (amended): [parseColor] returns a triple for every string; a string
    that does not start with [#] yields black, and a string that starts
    with [#] and six hexadecimal digits, the form [#RRGGBB] in particular,
    yields for each channel the integer 0..255 its two digits write divided
    by 255, a number in [0, 1]. *)
Theorem C7_parseColor :
  (forall s, startsWith s "#" = false -> parseColor s = black) /\
  (forall r1 r2 g1 g2 b1 b2 rest,
     isHexDigit r1 = true -> isHexDigit r2 = true ->
     isHexDigit g1 = true -> isHexDigit g2 = true ->
     isHexDigit b1 = true -> isHexDigit b2 = true ->
     let c := parseColor (hexColor r1 r2 g1 g2 b1 b2 rest) in
     r c = (of_Z (hexByte r1 r2) / 255)%float /\
     g c = (of_Z (hexByte g1 g2) / 255)%float /\
     b c = (of_Z (hexByte b1 b2) / 255)%float /\
     0 <= hexByte r1 r2 <= 255 /\ 0 <= hexByte g1 g2 <= 255 /\
     0 <= hexByte b1 b2 <= 255 /\
     fle 0 (r c) /\ fle (r c) 1 /\ fle 0 (g c) /\ fle (g c) 1 /\
     fle 0 (b c) /\ fle (b c) 1).
Proof.
  split.
  - intros s H. unfold parseColor. rewrite H. reflexivity.
  - intros r1 r2 g1 g2 b1 b2 rest Hr1 Hr2 Hg1 Hg2 Hb1 Hb2 c.
    destruct (hexPair_ok r1 r2 Hr1 Hr2) as (Er & Rr & Lr & Ur).
    destruct (hexPair_ok g1 g2 Hg1 Hg2) as (Eg & Rg & Lg & Ug).
    destruct (hexPair_ok b1 b2 Hb1 Hb2) as (Eb & Rb & Lb & Ub).
    assert (r c = (of_Z (hexByte r1 r2) / 255)%float) as Hcr
      by (subst c; unfold parseColor, hexColor; simpl; rewrite <- Er; reflexivity).
    assert (g c = (of_Z (hexByte g1 g2) / 255)%float) as Hcg
      by (subst c; unfold parseColor, hexColor; simpl; rewrite <- Eg; reflexivity).
    assert (b c = (of_Z (hexByte b1 b2) / 255)%float) as Hcb
      by (subst c; unfold parseColor, hexColor; simpl; rewrite <- Eb; reflexivity).
    rewrite Hcr, Hcg, Hcb. repeat split; try assumption; lia.
Qed.

Lemma C7_parseColor_witness :
  parseColor "rgb(255, 0, 0)" = black /\
  r (parseColor "#ff8000") = (of_Z 255 / 255)%float /\
  fle (g (parseColor "#ff8000")) 1.
Proof.
  destruct C7_parseColor as [Hother Hhex]. split.
  - apply Hother. vm_compute. reflexivity.
  - destruct (Hhex "f" "f" "8" "0" "0" "0" EmptyString)%char as (Hr & _ & _ & _ & _ & _ & _ & _ & _ & Hg & _);
      try (vm_compute; reflexivity).
    split; [exact Hr | exact Hg].
Defined.

(** ** Text font size *)

Lemma float_neq (a b : float) : PrimFloat.Leibniz.eqb a b = false -> a <> b.
Proof.
  intros H E. apply FloatAxioms.Leibniz.eqb_spec in E. congruence.
Qed.

(** C5 as stated fails: a manual scale of 0 is replaced ([||]) by the
    object's [scaleX]/[scaleY] or by 1, so the size is not the clamped
    product of the stated factors; and a product that is [NaN] is not
    brought within the limits. *)
Lemma C5_zero_scale_is_replaced :
  textFontSize (textObject "a" (Some 30%float) (Some 0%float) (Some 0%float)) = 30%float /\
  specFontSize 30 0 0 = 6%float /\
  textFontSize (textObject "a" (Some 30%float) (Some 0%float) (Some 0%float))
    <> specFontSize 30 0 0 /\
  PrimFloat.is_nan
    (textFontSize (textObject "a" (Some PrimFloat.infinity) (Some 1%float) (Some (-1)%float)))
    = true.
Proof.
  split_and!; try (vm_compute; reflexivity).
  apply float_neq. vm_compute. reflexivity.
Qed.

Lemma orNum_truthy a v d : a = Some v -> truthy v = true -> orNum a d = v.
Proof. intros -> H. unfold orNum. rewrite H. reflexivity. Qed.

Lemma orElse_truthy a b v : a = Some v -> truthy v = true -> orElse a b = Some v.
Proof. intros -> H. unfold orElse. rewrite H. reflexivity. Qed.

Lemma lib_run lib_throws c p :
  lib lib_throws c p =
    if lib_throws c then (p, Throw (LibraryError "pdf-lib"))
    else match c with
         | Call_draw m =>
             ({| pageWidth := pageWidth p; pageHeight := pageHeight p;
                 marks := marks p ++ [m] |}, Ret tt)
         | _ => (p, Ret tt)
         end.
Proof. reflexivity. Qed.

(** C5 (amended): the rendered font size is the clamped product of
    [fontSize || 20] and the average of [manualScaleX || scaleX || 1] and
    [manualScaleY || scaleY || 1], hence of the stated factors when
    [fontSize] and the two manual scales are present and neither 0 nor
    [NaN]; it lies within [6, 72] whenever the product is a number; a size
    of 100 at manual scales 1 renders at 72 and a size of 1 at 6; and the
    text mark is drawn at that size. *)
Theorem C5_text_font_size (textData : Obj.t) :
  textFontSize textData
    = specFontSize (orNum (Obj.fontSize textData) 20)
        (orNum (orElse (Obj.manualScaleX textData) (Obj.scaleX textData)) 1)
        (orNum (orElse (Obj.manualScaleY textData) (Obj.scaleY textData)) 1) /\
  (forall f sx sy,
     Obj.fontSize textData = Some f -> truthy f = true ->
     Obj.manualScaleX textData = Some sx -> truthy sx = true ->
     Obj.manualScaleY textData = Some sy -> truthy sy = true ->
     textFontSize textData = specFontSize f sx sy) /\
  (number (textScaledSize textData) ->
     fle 6 (textFontSize textData) /\ fle (textFontSize textData) 72) /\
  (forall text, textFontSize (textObject text (Some 100%float) (Some 1%float) (Some 1%float))
                = 72%float) /\
  (forall text, textFontSize (textObject text (Some 1%float) (Some 1%float) (Some 1%float))
                = 6%float) /\
  (forall text, textFontSize (textObject text (Some 1%float) None None) = 6%float) /\
  (forall lib_throws w h p p',
     addTextToPage lib_throws textData w h p = (p', Ret tt) ->
     trim (orStr (Obj.text textData) "") <> "" ->
     exists x y c,
       marks p' = marks p ++
         [MText (orStr (Obj.text textData) "") x y (textFontSize textData) c]).
Proof.
  split_and!.
  - reflexivity.
  - intros f sx sy Hf Tf Hx Tx Hy Ty.
    unfold textFontSize, textScaledSize, specFontSize.
    rewrite (orElse_truthy _ _ _ Hx Tx), (orElse_truthy _ _ _ Hy Ty).
    rewrite (orNum_truthy _ _ _ Hf Tf).
    rewrite (orNum_truthy (Some sx) sx 1 eq_refl Tx).
    rewrite (orNum_truthy (Some sy) sy 1 eq_refl Ty).
    reflexivity.
  - intros Hn. apply clamp_bounds; [vm_compute; reflexivity | assumption].
  - intros text. vm_compute. reflexivity.
  - intros text. vm_compute. reflexivity.
  - intros text. vm_compute. reflexivity.
  - intros lib_throws w h p p' Hrun Htext.
    unfold addTextToPage, try_catch in Hrun.
    destruct (String.eqb_spec (trim (orStr (Obj.text textData) "")) "") as [E|_];
      [contradiction|].
    repeat (cbv beta iota zeta delta [bind rgb ret throw] in Hrun;
            rewrite ?lib_run in Hrun;
            match type of Hrun with
            | context [lib_throws ?c] => destruct (lib_throws c); [discriminate|]
            end).
    cbv beta iota zeta delta [bind rgb ret throw] in Hrun.
    injection Hrun as <-. simpl. eauto.
Qed.

Lemma C5_text_font_size_witness :
  textFontSize (textObject "Approved" (Some 24%float) (Some 2%float) (Some 1%float))
    = specFontSize 24 2 1 /\
  fle 6 (textFontSize (textObject "Approved" (Some 24%float) (Some 2%float) (Some 1%float))) /\
  fle (textFontSize (textObject "Approved" (Some 24%float) (Some 2%float) (Some 1%float))) 72.
Proof.
  destruct (C5_text_font_size
              (textObject "Approved" (Some 24%float) (Some 2%float) (Some 1%float)))
    as (_ & Hspec & Hbounds & _).
  split.
  - apply (Hspec 24 2 1)%float; reflexivity.
  - apply Hbounds. vm_compute. reflexivity.
Defined.

(** ** Path command parser *)

(** The sort puts keys that the comparator orders strictly in that order,
    however they were listed. *)
Lemma ascendingKeys_split ks1 x ks2 :
  ascendingKeys (ks1 ++ x :: ks2) = true ->
  ascendingKeys (ks1 ++ ks2) = true /\
  (forall y, In y ks1 -> keyBefore y x = true) /\
  (forall y, In y ks2 -> keyBefore y x = false).
Proof.
  induction ks1 as [|a ks1 IH]; cbn [app ascendingKeys]; intros H.
  - apply andb_true_iff in H as [Hx Hrest]. split_and!; [exact Hrest | intros y [] |].
    intros y Hy. rewrite forallb_forall in Hx. specialize (Hx y Hy).
    apply andb_true_iff in Hx as [_ Hx]. now apply negb_true_iff in Hx.
  - apply andb_true_iff in H as [Ha Hrest]. destruct (IH Hrest) as (H1 & H2 & H3).
    rewrite forallb_forall in Ha. split_and!.
    + apply andb_true_iff. split; [|exact H1]. apply forallb_forall.
      intros b Hb. apply Ha. apply in_app_iff in Hb as [Hb|Hb]; apply in_app_iff;
        [now left | right; now right].
    + intros y [<-|Hy]; [|now apply H2].
      assert (In x (ks1 ++ x :: ks2)) as Hx by (apply in_app_iff; right; now left).
      specialize (Ha x Hx). now apply andb_true_iff in Ha as [Ha _].
    + exact H3.
Qed.

Lemma insertSorted_ascending ks1 x ks2 :
  (forall y, In y ks1 -> keyBefore y x = true) ->
  (forall y, In y ks2 -> keyBefore y x = false) ->
  insertSorted keyBefore x (ks1 ++ ks2) = ks1 ++ x :: ks2.
Proof.
  intros H1 H2. induction ks1 as [|a ks1 IH]; cbn [app insertSorted].
  - destruct ks2 as [|b ks2]; [reflexivity|]. cbn [insertSorted].
    rewrite (H2 b (or_introl eq_refl)). reflexivity.
  - rewrite (H1 a (or_introl eq_refl)), IH; [reflexivity|].
    intros y Hy. apply H1. now right.
Qed.

Lemma sortStable_ascending l : forall ks,
  ascendingKeys ks = true -> l ≡ₚ ks -> sortStable keyBefore l = ks.
Proof.
  induction l as [|x l IH]; intros ks Hasc Hperm.
  - apply Permutation_nil in Hperm. now subst.
  - assert (In x ks) as Hin by (apply (Permutation_in _ Hperm); now left).
    apply in_split in Hin as (ks1 & ks2 & ->).
    apply Permutation_cons_app_inv in Hperm.
    destruct (ascendingKeys_split _ _ _ Hasc) as (Hasc' & H1 & H2).
    unfold sortStable in *. cbn [foldr]. rewrite (IH _ Hasc' Hperm).
    now apply insertSorted_ascending.
Qed.

(** C2: the SVG string, the array of tuples and the keyed object yield the
    same canonical stream; the keyed object yields it in whichever order its
    keys were inserted, and keys are ordered as integers (9 before 10); a
    keyed object with keys 2, 0, 1 inserted in that order is read as the
    array of its tuples in the order 0, 1, 2, whatever the tuples are.
    The order is that of the keys read as integers, and neither the order
    of insertion nor the order in which the object lists its keys: with the
    keys [01] and [00], or [0] and [-1], which the object lists as they are
    written here, the tuple of the smaller integer comes first; and with the
    keys [+10], [-1] and [+9] inserted in that order the tuples are read in
    the order -1, 9, 10, whatever the tuples are.  In general, whenever
    the keys of an object can be listed so that the comparator of the sort,
    [parseInt(a) - parseInt(b) < 0], puts each before all the later ones,
    the object is read as the array of its tuples in that order, in
    whichever order the keys were inserted. *)
Theorem C2_three_encodings_agree :
  parseSVGPath (JStr "M 0 0 L 10 10") = Ret canonical_M0_L10 /\
  parseSVGPath (JArr [tuple_M0; tuple_L10]) = Ret canonical_M0_L10 /\
  parseSVGPath (JObj [("1", tuple_L10); ("0", tuple_M0)]) = Ret canonical_M0_L10 /\
  parseSVGPath (JObj [("0", tuple_M0); ("1", tuple_L10)]) = Ret canonical_M0_L10 /\
  parseSVGPath (JObj [("10", tuple_L10); ("9", tuple_M0)]) = Ret canonical_M0_L10 /\
  (forall t0 t1 t2,
     parseSVGPath (JObj [("2", t2); ("0", t0); ("1", t1)])
       = parseSVGPath (JArr [t0; t1; t2])) /\
  Object_keys [("01", tuple_L10); ("00", tuple_M0)] = ["01"; "00"] /\
  parseSVGPath (JObj [("01", tuple_L10); ("00", tuple_M0)]) = Ret canonical_M0_L10 /\
  Object_keys [("0", tuple_L10); ("-1", tuple_M0)] = ["0"; "-1"] /\
  parseSVGPath (JObj [("0", tuple_L10); ("-1", tuple_M0)]) = Ret canonical_M0_L10 /\
  (forall t0 t1,
     parseSVGPath (JObj [("01", t1); ("00", t0)]) = parseSVGPath (JArr [t0; t1]) /\
     parseSVGPath (JObj [("0", t1); ("-1", t0)]) = parseSVGPath (JArr [t0; t1])) /\
  (forall t0 t1 t2,
     parseSVGPath (JObj [("+10", t2); ("-1", t0); ("+9", t1)])
       = parseSVGPath (JArr [t0; t1; t2])) /\
  (forall fields ks,
     ascendingKeys ks = true -> Object_keys fields ≡ₚ ks ->
     parseSVGPath (JObj fields) = parseSVGPath (JArr (map (getValue fields) ks))).
Proof.
  split_and!;
    try (match goal with |- forall _, _ => fail 1 | _ => vm_compute; reflexivity end);
    try (intros fields ks Hasc Hperm; unfold parseSVGPath, sortedKeys;
         cbn [toBoolean negb]; rewrite (sortStable_ascending _ ks Hasc Hperm);
         reflexivity).
  - intros t0 t1 t2. unfold parseSVGPath. cbn [toBoolean negb].
    replace (sortedKeys [("2", t2); ("0", t0); ("1", t1)]) with ["0"; "1"; "2"]
      by (vm_compute; reflexivity).
    reflexivity.
  - intros t0 t1. unfold parseSVGPath. cbn [toBoolean negb].
    replace (sortedKeys [("01", t1); ("00", t0)]) with ["00"; "01"]
      by (vm_compute; reflexivity).
    replace (sortedKeys [("0", t1); ("-1", t0)]) with ["-1"; "0"]
      by (vm_compute; reflexivity).
    split; reflexivity.
  - intros t0 t1 t2. unfold parseSVGPath. cbn [toBoolean negb].
    replace (sortedKeys [("+10", t2); ("-1", t0); ("+9", t1)]) with ["-1"; "+9"; "+10"]
      by (vm_compute; reflexivity).
    reflexivity.
Qed.

Lemma C2_three_encodings_agree_witness :
  parseSVGPath (JObj [("12", tuple_L10); ("-3", tuple_M0); ("+7", tuple_L10);
                      ("12", tuple_M0)])
    = parseSVGPath (JArr [tuple_M0; tuple_L10; tuple_M0]).
Proof.
  destruct C2_three_encodings_agree as (_ & _ & _ & _ & _ & _ & _ & _ & _ & _ & _ & _ & H).
  apply (H [("12", tuple_L10); ("-3", tuple_M0); ("+7", tuple_L10); ("12", tuple_M0)]
           ["-3"; "+7"; "12"]).
  - reflexivity.
  - change (["12"; "-3"; "+7"] ≡ₚ ["-3"; "+7"; "12"]).
    apply (Permutation_app_comm ["12"] ["-3"; "+7"]).
Defined.

(** C8: empty, null and unrecognised-type inputs yield the empty stream, and
    so does a string of white space only; none of them throws. *)
Theorem C8_empty_inputs_yield_empty_stream :
  parseSVGPath (JStr "") = Ret [] /\
  parseSVGPath JNull = Ret [] /\
  parseSVGPath (JObj []) = Ret [] /\
  parseSVGPath (JArr []) = Ret [] /\
  parseSVGPath JUndefined = Ret [] /\
  (forall flag, parseSVGPath (JBool flag) = Ret []) /\
  (forall x, parseSVGPath (JNum x) = Ret []) /\
  (forall s, trim s = "" -> parseSVGPath (JStr s) = Ret []).
Proof.
  split_and!; try reflexivity.
  - intros []; reflexivity.
  - intros x. unfold parseSVGPath. destruct (negb (toBoolean (JNum x))); reflexivity.
  - intros s Hs. unfold parseSVGPath.
    destruct (negb (toBoolean (JStr s))); [reflexivity|].
    rewrite Hs. reflexivity.
Qed.

Lemma C8_empty_inputs_witness : parseSVGPath (JStr "  ") = Ret [].
Proof.
  destruct C8_empty_inputs_yield_empty_stream as (_ & _ & _ & _ & _ & _ & _ & H).
  apply H. reflexivity.
Defined.

(** ** Curve flattener *)

Section FlattenerRefinement.

Import PathSpec.

Variable pow : float -> float -> float.
Variables sX sY objectLeft objectTop mnX mnY pageHeight : float.

Let fx := toPageX sX objectLeft mnX.
Let fy := toPageY sY objectTop mnY pageHeight.

Lemma stream_cons c cs : stream (c :: cs) = encode c ++ stream cs.
Proof. reflexivity. Qed.

Lemma drawable_false name :
  drawable name = false ->
  String.eqb name "M" = false /\ String.eqb name "L" = false /\
  String.eqb name "Q" = false /\ String.eqb name "C" = false /\
  String.eqb name "Z" = false.
Proof.
  unfold drawable. cbn [existsb]. intros H.
  repeat (apply orb_false_iff in H as [? H]). split_and!; assumption.
Qed.

Lemma drawCommand_unsupported name rest st :
  drawable name = false ->
  drawCommand pow sX sY objectLeft objectTop mnX mnY pageHeight name rest st
    = (st, 0%nat).
Proof.
  intros (HM & HL & HQ & HC & HZ)%drawable_false.
  unfold drawCommand. rewrite HM, HL, HQ, HC, HZ. reflexivity.
Qed.

Lemma drawLoop_stream cs : forall st,
  toPen (drawLoop pow sX sY objectLeft objectTop mnX mnY pageHeight 0 (stream cs) st)
  = fold_left (stroke pow) (map (mapCoordinates fx fy) cs) (toPen st).
Proof.
  induction cs as [|c cs IH]; intros st; [reflexivity|].
  rewrite stream_cons.
  destruct c; cbn [encode app map fold_left drawLoop mapCoordinates stroke];
    [unfold drawCommand; cbn [String.eqb Ascii.eqb Bool.eqb andb orb negb];
     rewrite IH; reflexivity .. | | ].
  - rewrite drawCommand_unsupported by assumption. apply IH.
  - apply IH.
Qed.

Lemma finish_flushed st : finish st = flushed (toPen st).
Proof. reflexivity. Qed.

End FlattenerRefinement.

Section FlattenerTheorems.

Import PathSpec.

Variable pow : float -> float -> float.

Lemma boundingBox_unsupported name rest bb :
  drawable name = false ->
  boundingBox 0 (Cmd name :: rest) bb = boundingBox 0 rest bb.
Proof.
  intros (HM & HL & HQ & HC & HZ)%drawable_false.
  cbn [boundingBox]. rewrite HM, HL, HQ, HC. reflexivity.
Qed.

Lemma boundingBox_stream cs : forall bb,
  minX (boundingBox 0 (stream cs) bb)
    = fold_left Math_min (map fst (concat (map coordinates cs))) (minX bb) /\
  minY (boundingBox 0 (stream cs) bb)
    = fold_left Math_min (map snd (concat (map coordinates cs))) (minY bb).
Proof.
  induction cs as [|c cs IH]; intros bb; [split; reflexivity|].
  rewrite stream_cons.
  destruct c; cbn [encode app map concat coordinates];
    try (rewrite boundingBox_unsupported by assumption);
    cbn [boundingBox];
    cbn [String.eqb Ascii.eqb Bool.eqb andb orb negb];
    destruct (IH bb) as [IHx IHy]; try (split; assumption);
    match goal with
    | |- context [boundingBox 0 (stream cs) ?bb'] =>
        destruct (IH bb') as [-> ->]
    end; split; reflexivity.
Qed.

(** The segments collected for the canonical stream of a command sequence
    are those of the specification's flattener. *)
Lemma flattener_refines
    (cs : list command) (pathData : Obj.t) (pageHeight : float) :
  pathSegmentsOf pow (stream cs) pathData pageHeight
    = flatten pow cs (orNum (Obj.scaleX pathData) 1) (orNum (Obj.scaleY pathData) 1)
        (orNum (Obj.left pathData) 0) (orNum (Obj.top pathData) 0) pageHeight.
Proof.
  unfold pathSegmentsOf, flatten, polylines.
  rewrite finish_flushed, drawLoop_stream.
  destruct (boundingBox_stream cs bounds0) as [-> ->].
  reflexivity.
Qed.

(** C1: for the canonical stream of any command sequence, the segments
    [drawSVGPathCommands] collects are those of the specification's
    flattener: the bounding-box minimum is taken over every end point and
    control point of the M, L, Q and C commands, and every coordinate of
    every command, control points included, goes through
    [x = objectLeft + (px - minX) * scaleX] and
    [y = pageHeight - (objectTop + (py - minY) * scaleY)] before any point
    is produced. *)
Theorem C1_flattener_maps_every_coordinate
    (cs : list command) (pathData : Obj.t) (pageHeight : float) :
  let scaleX := orNum (Obj.scaleX pathData) 1 in
  let scaleY := orNum (Obj.scaleY pathData) 1 in
  let objectLeft := orNum (Obj.left pathData) 0 in
  let objectTop := orNum (Obj.top pathData) 0 in
  pathSegmentsOf pow (stream cs) pathData pageHeight
    = flatten pow cs scaleX scaleY objectLeft objectTop pageHeight.
Proof.
  intros scaleX scaleY objectLeft objectTop. apply flattener_refines.
Qed.

Lemma samples_quadratic_length : length (samples sampleFuel 0.1) = 10%nat.
Proof. vm_compute. reflexivity. Qed.

Lemma samples_cubic_length : length (samples sampleFuel 0) = 11%nat.
Proof. vm_compute. reflexivity. Qed.

(** The loops over [t] stop by their own test: any fuel above the number of
    iterations gives the same values. *)
Lemma samples_fuel n :
  samples (11 + n) 0.1 = samples sampleFuel 0.1 /\
  samples (12 + n) 0 = samples sampleFuel 0.
Proof. split; vm_compute; reflexivity. Qed.

Lemma totalPoints_snoc segments segment :
  totalPoints (segments ++ [segment]) = (totalPoints segments + length segment)%nat.
Proof.
  unfold totalPoints. rewrite concat_app, length_app. simpl.
  rewrite app_nil_r. reflexivity.
Qed.

Lemma pointsAdded_map fx fy c : pointsAdded (mapCoordinates fx fy c) = pointsAdded c.
Proof. destruct c; reflexivity. Qed.

Lemma stroke_open_count pn c :
  polyline pn <> [] ->
  polyline (stroke pow pn c) <> [] /\
  totalPoints (flushed (stroke pow pn c))
    = (totalPoints (flushed pn) + pointsAdded c)%nat.
Proof.
  intros Hopen.
  destruct (polyline pn) as [|first rest] eqn:E; [congruence|].
  assert (totalPoints (flushed pn)
          = (totalPoints (finished pn) + S (length rest))%nat) as Hpn
    by (unfold flushed; rewrite E, totalPoints_snoc; reflexivity).
  rewrite Hpn.
  destruct c; unfold flushed at 1; cbn [stroke polyline finished pointsAdded];
    rewrite ?E; (split; [discriminate|]); cbn [app];
    rewrite ?totalPoints_snoc, ?Hpn;
    try change (first :: rest ++ ?l) with ((first :: rest) ++ l);
    rewrite ?length_app, ?length_map,
      ?samples_quadratic_length, ?samples_cubic_length;
    cbn [length]; lia.
Qed.

Lemma strokes_open_count cs : forall pn,
  polyline pn <> [] ->
  totalPoints (flushed (fold_left (stroke pow) cs pn))
    = (totalPoints (flushed pn) + sum_list (map pointsAdded cs))%nat.
Proof.
  induction cs as [|c cs IH]; intros pn Hopen; [simpl; lia|].
  destruct (stroke_open_count pn c Hopen) as [Hopen' Hcount].
  cbn [fold_left map sum_list]. rewrite (IH _ Hopen'), Hcount.
  unfold sum_list. simpl. lia.
Qed.

End FlattenerTheorems.

(** C3: the loop of a [Q] command takes 10 values of [t] and that of a [C]
    command 11 (in binary64 the steps of 0.1 accumulate to the values
    listed, the last one being the double just below 1), and the loops end
    by their own test, whatever fuel they are given beyond that; a [Q]
    command therefore adds exactly 10 points to the current segment and a
    [C] command exactly 11, whatever the state; a stream that starts with
    [M] collects one point for the [M] and, for every command after it, 1
    ([M], [L], [Z]), 10 ([Q]) or 11 ([C]) points, and none for a command
    that is not drawn; and the quadratic from (0,0) to (10,0) with control
    (5,10), identity transform and page height 0, gives one polyline of 11
    points. *)
Theorem C3_curve_sampling (pow : float -> float -> float) :
  samples sampleFuel 0.1 =
    [0.1; 0.2; 0.30000000000000004; 0.4; 0.5; 0.6; 0.7;
     0.7999999999999999; 0.8999999999999999; 0.9999999999999999]%float /\
  samples sampleFuel 0 =
    [0; 0.1; 0.2; 0.30000000000000004; 0.4; 0.5; 0.6; 0.7;
     0.7999999999999999; 0.8999999999999999; 0.9999999999999999]%float /\
  (forall n, samples (11 + n) 0.1 = samples sampleFuel 0.1 /\
             samples (12 + n) 0 = samples sampleFuel 0) /\
  (forall sX sY objectLeft objectTop mnX mnY pageHeight rest st,
     length (currentSegment
               (fst (drawCommand pow sX sY objectLeft objectTop mnX mnY pageHeight
                       "Q" rest st)))
       = (length (currentSegment st) + 10)%nat /\
     length (currentSegment
               (fst (drawCommand pow sX sY objectLeft objectTop mnX mnY pageHeight
                       "C" rest st)))
       = (length (currentSegment st) + 11)%nat) /\
  (forall x y cs pathData pageHeight,
     totalPoints
       (pathSegmentsOf pow (PathSpec.stream (PathSpec.MoveTo x y :: cs))
          pathData pageHeight)
       = (1 + sum_list (map PathSpec.pointsAdded cs))%nat) /\
  pathSegmentsOf pow
    [Cmd "M"; Num 0; Num 0; Cmd "Q"; Num 5; Num 10; Num 10; Num 0]
    (identityPath JUndefined) 0
  = [[pt 0 0;
      pt 1.0000000000000002 (-1.8000000000000003);
      pt 2.0000000000000004 (-3.2000000000000006);
      pt 3.0000000000000004 (-4.2000000000000002);
      pt 4 (-4.7999999999999998);
      pt 5 (-5);
      pt 6 (-4.7999999999999998);
      pt 7 (-4.2000000000000002);
      pt 7.9999999999999991 (-3.2000000000000006);
      pt 8.9999999999999982 (-1.8000000000000014);
      pt 10 (-2.2204460492503127e-15)]]%float.
Proof.
  split_and!.
  - vm_compute. reflexivity.
  - vm_compute. reflexivity.
  - apply samples_fuel.
  - intros sX sY objectLeft objectTop mnX mnY pageHeight rest st.
    unfold drawCommand. cbn [String.eqb Ascii.eqb Bool.eqb fst currentSegment].
    rewrite !length_app, !length_map, samples_quadratic_length, samples_cubic_length.
    split; reflexivity.
  - intros x y cs pathData pageHeight.
    rewrite flattener_refines.
    unfold PathSpec.flatten, PathSpec.polylines.
    cbn [map fold_left].
    rewrite strokes_open_count by discriminate.
    rewrite map_map.
    rewrite (map_ext _ PathSpec.pointsAdded) by (intros c; apply pointsAdded_map).
    reflexivity.
  - vm_compute. reflexivity.
Qed.

(** ** Page orchestrator *)

Section Orchestrator.

Variable lib_throws : libcall -> bool.
Variable Math_pow : float -> float -> float.

Lemma addMarks_nil p : addMarks p [] = p.
Proof. destruct p. unfold addMarks. simpl. rewrite app_nil_r. reflexivity. Qed.

Lemma addMarks_app p ms1 ms2 : addMarks (addMarks p ms1) ms2 = addMarks p (ms1 ++ ms2).
Proof. unfold addMarks. simpl. rewrite app_assoc. reflexivity. Qed.

Lemma appendOnly_ret {A} P (a : A) : appendOnly P (ret a).
Proof.
  exists [], (Ret a). split; [constructor|].
  intros p. rewrite addMarks_nil. reflexivity.
Qed.

Lemma appendOnly_throw {A} P e : appendOnly P (@throw page A e).
Proof.
  exists [], (Throw e). split; [constructor|].
  intros p. rewrite addMarks_nil. reflexivity.
Qed.

Lemma appendOnly_lib P c :
  (forall m, c = Call_draw m -> P m) -> appendOnly P (lib lib_throws c).
Proof.
  intros HP. unfold lib. destruct (lib_throws c).
  - exists [], (Throw (LibraryError "pdf-lib")). split; [constructor|].
    intros p. now rewrite addMarks_nil.
  - destruct c;
      try (exists [], (Ret tt); split; [constructor|];
           intros p; now rewrite addMarks_nil).
    exists [m], (Ret tt). split; [|reflexivity].
    constructor; [now apply HP | constructor].
Qed.

Lemma appendOnly_bind {A B} P (m : M page A) (k : A -> M page B) :
  appendOnly P m -> (forall a, appendOnly P (k a)) -> appendOnly P (bind m k).
Proof.
  intros (ms & res & HP & Hm) Hk. destruct res as [a|e].
  - destruct (Hk a) as (ms' & res' & HP' & Hk').
    exists (ms ++ ms'), res'. split; [now apply Forall_app|].
    intros p. unfold bind. rewrite Hm, Hk', addMarks_app. reflexivity.
  - exists ms, (Throw e). split; [exact HP|].
    intros p. unfold bind. rewrite Hm. reflexivity.
Qed.

Lemma appendOnly_try_catch {A} P (body : M page A) (handler : error -> M page A) :
  appendOnly P body -> (forall e, appendOnly P (handler e)) ->
  appendOnly P (try_catch body handler).
Proof.
  intros (ms & res & HP & Hm) Hh. destruct res as [a|e].
  - exists ms, (Ret a). split; [exact HP|].
    intros p. unfold try_catch. rewrite Hm. reflexivity.
  - destruct (Hh e) as (ms' & res' & HP' & Hh').
    exists (ms ++ ms'), res'. split; [now apply Forall_app|].
    intros p. unfold try_catch. rewrite Hm, Hh', addMarks_app. reflexivity.
Qed.

(** Takes a renderer apart along [bind], [try_catch], the tests it makes
    and its calls into the library. *)
Ltac append_only :=
  repeat first
    [ apply appendOnly_ret
    | apply appendOnly_throw
    | apply appendOnly_lib;
      let Hcall := fresh in
      intros ? Hcall;
      first [discriminate Hcall
            | injection Hcall as <-; first [exact I | reflexivity]]
    | apply appendOnly_bind; [|intros ?]
    | apply appendOnly_try_catch; [|intros ?]
    | assumption
    | progress cbv zeta
    | match goal with
      | |- appendOnly _ (if ?c then _ else _) => destruct c
      | |- appendOnly _ (match ?x with _ => _ end) => destruct x
      end ].

Lemma appendOnly_addTextToPage textData w h :
  appendOnly anyMark (addTextToPage lib_throws textData w h).
Proof. unfold addTextToPage, rgb. append_only. Qed.

Lemma appendOnly_renderPathBoundingBox pathData w h color strokeWidth :
  appendOnly anyMark (renderPathBoundingBox lib_throws pathData w h color strokeWidth).
Proof. unfold renderPathBoundingBox, rgb. append_only. Qed.

Lemma appendOnly_drawLines points : forall prev color strokeWidth,
  appendOnly anyMark (drawLines lib_throws prev points color strokeWidth).
Proof.
  induction points as [|p rest IH]; intros prev color strokeWidth;
    cbn [drawLines]; append_only. apply IH.
Qed.

Lemma appendOnly_drawPathSegment points color strokeWidth :
  appendOnly anyMark (drawPathSegment lib_throws points color strokeWidth).
Proof.
  unfold drawPathSegment. destruct points as [|first [|second rest]]; append_only.
  apply appendOnly_drawLines.
Qed.

Lemma appendOnly_drawSegments segments : forall color strokeWidth,
  appendOnly anyMark (drawSegments lib_throws segments color strokeWidth).
Proof.
  induction segments as [|segment rest IH]; intros color strokeWidth;
    cbn [drawSegments]; append_only;
    first [apply appendOnly_drawPathSegment | apply IH].
Qed.

Lemma appendOnly_addPathToPage pathData w h :
  appendOnly anyMark (addPathToPage lib_throws Math_pow pathData w h).
Proof.
  unfold addPathToPage, renderSVGPath, drawSVGPathCommands, rgb. append_only;
    first [apply appendOnly_drawSegments | apply appendOnly_renderPathBoundingBox].
Qed.

(** Whatever the library does, [addImageToPage] draws its image or its
    placeholder rectangle at the position and size it computed. *)
Lemma appendOnly_addImageToPage imageData w h :
  appendOnly
    (placedAt (imageAdjustedX imageData w) (imageAdjustedY imageData h)
       (imageActualWidth imageData) (imageActualHeight imageData))
    (addImageToPage lib_throws imageData w h).
Proof.
  unfold addImageToPage, renderSignatureImage, renderSignaturePlaceholder, rgb.
  append_only.
Qed.

Lemma appendOnly_weaken {A} (P Q : mark -> Prop) (m : M page A) :
  (forall x, P x -> Q x) -> appendOnly P m -> appendOnly Q m.
Proof.
  intros HPQ (ms & res & HP & Hm). exists ms, res. split; [|exact Hm].
  eapply Forall_impl; eassumption.
Qed.

Lemma appendOnly_renderAnnotation objData w h :
  appendOnly anyMark (renderAnnotation lib_throws Math_pow objData w h).
Proof.
  unfold renderAnnotation.
  destruct (Obj.type objData) as [ty|]; [|apply appendOnly_ret].
  destruct (String.eqb ty "i-text"); [apply appendOnly_addTextToPage|].
  destruct (String.eqb ty "path"); [apply appendOnly_addPathToPage|].
  destruct (String.eqb ty "image"); [|apply appendOnly_ret].
  eapply appendOnly_weaken; [|apply appendOnly_addImageToPage].
  intros x _. exact I.
Qed.

Lemma drawLines_run points :
  (forall c, lib_throws c = false) ->
  forall prev color strokeWidth p,
    drawLines lib_throws prev points color strokeWidth p
      = (addMarks p (linesFrom prev points strokeWidth color), Ret tt).
Proof.
  intros Hlib. induction points as [|q rest IH]; intros prev color strokeWidth p.
  - simpl. rewrite addMarks_nil. reflexivity.
  - cbn [drawLines linesFrom]. unfold bind, lib. rewrite Hlib, IH.
    unfold addMarks. cbn [pageWidth pageHeight marks].
    rewrite <- app_assoc. reflexivity.
Qed.

Lemma drawSegments_run segments :
  (forall c, lib_throws c = false) ->
  forall color strokeWidth p,
    drawSegments lib_throws segments color strokeWidth p
      = (addMarks p (concat (map (polylineMarks strokeWidth color) segments)), Ret tt).
Proof.
  intros Hlib. induction segments as [|segment rest IH]; intros color strokeWidth p.
  - simpl. rewrite addMarks_nil. reflexivity.
  - cbn [drawSegments map concat]. unfold bind.
    assert ((if (1 <? length segment)%nat
             then drawPathSegment lib_throws segment color strokeWidth
             else ret tt) p
            = (addMarks p (polylineMarks strokeWidth color segment), Ret tt)) as ->.
    { destruct segment as [|first [|second more]]; cbn [length Nat.ltb Nat.leb];
        try (unfold ret; rewrite addMarks_nil; reflexivity).
      unfold drawPathSegment, try_catch. rewrite (drawLines_run _ Hlib). reflexivity. }
    rewrite IH, addMarks_app. reflexivity.
Qed.

(** When the library accepts every call, a path is drawn as the strokes of
    the polylines of the specification's flattener. *)
Lemma drawSVGPathCommands_strokes cs pathData pageHeight color strokeWidth p :
  (forall c, lib_throws c = false) ->
  drawSVGPathCommands lib_throws Math_pow (PathSpec.stream cs) pathData pageHeight
    color strokeWidth p
  = (addMarks p
       (concat
          (map (polylineMarks strokeWidth {| r := r color; g := g color; b := b color |})
             (PathSpec.flatten Math_pow cs
                (orNum (Obj.scaleX pathData) 1) (orNum (Obj.scaleY pathData) 1)
                (orNum (Obj.left pathData) 0) (orNum (Obj.top pathData) 0)
                pageHeight))),
     Ret tt).
Proof.
  intros Hlib. unfold drawSVGPathCommands, rgb, bind, lib, ret.
  rewrite Hlib, flattener_refines. apply (drawSegments_run _ Hlib).
Qed.

Lemma renderAnnotation_run objData w h p :
  exists res,
    renderAnnotation lib_throws Math_pow objData w h p
      = (addMarks p (drawnBy lib_throws Math_pow objData w h), res).
Proof.
  destruct (appendOnly_renderAnnotation objData w h) as (ms & res & _ & H).
  exists res. unfold drawnBy. rewrite !H. reflexivity.
Qed.

Lemma addAnnotation_run objData w h p :
  addAnnotation lib_throws Math_pow objData w h p
    = (addMarks p (drawnBy lib_throws Math_pow objData w h), Ret tt).
Proof.
  unfold addAnnotation, try_catch.
  destruct (renderAnnotation_run objData w h p) as (res & ->).
  destruct res as [[]|e]; reflexivity.
Qed.

Lemma addAnnotations_run pageObjects w h : forall p,
  addAnnotations lib_throws Math_pow pageObjects w h p
    = (addMarks p (concat (map (fun objData => drawnBy lib_throws Math_pow objData w h) pageObjects)),
       Ret tt).
Proof.
  induction pageObjects as [|objData rest IH]; intros p.
  - simpl. rewrite addMarks_nil. reflexivity.
  - cbn [addAnnotations]. unfold bind. rewrite addAnnotation_run, IH, addMarks_app.
    reflexivity.
Qed.

(** C4: for every sequence of annotations the page-level call returns
    normally, and the page ends up with the marks of every annotation in
    order, each annotation contributing what its own renderer draws
    whether or not another one throws; with three annotations of which the
    second throws, the marks of the first and of the third are on the
    page. *)
Theorem C4_orchestrator_isolates_failures :
  (forall pageObjects p,
     addAnnotationsToPage lib_throws Math_pow pageObjects p
       = (addMarks p
            (concat (map (fun objData => drawnBy lib_throws Math_pow objData (pageWidth p) (pageHeight p))
                       pageObjects)),
          Ret tt)) /\
  (forall first second third p e p2,
     renderAnnotation lib_throws Math_pow second (pageWidth p) (pageHeight p)
       (addMarks p (drawnBy lib_throws Math_pow first (pageWidth p) (pageHeight p))) = (p2, Throw e) ->
     addAnnotationsToPage lib_throws Math_pow [first; second; third] p
       = (addMarks p
            (drawnBy lib_throws Math_pow first (pageWidth p) (pageHeight p) ++
             drawnBy lib_throws Math_pow second (pageWidth p) (pageHeight p) ++
             drawnBy lib_throws Math_pow third (pageWidth p) (pageHeight p)),
          Ret tt)).
Proof.
  split.
  - intros pageObjects p. unfold addAnnotationsToPage. apply addAnnotations_run.
  - intros first second third p e p2 _.
    unfold addAnnotationsToPage. rewrite addAnnotations_run. simpl.
    rewrite app_nil_r. reflexivity.
Qed.

End Orchestrator.

Lemma C4_orchestrator_witness :
  snd (renderAnnotation strictColours (fun v _ => v)
         (filledText "Second" "#zz0000" 10 40) 600 800
         (addMarks (blankPage 600 800)
            (drawnBy strictColours (fun v _ => v) (filledText "First" "#000000" 10 20)
               600 800)))
    = Throw (LibraryError "pdf-lib") /\
  addAnnotationsToPage strictColours (fun v _ => v)
    [filledText "First" "#000000" 10 20;
     filledText "Second" "#zz0000" 10 40;
     filledText "Third" "#ff0000" 10 60] (blankPage 600 800)
  = ({| pageWidth := 600; pageHeight := 800;
        marks := [MText "First" 10 (800 - 20 - 12 * 0.87) 12 black;
                  MText "Third" 10 (800 - 60 - 12 * 0.87) 12
                    {| r := 1; g := 0; b := 0 |}] |}, Ret tt).
Proof.
  split; [vm_compute; reflexivity|].
  destruct (C4_orchestrator_isolates_failures strictColours (fun v _ => v)) as [_ H].
  rewrite (H (filledText "First" "#000000" 10 20)
              (filledText "Second" "#zz0000" 10 40)
              (filledText "Third" "#ff0000" 10 60)
              (blankPage 600 800) (LibraryError "pdf-lib")
              (addMarks (blankPage 600 800)
                 (drawnBy strictColours (fun v _ => v)
                    (filledText "First" "#000000" 10 20) 600 800))).
  - vm_compute. reflexivity.
  - vm_compute. reflexivity.
Defined.

(** ** Image placement *)

(** C6 as stated fails: an image wider than the page is put at [x = 0] and
    its right edge lies beyond the page width; nothing rescales it. *)
Lemma C6_wide_image_overflows :
  imageActualWidth wideImage = 200%float /\
  imageAdjustedX wideImage 100 = 0%float /\
  (imageAdjustedX wideImage 100 + imageActualWidth wideImage <=? 100)%float = false.
Proof. repeat split; vm_compute; reflexivity. Qed.

Lemma truthy_number v : truthy v = true -> number v.
Proof.
  unfold truthy, number. destruct (PrimFloat.is_nan v); [discriminate|reflexivity].
Qed.

Lemma orNum_number a d : number d -> number (orNum a d).
Proof.
  intros Hd. unfold orNum. destruct a as [v|]; [|exact Hd].
  destruct (truthy v) eqn:E; [now apply truthy_number | exact Hd].
Qed.

Lemma zero_number : number 0%float.
Proof. reflexivity. Qed.

(** [Math.max(0, Math.min(v, room))] when there is room and when there is
    none. *)
Lemma clamp_fits v room :
  number v -> fle 0 room ->
  fle 0 (Math_max 0 (Math_min v room)) /\ fle (Math_max 0 (Math_min v room)) room.
Proof.
  intros Hv Hroom. destruct (fle_number _ _ Hroom) as [_ Hr].
  assert (number (Math_min v room) /\ fle (Math_min v room) room) as [Hm Hle].
  { destruct (Math_min_cases v room Hv Hr) as [[-> H]|[-> H]];
      [split; assumption | split; [assumption | now apply fle_refl]]. }
  destruct (Math_max_cases 0 (Math_min v room) zero_number Hm) as [[-> H]|[-> H]].
  - split; [now apply fle_refl | exact Hroom].
  - split; assumption.
Qed.

Lemma clamp_no_room v room :
  number v -> flt room 0 -> Math_max 0 (Math_min v room) = 0%float.
Proof.
  intros Hv Hroom. destruct (flt_number _ _ Hroom) as [Hr _].
  assert (number (Math_min v room) /\ flt (Math_min v room) 0) as [Hm Hlt].
  { destruct (Math_min_cases v room Hv Hr) as [[-> H]|[-> H]].
    - split; [assumption | now apply (fle_flt_trans v room 0%float)].
    - split; assumption. }
  destruct (Math_max_cases 0 (Math_min v room) zero_number Hm) as [[-> H]|[E H]].
  - reflexivity.
  - exfalso. pose proof (fle_flt_trans _ _ _ H Hlt) as Habs.
    vm_compute in Habs. discriminate.
Qed.

Lemma feq_refl a : number a -> feq a a.
Proof.
  intros H%number_SF. unfold feq. rewrite FloatAxioms.eqb_spec. unfold SFeqb.
  rewrite (SFcompare_refl _ H). reflexivity.
Qed.

Lemma fle_antisym a b : fle a b -> fle b a -> feq a b.
Proof.
  unfold fle, feq. rewrite !FloatAxioms.leb_spec, FloatAxioms.eqb_spec.
  unfold SFleb, SFeqb. rewrite (SFcompare_antisym (Prim2SF a) (Prim2SF b)).
  destruct (SFcompare _ _) as [[]|]; simpl; congruence.
Qed.

Lemma flt_irrefl a : ~ flt a a.
Proof. intros H. pose proof (flt_asym _ _ H) as H'. unfold flt in H. congruence. Qed.

Lemma fle_trans a b c : fle a b -> fle b c -> fle a c.
Proof.
  intros Hab Hbc. destruct (fle_number _ _ Hab) as [Ha _].
  destruct (fle_number _ _ Hbc) as [_ Hc].
  destruct (c <? a)%float eqn:E; [|now apply not_flt_fle].
  exfalso. apply (flt_irrefl a).
  apply (fle_flt_trans a b a Hab). now apply (fle_flt_trans b c a Hbc).
Qed.

(** [Math.max(0, Math.min(v, room))] when there is room: a value inside
    the room is kept, one below it becomes 0 and one above it becomes the
    room. *)
Lemma clamp_inside v room :
  fle 0 v -> fle v room -> feq (Math_max 0 (Math_min v room)) v.
Proof.
  intros H0 Hroom. destruct (fle_number _ _ Hroom) as [Hv Hr].
  destruct (Math_min_cases v room Hv Hr) as [[-> _]|[-> Hrv]].
  - destruct (Math_max_cases 0 v zero_number Hv) as [[-> H]|[-> _]].
    + now apply fle_antisym.
    + now apply feq_refl.
  - destruct (Math_max_cases 0 room zero_number Hr) as [[-> H]|[-> _]].
    + apply fle_antisym; [exact H0 | now apply (fle_trans v room 0%float)].
    + now apply fle_antisym.
Qed.

Lemma clamp_below v room :
  flt v 0 -> fle 0 room -> Math_max 0 (Math_min v room) = 0%float.
Proof.
  intros Hneg Hroom. destruct (flt_number _ _ Hneg) as [Hv _].
  destruct (fle_number _ _ Hroom) as [_ Hr].
  assert (flt (Math_min v room) 0) as Hlt.
  { destruct (Math_min_cases v room Hv Hr) as [[-> _]|[-> Hrv]];
      [exact Hneg | now apply (fle_flt_trans room v 0%float)]. }
  destruct (flt_number _ _ Hlt) as [Hm _].
  destruct (Math_max_cases 0 (Math_min v room) zero_number Hm) as [[-> _]|[_ H]].
  - reflexivity.
  - exfalso. apply (flt_irrefl 0%float). now apply (fle_flt_trans _ (Math_min v room)).
Qed.

Lemma clamp_above v room :
  flt room v -> fle 0 room -> feq (Math_max 0 (Math_min v room)) room.
Proof.
  intros Habove Hroom. destruct (flt_number _ _ Habove) as [Hr Hv].
  destruct (Math_min_cases v room Hv Hr) as [[_ H]|[-> _]].
  - exfalso. apply (flt_irrefl v). now apply (fle_flt_trans v room v).
  - destruct (Math_max_cases 0 room zero_number Hr) as [[-> H]|[-> _]].
    + now apply fle_antisym.
    + now apply feq_refl.
Qed.

(** C6 (amended): each axis is clamped on its own, to
    [Math.max(0, Math.min(x, pageWidth - actualWidth))] with [x] the
    [left] of the annotation (0 if it has none).  When the scaled image is
    no wider than the page, so that [pageWidth - actualWidth] is not
    negative, its final [x] is [x] itself if that lies between 0 and
    [pageWidth - actualWidth], 0 if [x] is negative, and
    [pageWidth - actualWidth] if [x] is larger; in each case it lies between
    0 and [pageWidth - actualWidth].  When the image is wider than the
    page, its final [x] is 0 and the image is not made to fit.  The same
    holds for [y], which starts from [pageHeight - top - actualHeight], and
    the page height, provided that value is a number.  The image, or the
    placeholder rectangle that stands for it, is drawn at that position with
    the scaled size. *)
Theorem C6_image_clamp (imageData : Obj.t) (pageWidth pageHeight : float) :
  let actualWidth := imageActualWidth imageData in
  let actualHeight := imageActualHeight imageData in
  let adjustedX := imageAdjustedX imageData pageWidth in
  let adjustedY := imageAdjustedY imageData pageHeight in
  let x := orNum (Obj.left imageData) 0 in
  let y := (pageHeight - orNum (Obj.top imageData) 0 - actualHeight)%float in
  (fle 0 (pageWidth - actualWidth) ->
     fle 0 adjustedX /\ fle adjustedX (pageWidth - actualWidth)) /\
  (flt (pageWidth - actualWidth) 0 -> adjustedX = 0%float) /\
  (number y -> fle 0 (pageHeight - actualHeight) ->
     fle 0 adjustedY /\ fle adjustedY (pageHeight - actualHeight)) /\
  (number y -> flt (pageHeight - actualHeight) 0 -> adjustedY = 0%float) /\
  (forall lib_throws,
     appendOnly (placedAt adjustedX adjustedY actualWidth actualHeight)
       (addImageToPage lib_throws imageData pageWidth pageHeight)) /\
  (fle 0 x -> fle x (pageWidth - actualWidth) -> feq adjustedX x) /\
  (flt x 0 -> fle 0 (pageWidth - actualWidth) -> adjustedX = 0%float) /\
  (flt (pageWidth - actualWidth) x -> fle 0 (pageWidth - actualWidth) ->
     feq adjustedX (pageWidth - actualWidth)) /\
  (fle 0 y -> fle y (pageHeight - actualHeight) -> feq adjustedY y) /\
  (flt y 0 -> fle 0 (pageHeight - actualHeight) -> adjustedY = 0%float) /\
  (flt (pageHeight - actualHeight) y -> fle 0 (pageHeight - actualHeight) ->
     feq adjustedY (pageHeight - actualHeight)).
Proof.
  intros actualWidth actualHeight adjustedX adjustedY x y.
  pose proof (orNum_number (Obj.left imageData) 0%float zero_number) as Hx.
  split_and!.
  - intros H. now apply clamp_fits.
  - intros H. now apply clamp_no_room.
  - intros Hy H. now apply clamp_fits.
  - intros Hy H. now apply clamp_no_room.
  - intros lib_throws. apply appendOnly_addImageToPage.
  - apply clamp_inside.
  - apply clamp_below.
  - apply clamp_above.
  - apply clamp_inside.
  - apply clamp_below.
  - apply clamp_above.
Qed.

Lemma C6_image_clamp_witness :
  fle (imageAdjustedX
         (imageObject (Some 120%float) (Some 60%float) None None
            (Some 550%float) (Some 20%float) None) 600)
      (600 - 120) /\
  imageAdjustedX wideImage 100 = 0%float /\
  feq (imageAdjustedX
         (imageObject (Some 120%float) (Some 60%float) None None
            (Some 100%float) (Some 20%float) None) 600)
      100 /\
  feq (imageAdjustedX
         (imageObject (Some 120%float) (Some 60%float) None None
            (Some 550%float) (Some 20%float) None) 600)
      (600 - 120) /\
  imageAdjustedX
    (imageObject (Some 120%float) (Some 60%float) None None
       (Some (-5)%float) (Some 20%float) None) 600 = 0%float.
Proof.
  split_and!.
  - destruct (C6_image_clamp
                (imageObject (Some 120%float) (Some 60%float) None None
                   (Some 550%float) (Some 20%float) None) 600 800) as (Hfit & _).
    destruct Hfit as [_ H]; [vm_compute; reflexivity | exact H].
  - destruct (C6_image_clamp wideImage 100 100) as (_ & Hwide & _).
    apply Hwide. vm_compute. reflexivity.
  - destruct (C6_image_clamp
                (imageObject (Some 120%float) (Some 60%float) None None
                   (Some 100%float) (Some 20%float) None) 600 800)
      as (_ & _ & _ & _ & _ & Hin & _).
    apply Hin; vm_compute; reflexivity.
  - destruct (C6_image_clamp
                (imageObject (Some 120%float) (Some 60%float) None None
                   (Some 550%float) (Some 20%float) None) 600 800)
      as (_ & _ & _ & _ & _ & _ & _ & Habove & _).
    apply Habove; vm_compute; reflexivity.
  - destruct (C6_image_clamp
                (imageObject (Some 120%float) (Some 60%float) None None
                   (Some (-5)%float) (Some 20%float) None) 600 800)
      as (_ & _ & _ & _ & _ & _ & Hbelow & _).
    apply Hbelow; vm_compute; reflexivity.
Defined.

(** ** Loading and saving the document *)

Section Service.

Variable lib_throws : libcall -> bool.
Variable Math_pow : float -> float -> float.
Variable tempDir : string.
Variable path_join : string -> string -> string.
Variable PDFDocument_load : bytes -> outcome (list page).
Variable PDFDocument_save : list page -> outcome bytes.

Let filledPath (fileId : string) := path_join tempDir (fileId +:+ "_filled.pdf").
Let originalPath (fileId : string) := path_join tempDir (fileId +:+ ".pdf").
Let load := loadPdf tempDir path_join.
Let save := savePdfWithChanges lib_throws Math_pow tempDir path_join
              PDFDocument_load PDFDocument_save.
Let flatten_ := flattenInto lib_throws Math_pow tempDir path_join
                  PDFDocument_load PDFDocument_save.

Lemma fs_readFile_state path fs : fst (fs_readFile path fs) = fs.
Proof. unfold fs_readFile. destruct (fs !! path) as [[]|]; reflexivity. Qed.

Lemma loadPdf_filled fileId fs content :
  fs !! filledPath fileId = Some (File content) ->
  load fileId fs = (fs, Ret content).
Proof.
  intros H. unfold load, filledPath in *.
  unfold loadPdf, bind, try_catch, fs_stat, fs_readFile, ret.
  rewrite H. cbv beta iota. rewrite H. reflexivity.
Qed.

Lemma loadPdf_no_filled fileId fs :
  fs !! filledPath fileId = None \/ fs !! filledPath fileId = Some Directory ->
  load fileId fs = fs_readFile (originalPath fileId) fs.
Proof.
  intros H. unfold load, filledPath, originalPath in *.
  unfold loadPdf, bind, try_catch, fs_stat, ret.
  destruct H as [-> | ->]; cbv beta iota;
    rewrite ?bool_decide_eq_true_2 by reflexivity; reflexivity.
Qed.

Lemma loadPdf_state fileId fs : fst (load fileId fs) = fs.
Proof.
  destruct (fs !! filledPath fileId) as [[content| |]|] eqn:E.
  - rewrite (loadPdf_filled _ _ _ E). reflexivity.
  - rewrite loadPdf_no_filled by (right; exact E). apply fs_readFile_state.
  - unfold load, filledPath in *.
    unfold loadPdf, bind, try_catch, fs_stat. rewrite E. reflexivity.
  - rewrite loadPdf_no_filled by (left; exact E). apply fs_readFile_state.
Qed.

Lemma pageIndex_lt count index i : pageIndex count index = Some i -> (i < count)%nat.
Proof.
  unfold pageIndex. intros H. apply find_some in H as [H _].
  apply in_seq in H. lia.
Qed.

Lemma addAnnotationsToPage_returns pageObjects p :
  snd (addAnnotationsToPage lib_throws Math_pow pageObjects p) = Ret tt.
Proof.
  unfold addAnnotationsToPage. rewrite addAnnotations_run. reflexivity.
Qed.

Lemma applyPages_returns allPages keys : forall pdfDoc,
  (forall pageNumStr pageObjects,
     In pageNumStr keys ->
     getProp allPages pageNumStr = Some (Some pageObjects) ->
     pageObjects <> [] ->
     is_Some (pageIndex (length pdfDoc) (parseInt pageNumStr None - 1)%float)) ->
  exists pdfDoc',
    applyPages lib_throws Math_pow allPages keys pdfDoc = (pdfDoc', Ret tt) /\
    length pdfDoc' = length pdfDoc.
Proof.
  induction keys as [|pageNumStr rest IH]; intros pdfDoc Hrange.
  - exists pdfDoc. split; reflexivity.
  - cbn [applyPages]. unfold bind.
    assert (forall pdfDoc1, length pdfDoc1 = length pdfDoc ->
            exists pdfDoc', applyPages lib_throws Math_pow allPages rest pdfDoc1
                            = (pdfDoc', Ret tt) /\ length pdfDoc' = length pdfDoc)
      as Hrest.
    { intros pdfDoc1 Hlen. destruct (IH pdfDoc1) as (pdfDoc' & Hrun & Hlen').
      - intros k objs Hin. rewrite Hlen. apply Hrange. now right.
      - exists pdfDoc'. split; [exact Hrun | congruence]. }
    destruct (getProp allPages pageNumStr) as [[pageObjects|]|] eqn:Eprop;
      cbn [default from_option id]; try (apply Hrest; reflexivity).
    destruct pageObjects as [|objData pageObjects]; [apply Hrest; reflexivity|].
    cbn [length Nat.eqb]. cbv beta iota.
    destruct (Hrange pageNumStr (objData :: pageObjects)) as [i Hi];
      [now left | exact Eprop | discriminate |].
    unfold getPage. rewrite Hi.
    destruct (lookup_lt_is_Some_2 pdfDoc i (pageIndex_lt _ _ _ Hi)) as [p Hp].
    rewrite Hp.
    pose proof (addAnnotationsToPage_returns (objData :: pageObjects) p) as Hret.
    destruct (addAnnotationsToPage _ _ _ p) as [p' res]. cbn [snd] in Hret. subst res.
    apply Hrest. apply length_insert.
Qed.

(** C9: a failure to read the document's bytes, or to load them as a
    document, ends the request with that error and leaves the files as they
    were, so no output file is written (indeed a request that throws, for
    whatever reason, leaves the files as they were); whereas, when the
    document loads, its pages are addressed within range and the library
    can write it, the request completes and writes the output whichever of
    the drawing calls throw. *)
Theorem C9_document_failure_is_fatal (fileId : string) (mods : modifications)
    (fs : fileSystem) :
  (forall e fs', load fileId fs = (fs', Throw e) ->
     save fileId mods fs = (fs, Throw e)) /\
  (forall content e,
     load fileId fs = (fs, Ret content) ->
     PDFDocument_load content = Throw e ->
     save fileId mods fs
       = (fs, Throw (Error ("Unable to process PDF: " +:+ message e)))) /\
  (forall content pdfDoc,
     load fileId fs = (fs, Ret content) ->
     PDFDocument_load content = Ret pdfDoc ->
     pagesInRange mods (length pdfDoc) ->
     (forall d, exists out, PDFDocument_save d = Ret out) ->
     (fs !! filledPath fileId = None \/
      exists old, fs !! filledPath fileId = Some (File old)) ->
     exists out,
       save fileId mods fs
         = (<[filledPath fileId := File out]> fs, Ret (fileId +:+ "_filled"))) /\
  (forall e fs', save fileId mods fs = (fs', Throw e) -> fs' = fs).
Proof.
  pose proof (loadPdf_state fileId fs) as Hstate.
  unfold save, load, filledPath in *. split_and!; [| | |].
  - intros e fs' Hload. pose proof (loadPdf_state fileId fs) as Hst.
    unfold load in Hst.
    unfold savePdfWithChanges, try_catch, bind, throw.
    rewrite Hload in *. cbn [fst] in Hst. subst fs'. reflexivity.
  - intros content e Hload Hdoc.
    unfold savePdfWithChanges, try_catch, bind, flattenInto.
    rewrite Hload. unfold bind. rewrite Hdoc. reflexivity.
  - intros content pdfDoc Hload Hdoc Hrange Hsave Hfree.
    destruct (applyPages_returns (default [] (pages mods))
                (Object_keys (default [] (pages mods))) pdfDoc Hrange)
      as (pdfDoc' & Hrun & _).
    destruct (Hsave pdfDoc') as [out Hout]. exists out.
    unfold savePdfWithChanges, try_catch, bind, flattenInto.
    rewrite Hload. unfold bind, ret. rewrite Hdoc, Hrun, Hout.
    unfold bind, fs_writeFile.
    destruct Hfree as [-> | [old ->]]; reflexivity.
  - intros e fs'. unfold savePdfWithChanges, try_catch, bind, throw.
    destruct (loadPdf tempDir path_join fileId fs) as [fs0 [content|e0]];
      cbn [fst] in Hstate; subst fs0; [|congruence].
    unfold flattenInto, bind, ret, throw.
    destruct (PDFDocument_load content) as [pdfDoc|e1]; [|congruence].
    destruct (applyPages _ _ _ _ pdfDoc) as [pdfDoc' [[]|e2]]; [|congruence].
    destruct (PDFDocument_save pdfDoc') as [out|e3]; [|congruence].
    unfold bind, fs_writeFile.
    destruct (fs !! path_join tempDir (fileId +:+ "_filled.pdf")) as [[]|];
      congruence.
Qed.

(** C10: [loadPdf] returns the bytes of the filled file when that file
    exists and reads the original when no filled entry exists; it returns
    other bytes than the filled file's only when no filled file exists; and
    after a call of [savePdfWithChanges] that returned, the filled file
    holds the bytes that call saved, [loadPdf] returns them, and a second
    call flattens into those bytes. *)
Theorem C10_loadPdf_prefers_filled (fileId : string) :
  (forall fs content,
     fs !! filledPath fileId = Some (File content) ->
     load fileId fs = (fs, Ret content)) /\
  (forall fs,
     fs !! filledPath fileId = None ->
     load fileId fs = fs_readFile (originalPath fileId) fs) /\
  (forall fs content filled,
     load fileId fs = (fs, Ret content) ->
     fs !! filledPath fileId = Some (File filled) -> content = filled) /\
  (forall fs fs1 mods name,
     save fileId mods fs = (fs1, Ret name) ->
     exists content pdfDoc pdfDoc' out,
       load fileId fs = (fs, Ret content) /\
       PDFDocument_load content = Ret pdfDoc /\
       applyPages lib_throws Math_pow (default [] (pages mods))
         (Object_keys (default [] (pages mods))) pdfDoc = (pdfDoc', Ret tt) /\
       PDFDocument_save pdfDoc' = Ret out /\
       fs1 = <[filledPath fileId := File out]> fs /\
       name = fileId +:+ "_filled" /\
       load fileId fs1 = (fs1, Ret out) /\
       forall mods2,
         save fileId mods2 fs1
           = try_catch (flatten_ fileId mods2 out) (fun error => throw error) fs1).
Proof.
  split_and!.
  - intros fs content H. now apply loadPdf_filled.
  - intros fs H. apply loadPdf_no_filled. now left.
  - intros fs content filled Hload H.
    rewrite (loadPdf_filled _ _ _ H) in Hload. congruence.
  - intros fs fs1 mods name Hsave.
    pose proof (loadPdf_state fileId fs) as Hst.
    pose proof (fun fs0 out => loadPdf_filled fileId fs0 out) as Hfilled.
    unfold save, load, flatten_, filledPath in *.
    unfold savePdfWithChanges, try_catch, bind in Hsave.
    destruct (loadPdf tempDir path_join fileId fs) as [fs0 [content|e]] eqn:Hload;
      cbn [fst] in Hst; subst fs0; [|discriminate].
    unfold flattenInto, bind, ret, throw in Hsave.
    destruct (PDFDocument_load content) as [pdfDoc|e] eqn:Hdoc; [|discriminate].
    destruct (applyPages _ _ _ _ pdfDoc) as [pdfDoc' [[]|e]] eqn:Hrun; [|discriminate].
    destruct (PDFDocument_save pdfDoc') as [out|e] eqn:Hout; [|discriminate].
    unfold bind, fs_writeFile in Hsave.
    assert (fs1 = <[path_join tempDir (fileId +:+ "_filled.pdf") := File out]> fs
            /\ name = fileId +:+ "_filled") as [-> ->].
    { destruct (fs !! path_join tempDir (fileId +:+ "_filled.pdf")) as [[]|];
        try discriminate; injection Hsave as <- <-; split; reflexivity. }
    exists content, pdfDoc, pdfDoc', out.
    assert (loadPdf tempDir path_join fileId
              (<[path_join tempDir (fileId +:+ "_filled.pdf") := File out]> fs)
            = (<[path_join tempDir (fileId +:+ "_filled.pdf") := File out]> fs, Ret out))
      as Hload1.
    { apply Hfilled. apply lookup_insert_eq. }
    split_and!; try reflexivity; try assumption.
    intros mods2. unfold savePdfWithChanges, try_catch at 1, bind at 1.
    rewrite Hload1. reflexivity.
Qed.

End Service.

(** ** The service run on concrete files *)

Lemma C9_document_failure_witness :
  demoService "doc" demoMods ∅ = (∅, Throw (FsError "ENOENT")) /\
  demoService "doc" demoMods demoBroken
    = (demoBroken, Throw (Error "Unable to process PDF: No PDF header found")) /\
  exists out,
    demoService "doc" demoMods demoFiles
      = (<["/srv/temp/doc_filled.pdf" := File out]> demoFiles, Ret "doc_filled").
Proof.
  split_and!.
  - destruct (C9_document_failure_is_fatal strictColours (fun v _ => v) "/srv/temp"
                demoJoin demoLoad demoSave "doc" demoMods ∅) as (H & _).
    apply (H (FsError "ENOENT") ∅). vm_compute. reflexivity.
  - destruct (C9_document_failure_is_fatal strictColours (fun v _ => v) "/srv/temp"
                demoJoin demoLoad demoSave "doc" demoMods demoBroken) as (_ & H & _).
    apply (H "not a pdf" (LibraryError "No PDF header found"));
      vm_compute; reflexivity.
  - destruct (C9_document_failure_is_fatal strictColours (fun v _ => v) "/srv/temp"
                demoJoin demoLoad demoSave "doc" demoMods demoFiles) as (_ & _ & H & _).
    apply (H "%PDF-1.7" [blankPage 600 800]).
    + vm_compute. reflexivity.
    + vm_compute. reflexivity.
    + intros pageNumStr pageObjects Hin _ _. vm_compute in Hin.
      destruct Hin as [<- | []]. vm_compute. eexists. reflexivity.
    + intros d. eexists. reflexivity.
    + left. vm_compute. reflexivity.
Defined.

Lemma C10_loadPdf_witness :
  exists out,
    loadPdf "/srv/temp" demoJoin "doc" (fst (demoService "doc" demoMods demoFiles))
      = (fst (demoService "doc" demoMods demoFiles), Ret out) /\
    demoService "doc" demoMods (fst (demoService "doc" demoMods demoFiles))
      = try_catch
          (flattenInto strictColours (fun v _ => v) "/srv/temp" demoJoin demoLoad
             demoSave "doc" demoMods out)
          (fun error => throw error)
          (fst (demoService "doc" demoMods demoFiles)).
Proof.
  destruct (C10_loadPdf_prefers_filled strictColours (fun v _ => v) "/srv/temp"
              demoJoin demoLoad demoSave "doc") as (_ & _ & _ & H).
  destruct (H demoFiles (fst (demoService "doc" demoMods demoFiles)) demoMods
              "doc_filled")
    as (content & pdfDoc & pdfDoc' & out & _ & _ & _ & _ & _ & _ & Hload & Hsecond).
  - vm_compute. reflexivity.
  - exists out. split; [exact Hload | apply Hsecond].
Defined.

(** ** Further built-ins on known values *)

Example Math_floor_values :
  Math_floor 2.5 = 2%float /\
  Math_floor (-2.5) = (-3)%float /\
  Math_floor 0.5 = 0%float /\
  Math_floor (-0.5) = (-1)%float /\
  Math_floor 7 = 7%float /\
  Math_floor (-0) = (-0)%float /\
  Math_floor 27.77777777777778 = 27%float /\
  Math_floor 1e300 = 1e300%float /\
  Math_floor PrimFloat.infinity = PrimFloat.infinity /\
  PrimFloat.is_nan (Math_floor PrimFloat.nan) = true.
Proof. split_and!; vm_compute; reflexivity. Qed.

Example endsWith_values :
  endsWith "doc.pdf" ".pdf" = true /\
  endsWith ".pdf" ".pdf" = true /\
  endsWith "pdf" ".pdf" = false /\
  endsWith "doc.pdf.txt" ".pdf" = false /\
  endsWith "doc.PDF" ".pdf" = false.
Proof. split_and!; vm_compute; reflexivity. Qed.

(** ** Path encodings *)

Lemma operandTokens_numbers (operands : list float) :
  operandTokens (map JNum operands) = Ret (map (fun x => Num (readBack x)) operands).
Proof.
  induction operands as [|x rest IH]; [reflexivity|].
  cbn [map operandTokens]. rewrite IH. reflexivity.
Qed.

Lemma tuplesTokens_tuples (tuples : list (string * list float)) : forall commands,
  tuplesTokens commands (map (fun t => fabricTuple (fst t) (snd t)) tuples)
    = Ret (commands ++ concat (map (fun t => tupleStream (fst t) (snd t)) tuples)).
Proof.
  induction tuples as [|[letter operands] rest IH]; intros commands.
  - cbn. rewrite app_nil_r. reflexivity.
  - cbn [map tuplesTokens fst snd fabricTuple tupleTokens concat].
    rewrite operandTokens_numbers, IH, <- app_assoc. reflexivity.
Qed.

(** X1: the array of tuples reads back as the stream of
    its tuples in order, each command letter in upper case (so a lower-case
    letter is taken for its upper-case command) followed by its operands,
    a negative zero read as [0]; this for any letters and any number of
    operands. *)
Theorem array_encoding_round_trip (tuples : list (string * list float)) :
  parseSVGPath (JArr (map (fun t => fabricTuple (fst t) (snd t)) tuples))
    = Ret (concat (map (fun t => tupleStream (fst t) (snd t)) tuples)).
Proof. unfold parseSVGPath. cbn [toBoolean negb]. apply tuplesTokens_tuples. Qed.

Lemma operandTokens_outcome (operands : list jsval) :
  if existsb toStringThrows operands
  then exists what, operandTokens operands = Throw (TypeError what)
  else exists ts, operandTokens operands = Ret ts.
Proof.
  induction operands as [|v rest IH]; [cbn; eauto|].
  cbn [existsb operandTokens]. unfold parseFloatV.
  destruct (toStringThrows v); cbn [orb]; [eauto|].
  destruct (existsb toStringThrows rest).
  - destruct IH as [what ->]. eauto.
  - destruct IH as [ts ->]. eauto.
Qed.

Lemma tupleTokens_outcome (v : jsval) :
  if malformedTuple v
  then exists what, tupleTokens v = Throw (TypeError what)
  else exists ts, tupleTokens v = Ret ts.
Proof.
  destruct v as [| | | | |[|[] operands]|]; cbn [malformedTuple tupleTokens]; eauto.
  pose proof (operandTokens_outcome operands) as H.
  destruct (existsb toStringThrows operands).
  - destruct H as [what ->]. eauto.
  - destruct H as [ts ->]. eauto.
Qed.

Lemma tuplesTokens_outcome (l : list jsval) : forall commands,
  if existsb malformedTuple l
  then exists what, tuplesTokens commands l = Throw (TypeError what)
  else exists stream, tuplesTokens commands l = Ret stream.
Proof.
  induction l as [|v rest IH]; intros commands; [cbn; eauto|].
  cbn [existsb tuplesTokens].
  pose proof (tupleTokens_outcome v) as H.
  destruct (malformedTuple v); cbn [orb].
  - destruct H as [what ->]. eauto.
  - destruct H as [ts ->]. apply IH.
Qed.

(** Sorting moves the keys about and neither adds nor drops one. *)
Lemma insertSorted_Permutation {A} (lt : A -> A -> bool) x l :
  insertSorted lt x l ≡ₚ x :: l.
Proof.
  induction l as [|y l IH]; [reflexivity|].
  cbn [insertSorted]. destruct (lt y x); [|reflexivity].
  rewrite IH. apply Permutation_swap.
Qed.

Lemma sortStable_Permutation {A} (lt : A -> A -> bool) l : sortStable lt l ≡ₚ l.
Proof.
  induction l as [|x l IH]; [reflexivity|].
  unfold sortStable in *. cbn [foldr]. rewrite insertSorted_Permutation.
  now constructor.
Qed.

Lemma existsb_Permutation {A} (f : A -> bool) l l' :
  l ≡ₚ l' -> existsb f l = existsb f l'.
Proof.
  induction 1 as [|x l l' _ IH|x y l|l1 l2 l3 _ IH1 _ IH2]; cbn [existsb].
  - reflexivity.
  - now rewrite IH.
  - destruct (f x), (f y); reflexivity.
  - now rewrite IH1.
Qed.

Lemma malformed_sortedKeys (fields : list (string * jsval)) :
  existsb malformedTuple (map (getValue fields) (sortedKeys fields))
    = existsb malformedTuple (map (getValue fields) (Object_keys fields)).
Proof.
  apply existsb_Permutation, Permutation_map, sortStable_Permutation.
Qed.

(** X2: parsing the array encoding throws exactly when one of its elements
    is a tuple that cannot be read: a non-empty array that does not begin
    with a string, or one of whose operands does not print (an object with
    a [toString] property of its own, or an array that holds one); the
    error is a [TypeError].  Elements that are not arrays, and empty
    arrays, are passed over.  The same holds of the keyed encoding and the
    values of its keys, in whatever order the keys are sorted. *)
Theorem array_encoding_throws_iff (l : list jsval) (fields : list (string * jsval)) :
  let values := map (getValue fields) (Object_keys fields) in
  (existsb malformedTuple l = true <->
   exists what, parseSVGPath (JArr l) = Throw (TypeError what)) /\
  (existsb malformedTuple l = false <->
   exists stream, parseSVGPath (JArr l) = Ret stream) /\
  (existsb malformedTuple values = true <->
   exists what, parseSVGPath (JObj fields) = Throw (TypeError what)) /\
  (existsb malformedTuple values = false <->
   exists stream, parseSVGPath (JObj fields) = Ret stream).
Proof.
  intros values. unfold parseSVGPath. cbn [toBoolean negb].
  pose proof (tuplesTokens_outcome l []) as H.
  pose proof (tuplesTokens_outcome (map (getValue fields) (sortedKeys fields)) []) as K.
  rewrite malformed_sortedKeys in K. fold values in K.
  split_and!.
  - destruct (existsb malformedTuple l); split; intros H'; try reflexivity;
      try assumption; try discriminate;
      destruct H as [x Hx]; destruct H' as [y Hy]; congruence.
  - destruct (existsb malformedTuple l); split; intros H'; try reflexivity;
      try assumption; try discriminate;
      destruct H as [x Hx]; destruct H' as [y Hy]; congruence.
  - destruct (existsb malformedTuple values); split; intros H'; try reflexivity;
      try assumption; try discriminate;
      destruct K as [x Kx]; destruct H' as [y Ky]; congruence.
  - destruct (existsb malformedTuple values); split; intros H'; try reflexivity;
      try assumption; try discriminate;
      destruct K as [x Kx]; destruct H' as [y Ky]; congruence.
Qed.

(** ** The string encoding *)

Lemma upperChars_checked : forallb upperCharStable allAscii = true.
Proof. vm_compute. reflexivity. Qed.

Lemma upperChar_idempotent c : upperChar (upperChar c) = upperChar c.
Proof.
  pose proof upperChars_checked as H. rewrite forallb_forall in H.
  specialize (H c (allAscii_complete c)). unfold upperCharStable, code in H.
  apply Z.eqb_eq, N2Z.inj in H.
  rewrite <- (ascii_N_embedding (upperChar (upperChar c))), H.
  apply ascii_N_embedding.
Qed.

Lemma toUpperCase_idempotent s : toUpperCase (toUpperCase s) = toUpperCase s.
Proof.
  induction s as [|c s IH]; [reflexivity|].
  cbn [toUpperCase]. rewrite upperChar_idempotent, IH. reflexivity.
Qed.

Lemma splitWhite_not_empty s : forall inRun piece, splitWhite inRun piece s <> [].
Proof.
  induction s as [|c s IH]; intros inRun piece; cbn [splitWhite]; [discriminate|].
  destruct (isWhite c); [destruct inRun; [apply IH | discriminate] | apply IH].
Qed.

Lemma svgTokenTokens_block tok : svgBlock (svgTokenTokens tok).
Proof.
  unfold svgTokenTokens.
  destruct (splitWhite false EmptyString (trim tok)) as [|command rest] eqn:Hsplit;
    [now apply splitWhite_not_empty in Hsplit|].
  cbv zeta.
  set (coords := filter (fun n => negb (PrimFloat.is_nan n)) (map parseFloat rest)).
  assert (Forall number coords) as Hnum.
  { apply Forall_forall. intros n Hn. apply list_elem_of_filter in Hn as [Hn _].
    unfold number. destruct (PrimFloat.is_nan n); [contradiction | reflexivity]. }
  clearbody coords.
  pose proof (toUpperCase_idempotent command) as Hup.
  assert (svgBlock [Cmd (toUpperCase command)]) as Hbare.
  { exists (toUpperCase command), []. split_and!; [reflexivity | exact Hup | constructor | now left]. }
  destruct (String.eqb_spec (toUpperCase command) "M") as [EM|_];
    [|destruct (String.eqb_spec (toUpperCase command) "L") as [EL|_]];
    cbn [orb];
    [| |destruct (String.eqb_spec (toUpperCase command) "Q") as [EQ|_];
        [|destruct (String.eqb_spec (toUpperCase command) "C") as [EC|_]]].
  - destruct coords as [|c0 [|c1 more]]; [exact Hbare..|].
    exists (toUpperCase command), [c0; c1].
    split_and!; [reflexivity | exact Hup | | right; left; auto].
    inversion Hnum as [|? ? H0 H1]; subst. inversion H1; subst. repeat constructor; assumption.
  - destruct coords as [|c0 [|c1 more]]; [exact Hbare..|].
    exists (toUpperCase command), [c0; c1].
    split_and!; [reflexivity | exact Hup | | right; left; auto].
    inversion Hnum as [|? ? H0 H1]; subst. inversion H1; subst. repeat constructor; assumption.
  - destruct coords as [|c0 [|c1 [|c2 [|c3 more]]]]; [exact Hbare..|].
    exists (toUpperCase command), [c0; c1; c2; c3].
    split_and!; [reflexivity | exact Hup | | right; right; left; auto].
    repeat match goal with
           | H : Forall _ (_ :: _) |- _ => inversion H; subst; clear H
           end.
    repeat constructor; assumption.
  - destruct coords as [|c0 [|c1 [|c2 [|c3 [|c4 [|c5 more]]]]]]; [exact Hbare..|].
    exists (toUpperCase command), [c0; c1; c2; c3; c4; c5].
    split_and!; [reflexivity | exact Hup | | right; right; right; auto].
    repeat match goal with
           | H : Forall _ (_ :: _) |- _ => inversion H; subst; clear H
           end.
    repeat constructor; assumption.
  - exact Hbare.
Qed.

(** X3: parsing a string never throws, and the stream it yields is made of
    blocks, each a command word in upper case followed by none of its
    operands or by all of them: two for [M] and [L], four for [Q], six for
    [C], none for any other word; and no operand is [NaN]. *)
Theorem string_encoding_is_well_formed (s : string) :
  exists blocks,
    parseSVGPath (JStr s) = Ret (concat blocks) /\ Forall svgBlock blocks.
Proof.
  unfold parseSVGPath. destruct (negb (toBoolean (JStr s))).
  - exists []. split; [reflexivity | constructor].
  - eexists. split; [reflexivity|].
    apply Forall_map, Forall_forall. intros tok _. apply svgTokenTokens_block.
Qed.

(** ** Polylines *)

Section PolylineProperties.

Import PathSpec.

Variable pow : float -> float -> float.

Lemma noEmptySegment_snoc segments segment :
  noEmptySegment segments -> segment <> [] -> noEmptySegment (segments ++ [segment]).
Proof. intros H Hs. apply Forall_app. split; [exact H|]. now constructor. Qed.

Lemma drawCommand_noEmptySegment sX sY objectLeft objectTop mnX mnY pageHeight cmd rest st :
  noEmptySegment (pathSegments st) ->
  noEmptySegment
    (pathSegments
       (fst (drawCommand pow sX sY objectLeft objectTop mnX mnY pageHeight cmd rest st))).
Proof.
  intros H. unfold drawCommand.
  repeat match goal with
         | |- context [String.eqb cmd ?s] => destruct (String.eqb cmd s)
         end; cbn [fst pathSegments]; try exact H.
  destruct (currentSegment st) as [|first more] eqn:E; [exact H|].
  apply noEmptySegment_snoc; [exact H | discriminate].
Qed.

Lemma drawLoop_noEmptySegment sX sY objectLeft objectTop mnX mnY pageHeight pathCommands :
  forall skip st,
    noEmptySegment (pathSegments st) ->
    noEmptySegment
      (pathSegments
         (drawLoop pow sX sY objectLeft objectTop mnX mnY pageHeight skip pathCommands st)).
Proof.
  induction pathCommands as [|tok rest IH]; intros skip st H; [exact H|].
  cbn [drawLoop]. destruct skip as [|k]; [|now apply IH].
  destruct tok as [cmd|x]; [|now apply IH].
  pose proof (drawCommand_noEmptySegment sX sY objectLeft objectTop mnX mnY pageHeight
                cmd rest st H) as H'.
  destruct (drawCommand _ _ _ _ _ _ _ _ cmd rest st) as [st' n]. now apply IH.
Qed.

Lemma lineCount_snoc segments segment :
  lineCount (segments ++ [segment]) = (lineCount segments + (length segment - 1))%nat.
Proof.
  unfold lineCount. induction segments as [|s segments IH]; cbn; [lia|].
  cbn in IH. rewrite IH. lia.
Qed.

Lemma strokes_segments fx fy cs : forall pn,
  polyline pn <> [] ->
  polyline (fold_left (stroke pow) (map (mapCoordinates fx fy) cs) pn) <> [] /\
  length (flushed (fold_left (stroke pow) (map (mapCoordinates fx fy) cs) pn))
    = (length (flushed pn) + length (List.filter isMoveTo cs))%nat /\
  lineCount (flushed (fold_left (stroke pow) (map (mapCoordinates fx fy) cs) pn))
    = (lineCount (flushed pn) + sum_list (map linesDrawn cs))%nat.
Proof.
  induction cs as [|c cs IH]; intros pn Hopen.
  - cbn. split_and!; [exact Hopen | lia | lia].
  - cbn [map fold_left].
    assert (polyline (stroke pow pn (mapCoordinates fx fy c)) <> [] /\
            length (flushed (stroke pow pn (mapCoordinates fx fy c)))
              = (length (flushed pn) + if isMoveTo c then 1 else 0)%nat /\
            lineCount (flushed (stroke pow pn (mapCoordinates fx fy c)))
              = (lineCount (flushed pn) + linesDrawn c)%nat) as (Hopen' & Hlen & Hlines).
    { destruct (polyline pn) as [|first rest] eqn:E; [congruence|].
      destruct c; cbn [mapCoordinates stroke isMoveTo linesDrawn];
        unfold flushed; cbn [polyline finished]; rewrite ?E; cbn [app];
        rewrite ?lineCount_snoc, ?length_app; cbn [length];
        rewrite ?length_app, ?length_map, ?samples_quadratic_length,
          ?samples_cubic_length; cbn [length];
        (split_and!; [discriminate | lia | lia]). }
    destruct (IH _ Hopen') as (Hopen'' & Hlen' & Hlines').
    split_and!; [exact Hopen'' | |].
    + rewrite Hlen', Hlen. cbn [List.filter]. destruct (isMoveTo c); cbn [length]; lia.
    + rewrite Hlines', Hlines. cbn [sum_list map]. unfold sum_list. cbn. lia.
Qed.

(** X4: whatever the stream, no polyline collected is empty;
    and for the canonical stream of a sequence that starts with [M], there
    are as many polylines as [M] commands. *)
Theorem one_polyline_per_move :
  (forall pathCommands pathData pageHeight,
     noEmptySegment (pathSegmentsOf pow pathCommands pathData pageHeight)) /\
  (forall x y cs pathData pageHeight,
     length (pathSegmentsOf pow (stream (MoveTo x y :: cs)) pathData pageHeight)
       = S (length (List.filter isMoveTo cs))).
Proof.
  split.
  - intros pathCommands pathData pageHeight. unfold pathSegmentsOf, finish.
    match goal with
    | |- context [drawLoop ?a ?b ?c ?d ?e ?f ?g ?h ?i ?j ?k] =>
        pose proof (drawLoop_noEmptySegment b c d e f g h pathCommands 0 drawState0
                      (Forall_nil_2 _)) as H;
        destruct (currentSegment (drawLoop a b c d e f g h i j k)) eqn:E
    end; [exact H|].
    apply noEmptySegment_snoc; [exact H | discriminate].
  - intros x y cs pathData pageHeight.
    rewrite flattener_refines. unfold flatten, polylines. cbn [map fold_left].
    match goal with
    | |- context [fold_left (stroke pow) (map (mapCoordinates ?fx ?fy) cs) ?pn] =>
        destruct (strokes_segments fx fy cs pn) as (_ & -> & _); [discriminate|]
    end.
    reflexivity.
Qed.

(** X5: in the canonical stream of a sequence that starts with
    [M] and ends with [Z], the last polyline ends at the point it starts
    from. *)
Theorem closePath_returns_to_start (x y : float) (cs : list command)
    (pathData : Obj.t) (pageHeight : float) :
  exists segments first rest,
    pathSegmentsOf pow (stream (MoveTo x y :: cs ++ [ClosePath])) pathData pageHeight
      = segments ++ [first :: rest] /\
    last rest = Some first.
Proof.
  rewrite flattener_refines. unfold flatten, polylines.
  change (MoveTo x y :: cs ++ [ClosePath]) with ((MoveTo x y :: cs) ++ [ClosePath]).
  rewrite map_app, fold_left_app. cbn [map fold_left mapCoordinates].
  match goal with
  | |- context [fold_left (stroke pow) (map (mapCoordinates ?fx ?fy) cs) ?pn] =>
      destruct (strokes_segments fx fy cs pn) as (Hopen & _); [discriminate|];
      set (pn' := fold_left (stroke pow) (map (mapCoordinates fx fy) cs) pn) in *
  end.
  destruct (polyline pn') as [|first rest] eqn:E; [congruence|].
  exists (finished pn'), first, (rest ++ [first]).
  unfold flushed. cbn [stroke polyline finished]. rewrite E. cbn [app].
  split; [reflexivity | apply last_snoc].
Qed.

End PolylineProperties.

Lemma polylineMarks_length thickness c segment :
  length (polylineMarks thickness c segment) = (length segment - 1)%nat.
Proof.
  assert (forall points prev, length (linesFrom prev points thickness c) = length points)
    as Hlines.
  { induction points as [|p points IH]; intros prev; cbn; [reflexivity | now rewrite IH]. }
  destruct segment as [|first [|second rest]]; try reflexivity.
  unfold polylineMarks. rewrite Hlines. cbn [length]. lia.
Qed.

Lemma polylineMarks_lines thickness c segment :
  Forall (fun m => exists start finish, m = MLine start finish thickness c)
    (polylineMarks thickness c segment).
Proof.
  destruct segment as [|first [|second rest]]; try constructor.
  - eauto.
  - generalize second. induction rest as [|p l IH]; intros prev; cbn; constructor; eauto.
Qed.

(** X6: when the library accepts every call, the canonical stream
    of a sequence that starts with [M] is drawn as straight strokes only,
    all of the given thickness and colour, and as many of them as the
    commands after the first call for: one for [L] and for [Z], 10 for [Q],
    11 for [C], none for [M]. *)
Theorem strokes_drawn_for_path (lib_throws : libcall -> bool)
    (pow : float -> float -> float) (x y : float) (cs : list PathSpec.command)
    (pathData : Obj.t) (pageHeight : float) (color : color) (strokeWidth : float)
    (p : page) :
  (forall c, lib_throws c = false) ->
  exists strokes,
    drawSVGPathCommands lib_throws pow (PathSpec.stream (PathSpec.MoveTo x y :: cs))
      pathData pageHeight color strokeWidth p
      = (addMarks p strokes, Ret tt) /\
    length strokes = sum_list (map linesDrawn cs) /\
    Forall (fun m => exists start finish,
              m = MLine start finish strokeWidth
                    {| r := r color; g := g color; b := b color |}) strokes.
Proof.
  intros Hlib. eexists. split_and!.
  - apply (drawSVGPathCommands_strokes lib_throws pow _ pathData pageHeight color
             strokeWidth p Hlib).
  - unfold PathSpec.flatten, PathSpec.polylines. cbn [map fold_left].
    match goal with
    | |- context [fold_left (PathSpec.stroke pow)
                    (map (PathSpec.mapCoordinates ?fx ?fy) cs) ?pn] =>
        destruct (strokes_segments pow fx fy cs pn) as (_ & _ & Hlines); [discriminate|];
        set (segments := PathSpec.flushed
                           (fold_left (PathSpec.stroke pow)
                              (map (PathSpec.mapCoordinates fx fy) cs) pn)) in *
    end.
    transitivity (lineCount segments); [|rewrite Hlines; reflexivity].
    unfold lineCount. clear. induction segments as [|segment rest IH]; [reflexivity|].
    cbn [map concat]. rewrite length_app, polylineMarks_length, IH. reflexivity.
  - apply Forall_concat, Forall_map, Forall_forall. intros segment _.
    apply polylineMarks_lines.
Qed.

(** ** Numbers that are not numbers *)

Lemma is_nan_SF x : PrimFloat.is_nan x = true <-> Prim2SF x = S754_nan.
Proof.
  split.
  - intros H. destruct (Prim2SF x) eqn:E; try reflexivity;
      assert (number x) as Hn by (apply number_SF; congruence);
      unfold number in Hn; congruence.
  - intros E. unfold PrimFloat.is_nan. rewrite FloatAxioms.eqb_spec, E. reflexivity.
Qed.

Lemma nan_sub_r a b : PrimFloat.is_nan b = true -> PrimFloat.is_nan (a - b) = true.
Proof.
  rewrite !is_nan_SF, sub_spec. intros ->. destruct (Prim2SF a); reflexivity.
Qed.

Lemma nan_sub_l a b : PrimFloat.is_nan a = true -> PrimFloat.is_nan (a - b) = true.
Proof. rewrite !is_nan_SF, sub_spec. intros ->. reflexivity. Qed.

Lemma nan_mul_l a b : PrimFloat.is_nan a = true -> PrimFloat.is_nan (a * b) = true.
Proof. rewrite !is_nan_SF, mul_spec. intros ->. reflexivity. Qed.

Lemma nan_mul_r a b : PrimFloat.is_nan b = true -> PrimFloat.is_nan (a * b) = true.
Proof.
  rewrite !is_nan_SF, mul_spec. intros ->. destruct (Prim2SF a); reflexivity.
Qed.

Lemma nan_add_l a b : PrimFloat.is_nan a = true -> PrimFloat.is_nan (a + b) = true.
Proof. rewrite !is_nan_SF, add_spec. intros ->. reflexivity. Qed.

Lemma nan_add_r a b : PrimFloat.is_nan b = true -> PrimFloat.is_nan (a + b) = true.
Proof.
  rewrite !is_nan_SF, add_spec. intros ->. destruct (Prim2SF a); reflexivity.
Qed.

Lemma Math_min_nan_l a b : PrimFloat.is_nan a = true -> PrimFloat.is_nan (Math_min a b) = true.
Proof. intros H. unfold Math_min. rewrite H. reflexivity. Qed.

Lemma Math_min_nan_r a b : PrimFloat.is_nan b = true -> PrimFloat.is_nan (Math_min a b) = true.
Proof. intros H. unfold Math_min. rewrite H, orb_true_r. reflexivity. Qed.

Lemma minimum_nan vs : forall init,
  PrimFloat.is_nan init = true \/ Exists (fun v => PrimFloat.is_nan v = true) vs ->
  PrimFloat.is_nan (fold_left Math_min vs init) = true.
Proof.
  induction vs as [|v vs IH]; intros init [H | H].
  - exact H.
  - inversion H.
  - cbn. apply IH. left. now apply Math_min_nan_l.
  - cbn. apply IH. inversion H; subst; [left; now apply Math_min_nan_r | now right].
Qed.

Section NaNProperties.

Import PathSpec.

Variable pow : float -> float -> float.

Lemma strokes_nanX fx fy cs : forall pn,
  (forall v, PrimFloat.is_nan (fx v) = true) ->
  Forall (Forall nanX) (finished pn) -> Forall nanX (polyline pn) ->
  Forall (Forall nanX) (flushed (fold_left (stroke pow) (map (mapCoordinates fx fy) cs) pn)).
Proof.
  intros pn Hfx. revert pn.
  assert (forall pn, Forall (Forall nanX) (finished pn) -> Forall nanX (polyline pn) ->
                     Forall (Forall nanX) (flushed pn)) as Hflush.
  { intros pn Hf Hp. unfold flushed. destruct (polyline pn); [exact Hf|].
    apply Forall_app. split; [exact Hf | now constructor]. }
  induction cs as [|c cs IH]; intros pn Hf Hp; [now apply Hflush|].
  cbn [map fold_left]. apply IH.
  - destruct c; cbn [mapCoordinates stroke finished]; try exact Hf. now apply Hflush.
  - destruct c; cbn [mapCoordinates stroke polyline]; try exact Hp.
    + repeat constructor. apply Hfx.
    + apply Forall_app. split; [exact Hp|]. repeat constructor. apply Hfx.
    + apply Forall_app. split; [exact Hp|]. apply Forall_map, Forall_forall.
      intros t _. unfold nanX, quadBlend. cbn [pt_x].
      apply nan_add_r, nan_mul_r, Hfx.
    + apply Forall_app. split; [exact Hp|]. apply Forall_map, Forall_forall.
      intros t _. unfold nanX, cubicBlend. cbn [pt_x].
      apply nan_add_r, nan_mul_r, Hfx.
    + destruct (polyline pn) as [|first rest] eqn:E; [constructor|].
      apply Forall_app. split; [exact Hp|]. inversion Hp; subst. now repeat constructor.
Qed.

Lemma strokes_nanY fx fy cs : forall pn,
  (forall v, PrimFloat.is_nan (fy v) = true) ->
  Forall (Forall nanY) (finished pn) -> Forall nanY (polyline pn) ->
  Forall (Forall nanY) (flushed (fold_left (stroke pow) (map (mapCoordinates fx fy) cs) pn)).
Proof.
  intros pn Hfy. revert pn.
  assert (forall pn, Forall (Forall nanY) (finished pn) -> Forall nanY (polyline pn) ->
                     Forall (Forall nanY) (flushed pn)) as Hflush.
  { intros pn Hf Hp. unfold flushed. destruct (polyline pn); [exact Hf|].
    apply Forall_app. split; [exact Hf | now constructor]. }
  induction cs as [|c cs IH]; intros pn Hf Hp; [now apply Hflush|].
  cbn [map fold_left]. apply IH.
  - destruct c; cbn [mapCoordinates stroke finished]; try exact Hf. now apply Hflush.
  - destruct c; cbn [mapCoordinates stroke polyline]; try exact Hp.
    + repeat constructor. apply Hfy.
    + apply Forall_app. split; [exact Hp|]. repeat constructor. apply Hfy.
    + apply Forall_app. split; [exact Hp|]. apply Forall_map, Forall_forall.
      intros t _. unfold nanY, quadBlend. cbn [pt_y].
      apply nan_add_r, nan_mul_r, Hfy.
    + apply Forall_app. split; [exact Hp|]. apply Forall_map, Forall_forall.
      intros t _. unfold nanY, cubicBlend. cbn [pt_y].
      apply nan_add_r, nan_mul_r, Hfy.
    + destruct (polyline pn) as [|first rest] eqn:E; [constructor|].
      apply Forall_app. split; [exact Hp|]. inversion Hp; subst. now repeat constructor.
Qed.

(** X7: if one horizontal operand of an
    [M], [L], [Q] or [C] command of a canonical stream is [NaN], every
    point of every polyline collected has a horizontal coordinate that is
    [NaN]; and likewise for the vertical operands and coordinates. *)
Theorem nan_operand_spoils_every_point (cs : list command) (pathData : Obj.t)
    (pageHeight : float) :
  (Exists (fun xy => PrimFloat.is_nan (fst xy) = true) (concat (map coordinates cs)) ->
   Forall (Forall nanX) (pathSegmentsOf pow (stream cs) pathData pageHeight)) /\
  (Exists (fun xy => PrimFloat.is_nan (snd xy) = true) (concat (map coordinates cs)) ->
   Forall (Forall nanY) (pathSegmentsOf pow (stream cs) pathData pageHeight)).
Proof.
  rewrite flattener_refines. unfold flatten, polylines. split; intros Hnan.
  - apply strokes_nanX; [|constructor|constructor].
    intros v. apply nan_add_r, nan_mul_l, nan_sub_r.
    unfold boxMinX, minimum. apply minimum_nan. right.
    apply Exists_fmap. exact Hnan.
  - apply strokes_nanY; [|constructor|constructor].
    intros v. apply nan_sub_r, nan_add_r, nan_mul_l, nan_sub_r.
    unfold boxMinY, minimum. apply minimum_nan. right.
    apply Exists_fmap. exact Hnan.
Qed.

End NaNProperties.

(** ** The anchor of a path *)

Lemma finite_sub_self x : finite x -> (x - x)%float = 0%float.
Proof.
  unfold finite. intros H. apply Prim2SF_inj. rewrite sub_spec.
  destruct (Prim2SF x) as [[]|[]| |s m e]; try contradiction; try reflexivity.
  unfold SF64sub, SFsub. rewrite Z.sub_diag. reflexivity.
Qed.

Lemma zero_mul_finite s :
  finite s -> PrimFloat.is_zero (0 * s) = true.
Proof.
  unfold finite, PrimFloat.is_zero. intros H.
  rewrite FloatAxioms.eqb_spec, mul_spec.
  change (Prim2SF 0) with (S754_zero false).
  change (Prim2SF PrimFloat.zero) with (S754_zero false).
  destruct (Prim2SF s) as [[]|[]| |[] m e]; try contradiction; reflexivity.
Qed.

Lemma add_zero_r a z :
  is_neg_zero a = false -> PrimFloat.is_zero z = true -> (a + z)%float = a.
Proof.
  unfold is_neg_zero, PrimFloat.is_zero, PrimFloat.get_sign. intros Ha Hz.
  apply Prim2SF_inj. rewrite add_spec.
  rewrite FloatAxioms.eqb_spec in Hz.
  change (Prim2SF PrimFloat.zero) with (S754_zero false) in Hz.
  destruct (Prim2SF z) as [sz|[]| |[] mz ez] eqn:Ez; try discriminate.
  destruct (Prim2SF a) as [sa|sa| |sa ma ea] eqn:Ea; try reflexivity.
  destruct sa, sz; try reflexivity.
  exfalso. assert (a = (-0)%float) as -> by (apply Prim2SF_inj; rewrite Ea; reflexivity).
  vm_compute in Ha. discriminate.
Qed.

Lemma orNum_not_neg_zero a : is_neg_zero (orNum a 0) = false.
Proof.
  unfold orNum. destruct a as [v|]; [|reflexivity].
  destruct (truthy v) eqn:T; [|reflexivity].
  unfold truthy in T. unfold is_neg_zero.
  destruct (PrimFloat.is_zero v); [|reflexivity].
  rewrite orb_true_r in T. discriminate.
Qed.

Lemma Math_min_choice a b :
  Math_min a b = fnan \/ Math_min a b = a \/ Math_min a b = b.
Proof.
  unfold Math_min.
  destruct (PrimFloat.is_nan a || PrimFloat.is_nan b); [now left|].
  destruct (is_neg_zero b && is_pos_zero a); [now right; right|].
  destruct (b <? a)%float; auto.
Qed.

Lemma minimum_choice vs : forall init,
  fold_left Math_min vs init = fnan \/ fold_left Math_min vs init = init \/
  In (fold_left Math_min vs init) vs.
Proof.
  induction vs as [|v vs IH]; intros init; [now right; left|].
  cbn [fold_left].
  destruct (IH (Math_min init v)) as [H | [H | H]]; [now left | | right; right; now right].
  destruct (Math_min_choice init v) as [E | [E | E]]; rewrite H, E; auto.
  right. right. now left.
Qed.

Lemma finite_minimum_attained vs :
  finite (PathSpec.minimum vs) -> In (PathSpec.minimum vs) vs.
Proof.
  unfold PathSpec.minimum. intros Hfin.
  destruct (minimum_choice vs PrimFloat.infinity) as [H | [H | H]]; [| |exact H];
    rewrite H in Hfin; vm_compute in Hfin; contradiction.
Qed.

(** X8: when the smallest horizontal operand of a canonical stream
    is finite, some end point or control point has it, and that coordinate
    is drawn at exactly [objectLeft], whatever the finite horizontal scale;
    likewise a point with the smallest vertical operand is drawn at exactly
    [pageHeight - objectTop]. *)
Theorem bounding_box_corner_is_anchor (cs : list PathSpec.command) (pathData : Obj.t)
    (pageHeight : float) :
  let scaleX := orNum (Obj.scaleX pathData) 1 in
  let scaleY := orNum (Obj.scaleY pathData) 1 in
  let objectLeft := orNum (Obj.left pathData) 0 in
  let objectTop := orNum (Obj.top pathData) 0 in
  let minX := PathSpec.boxMinX cs in
  let minY := PathSpec.boxMinY cs in
  (finite minX -> finite scaleX ->
   (exists xy, In xy (concat (map PathSpec.coordinates cs)) /\ fst xy = minX) /\
   toPageX scaleX objectLeft minX minX = objectLeft) /\
  (finite minY -> finite scaleY ->
   (exists xy, In xy (concat (map PathSpec.coordinates cs)) /\ snd xy = minY) /\
   toPageY scaleY objectTop minY pageHeight minY = (pageHeight - objectTop)%float).
Proof.
  intros scaleX scaleY objectLeft objectTop minX minY. split; intros Hmin Hscale.
  - split.
    + apply finite_minimum_attained in Hmin. apply in_map_iff in Hmin as (xy & E & Hin).
      exists xy. split; [exact Hin | exact E].
    + unfold toPageX. rewrite (finite_sub_self minX Hmin).
      apply add_zero_r; [apply orNum_not_neg_zero | now apply zero_mul_finite].
  - split.
    + apply finite_minimum_attained in Hmin. apply in_map_iff in Hmin as (xy & E & Hin).
      exists xy. split; [exact Hin | exact E].
    + unfold toPageY. rewrite (finite_sub_self minY Hmin).
      rewrite add_zero_r; [reflexivity | apply orNum_not_neg_zero |
                           now apply zero_mul_finite].
Qed.

(** ** Renderers: what is drawn when something is missing or fails *)

Section RendererProperties.

Variable lib_throws : libcall -> bool.
Variable Math_pow : float -> float -> float.

Lemma lib_accepts c p :
  lib_throws c = false ->
  lib lib_throws c p
    = (match c with Call_draw m => addMarks p [m] | _ => p end, Ret tt).
Proof. intros H. unfold lib. rewrite H. destruct c; reflexivity. Qed.

Lemma lib_rejects c p :
  lib_throws c = true -> lib lib_throws c p = (p, Throw (LibraryError "pdf-lib")).
Proof. intros H. unfold lib. rewrite H. reflexivity. Qed.

(** X9: [addPathToPage] never throws.  When the annotation has no
    path data, or its path cannot be parsed, what it does is what
    [renderPathBoundingBox] does: with a library that accepts every call
    and an annotation that has a position and a positive scaled size, one
    rectangle is outlined, at the position, of that size, and with a border
    at least 1 wide. *)
Theorem path_falls_back_to_bounding_box (pathData : Obj.t) (w h : float) (p : page) :
  let strokeColor := parseColor (orStr (Obj.stroke pathData) "#000000") in
  let strokeWidth := orNum (Obj.strokeWidth pathData) 2 in
  let actualWidth := (orNum (Obj.width pathData) 0 * orNum (Obj.scaleX pathData) 1)%float in
  let actualHeight := (orNum (Obj.height pathData) 0 * orNum (Obj.scaleY pathData) 1)%float in
  snd (addPathToPage lib_throws Math_pow pathData w h p) = Ret tt /\
  (hasPathData (Obj.path pathData) = false \/
   (exists e, parseSVGPath (Obj.path pathData) = Throw e) ->
   addPathToPage lib_throws Math_pow pathData w h p
     = (fst (renderPathBoundingBox lib_throws pathData w h strokeColor strokeWidth p), Ret tt)) /\
  (forall left_ top_,
     (forall c, lib_throws c = false) ->
     Obj.left pathData = Some left_ -> Obj.top pathData = Some top_ ->
     flt 0 actualWidth -> flt 0 actualHeight ->
     renderPathBoundingBox lib_throws pathData w h strokeColor strokeWidth p
       = (addMarks p [MRectangle left_ (h - top_ - actualHeight) actualWidth actualHeight
                        {| r := r strokeColor; g := g strokeColor; b := b strokeColor |}
                        (Math_max 1 strokeWidth) None],
          Ret tt)).
Proof.
  intros strokeColor strokeWidth actualWidth actualHeight. split_and!.
  - unfold addPathToPage, try_catch.
    match goal with |- snd (match ?m with _ => _ end) = _ => destruct m as [p' [[]|e]] end;
      reflexivity.
  - intros Hfall. unfold addPathToPage. fold strokeColor. fold strokeWidth.
    assert ((if hasPathData (Obj.path pathData)
             then renderSVGPath lib_throws Math_pow pathData w h strokeColor strokeWidth
             else renderPathBoundingBox lib_throws pathData w h strokeColor strokeWidth) p
            = renderPathBoundingBox lib_throws pathData w h strokeColor strokeWidth p) as Hbody.
    { destruct (hasPathData (Obj.path pathData)) eqn:Hhas; [|reflexivity].
      destruct Hfall as [? | [e He]]; [discriminate|].
      unfold renderSVGPath, try_catch. rewrite He. reflexivity. }
    unfold try_catch. cbv zeta. rewrite Hbody.
    destruct (renderPathBoundingBox lib_throws pathData w h strokeColor strokeWidth p)
      as [p' [[]|e]]; reflexivity.
  - intros left_ top_ Hlib Hleft Htop Hw Hh.
    unfold renderPathBoundingBox. rewrite Hleft, Htop.
    fold actualWidth. fold actualHeight. unfold flt in Hw, Hh. rewrite Hw, Hh.
    cbn [andb].
    repeat (cbv beta iota delta [bind rgb ret]; rewrite ?lib_accepts by apply Hlib).
    reflexivity.
Qed.

Lemma renderSignaturePlaceholder_draws x y width height p :
  (forall c, (forall m, c <> Call_embedPng m) -> (forall m, c <> Call_embedJpg m) ->
             lib_throws c = false) ->
  renderSignaturePlaceholder lib_throws x y width height p
    = (addMarks p (placeholderMarks x y width height), Ret tt).
Proof.
  intros Hlib.
  assert (forall c q, (forall m, c <> Call_embedPng m) -> (forall m, c <> Call_embedJpg m) ->
            lib lib_throws c q
              = (match c with Call_draw m => addMarks q [m] | _ => q end, Ret tt)) as Hacc.
  { intros c q H1 H2. apply lib_accepts. now apply Hlib. }
  unfold renderSignaturePlaceholder, placeholderMarks.
  repeat (cbv beta iota delta [bind rgb ret]; rewrite ?Hacc by discriminate).
  destruct (6 <? Math_min (Math_min 10 (height / 3)) (width / 8))%float.
  - repeat (cbv beta iota delta [bind rgb ret]; rewrite ?Hacc by discriminate).
    rewrite addMarks_app. reflexivity.
  - reflexivity.
Qed.

(** X10: [addImageToPage] never throws.  With a library that
    rejects the embedding of images and accepts its other calls, every
    image annotation is drawn as the placeholder, at the position and size
    computed for the image; and with a library that accepts every call, an
    annotation whose source is a data URL with a comma is drawn as one
    image, read as a JPEG when the URL says [jpeg] or [jpg] and as a PNG
    otherwise, while any other annotation is drawn as the placeholder. *)
Theorem image_falls_back_to_placeholder (imageData : Obj.t) (w h : float) (p : page) :
  let x := imageAdjustedX imageData w in
  let y := imageAdjustedY imageData h in
  let width := imageActualWidth imageData in
  let height := imageActualHeight imageData in
  let url := orStr (Obj.src imageData) "" in
  snd (addImageToPage lib_throws imageData w h p) = Ret tt /\
  ((forall c, lib_throws c = match c with
                             | Call_embedPng _ | Call_embedJpg _ => true
                             | _ => false
                             end) ->
   addImageToPage lib_throws imageData w h p
     = (addMarks p (placeholderMarks x y width height), Ret tt)) /\
  ((forall c, lib_throws c = false) ->
   forall data,
     startsWith url "data:image/" = true ->
     splitComma EmptyString url !! 1%nat = Some data ->
     addImageToPage lib_throws imageData w h p
       = (addMarks p
            [MImage (if startsWith url "data:image/png" then Png
                     else if startsWith url "data:image/jpeg"
                             || startsWith url "data:image/jpg" then Jpg
                     else Png) data x y width height],
          Ret tt)) /\
  ((forall c, lib_throws c = false) ->
   startsWith url "data:image/" = false \/ splitComma EmptyString url !! 1%nat = None ->
   addImageToPage lib_throws imageData w h p
     = (addMarks p (placeholderMarks x y width height), Ret tt)).
Proof.
  intros x y width height url.
  assert (default EmptyString (Obj.src imageData) = url \/
          (url = EmptyString /\ Obj.src imageData = Some EmptyString)) as Hurl.
  { unfold url, orStr. destruct (Obj.src imageData) as [s|]; [|now left].
    destruct (String.eqb_spec s ""); [subst; now right | now left]. }
  assert (default EmptyString (Obj.src imageData) = url) as Hsrc.
  { destruct Hurl as [E | [E1 E2]]; [exact E|]. rewrite E1, E2. reflexivity. }
  clear Hurl. split_and!.
  - unfold addImageToPage, try_catch.
    match goal with |- snd (match ?m with _ => _ end) = _ => destruct m as [p' [[]|e]] end;
      reflexivity.
  - intros Hlib.
    assert (forall x y width height q,
              renderSignaturePlaceholder lib_throws x y width height q
                = (addMarks q (placeholderMarks x y width height), Ret tt)) as Hph.
    { intros. apply renderSignaturePlaceholder_draws.
      intros c H1 H2. rewrite Hlib. destruct c; try reflexivity;
        [exfalso; now apply (H1 data) | exfalso; now apply (H2 data)]. }
    unfold addImageToPage, try_catch. cbv zeta. fold url x y width height.
    destruct (startsWith url "data:image/"); [|rewrite Hph; reflexivity].
    unfold renderSignatureImage, try_catch. rewrite Hsrc.
    destruct (splitComma EmptyString url !! 1%nat) as [data|];
      [|unfold throw; rewrite Hph; reflexivity].
    unfold bind.
    destruct (startsWith url "data:image/png");
      [|destruct (startsWith url "data:image/jpeg" || startsWith url "data:image/jpg")];
      cbv beta iota delta [bind]; rewrite lib_rejects by (rewrite Hlib; reflexivity);
      rewrite Hph; reflexivity.
  - intros Hlib data Hstart Hdata.
    unfold addImageToPage, try_catch. cbv zeta. fold url x y width height.
    rewrite Hstart. unfold renderSignatureImage, try_catch. rewrite Hsrc, Hdata.
    unfold bind.
    destruct (startsWith url "data:image/png");
      [|destruct (startsWith url "data:image/jpeg" || startsWith url "data:image/jpg")];
      repeat (cbv beta iota delta [bind ret]; rewrite ?lib_accepts by apply Hlib);
      reflexivity.
  - intros Hlib Hno.
    assert (forall x y width height q,
              renderSignaturePlaceholder lib_throws x y width height q
                = (addMarks q (placeholderMarks x y width height), Ret tt)) as Hph.
    { intros. apply renderSignaturePlaceholder_draws. intros c _ _. apply Hlib. }
    unfold addImageToPage, try_catch. cbv zeta. fold url x y width height.
    destruct (startsWith url "data:image/"); [|rewrite Hph; reflexivity].
    destruct Hno as [? | Hno]; [discriminate|].
    unfold renderSignatureImage, try_catch. rewrite Hsrc, Hno.
    unfold throw. rewrite Hph. reflexivity.
Qed.

(** X11: an annotation without a type, or of a type other
    than [i-text], [path] and [image], and a text annotation whose text is
    missing or blank, leave the page as it is and call nothing of the
    library: this holds even of a library that rejects every call. *)
Theorem nothing_is_drawn (objData : Obj.t) (w h : float) (p : page) :
  Obj.type objData = None \/
  (exists ty, Obj.type objData = Some ty /\
              ty <> "i-text" /\ ty <> "path" /\ ty <> "image") \/
  (Obj.type objData = Some "i-text" /\ trim (orStr (Obj.text objData) "") = "") ->
  renderAnnotation lib_throws Math_pow objData w h p = (p, Ret tt).
Proof.
  unfold renderAnnotation. intros [-> | [(ty & -> & H1 & H2 & H3) | [-> Hblank]]].
  - reflexivity.
  - apply String.eqb_neq in H1, H2, H3. rewrite H1, H2, H3. reflexivity.
  - cbn [String.eqb Ascii.eqb Bool.eqb]. unfold addTextToPage, try_catch.
    rewrite Hblank. reflexivity.
Qed.

(** X12: a text annotation is drawn whole or not at all: either the
    page gets exactly one text mark, at [left], on the baseline 0.87 of the
    font size below [top], in the fill colour, and the call returns; or the
    page is left as it was, the call returning when the text is blank and
    throwing the library's error otherwise. *)
Theorem text_is_drawn_whole_or_not_at_all (textData : Obj.t) (w h : float) (p : page) :
  let size := textFontSize textData in
  let fill := parseColor (orStr (Obj.fill textData) "#000000") in
  let m := MText (orStr (Obj.text textData) "") (orNum (Obj.left textData) 0)
             (h - orNum (Obj.top textData) 0 - size * 0.87)%float size
             {| r := r fill; g := g fill; b := b fill |} in
  (trim (orStr (Obj.text textData) "") <> "" /\
   addTextToPage lib_throws textData w h p = (addMarks p [m], Ret tt)) \/
  (trim (orStr (Obj.text textData) "") = "" /\
   addTextToPage lib_throws textData w h p = (p, Ret tt)) \/
  (trim (orStr (Obj.text textData) "") <> "" /\
   addTextToPage lib_throws textData w h p = (p, Throw (LibraryError "pdf-lib"))).
Proof.
  intros size fill m. unfold addTextToPage, try_catch. fold size. fold fill.
  destruct (String.eqb_spec (trim (orStr (Obj.text textData) "")) "") as [E|N].
  - right. left. split; [exact E | reflexivity].
  - cbv beta iota zeta delta [bind rgb ret throw]. rewrite lib_run.
    destruct (lib_throws Call_embedFont); [right; right; split; [exact N | reflexivity]|].
    cbv beta iota. rewrite lib_run.
    destruct (lib_throws (Call_rgb (r fill) (g fill) (b fill)));
      [right; right; split; [exact N | reflexivity]|].
    cbv beta iota. rewrite lib_run.
    match goal with
    | |- context [lib_throws (Call_draw ?d)] => destruct (lib_throws (Call_draw d))
    end; [right; right; split; [exact N | reflexivity]|].
    left. split; [exact N | reflexivity].
Qed.

Lemma drawLines_accepted points : forall prev color strokeWidth p,
  exists res,
    drawLines lib_throws prev points color strokeWidth p
      = (addMarks p (strokesAccepted lib_throws (linesFrom prev points strokeWidth color)),
         res).
Proof.
  induction points as [|q rest IH]; intros prev color strokeWidth p.
  - exists (Ret tt). cbn. now rewrite addMarks_nil.
  - cbn [drawLines linesFrom strokesAccepted]. unfold bind. rewrite lib_run.
    destruct (lib_throws (Call_draw (MLine prev q strokeWidth color))).
    + exists (Throw (LibraryError "pdf-lib")). now rewrite addMarks_nil.
    + destruct (IH q color strokeWidth
                  {| pageWidth := pageWidth p; pageHeight := pageHeight p;
                     marks := marks p ++ [MLine prev q strokeWidth color] |})
        as (res & ->).
      exists res. unfold addMarks. cbn [pageWidth pageHeight marks].
      rewrite <- app_assoc. reflexivity.
Qed.

Lemma strokesAccepted_prefix strokes :
  strokesAccepted lib_throws strokes `prefix_of` strokes.
Proof.
  induction strokes as [|m rest IH]; [reflexivity|].
  cbn [strokesAccepted]. destruct (lib_throws (Call_draw m));
    [apply prefix_nil | now apply prefix_cons].
Qed.

Lemma strokesAccepted_all strokes :
  Forall (fun m => lib_throws (Call_draw m) = false) strokes ->
  strokesAccepted lib_throws strokes = strokes.
Proof.
  induction 1 as [|m rest Hm _ IH]; [reflexivity|].
  cbn [strokesAccepted]. rewrite Hm, IH. reflexivity.
Qed.

(** X13: the polylines of a path are drawn one after the other and the
    loop always returns.  What is drawn is, for each polyline in turn, the
    strokes of that polyline that come before the first one the library
    rejects, and nothing else: a rejected stroke costs the rest of its own
    polyline and nothing of the others.  So the strokes drawn of a polyline
    are the first few of its strokes, and a polyline none of whose strokes
    is rejected is drawn whole, whatever happens to the others. *)
Theorem rejected_stroke_ends_its_polyline_only (segments : list (list point))
    (color : color) (strokeWidth : float) (p : page) :
  let drawn segment :=
    strokesAccepted lib_throws (polylineMarks strokeWidth color segment) in
  drawSegments lib_throws segments color strokeWidth p
    = (addMarks p (concat (map drawn segments)), Ret tt) /\
  Forall (fun segment =>
            drawn segment `prefix_of` polylineMarks strokeWidth color segment /\
            (Forall (fun m => lib_throws (Call_draw m) = false)
               (polylineMarks strokeWidth color segment) ->
             drawn segment = polylineMarks strokeWidth color segment))
    segments.
Proof.
  intros drawn. split.
  - revert p. induction segments as [|segment rest IH]; intros p.
    + cbn. now rewrite addMarks_nil.
    + cbn [drawSegments map concat]. unfold bind at 1.
      assert ((if (1 <? length segment)%nat
               then drawPathSegment lib_throws segment color strokeWidth
               else ret tt) p = (addMarks p (drawn segment), Ret tt)) as ->.
      { unfold drawn.
        destruct segment as [|first [|second more]]; cbn [length Nat.ltb Nat.leb];
          try (unfold ret; cbn; now rewrite addMarks_nil).
        unfold drawPathSegment, try_catch.
        destruct (drawLines_accepted (second :: more) first color strokeWidth p)
          as (res & ->).
        destruct res as [[]|e]; reflexivity. }
      rewrite IH, addMarks_app. reflexivity.
  - apply Forall_forall. intros segment _. split.
    + apply strokesAccepted_prefix.
    + apply strokesAccepted_all.
Qed.

(** ** Pages *)

Lemma pageExtends_refl p : pageExtends p p.
Proof. exists []. symmetry. apply addMarks_nil. Qed.

Lemma pageExtends_trans p1 p2 p3 :
  pageExtends p1 p2 -> pageExtends p2 p3 -> pageExtends p1 p3.
Proof.
  intros [ms1 ->] [ms2 ->]. exists (ms1 ++ ms2). apply addMarks_app.
Qed.

Lemma document_extends_refl (pdfDoc : list page) : Forall2 pageExtends pdfDoc pdfDoc.
Proof. induction pdfDoc; constructor; [apply pageExtends_refl | assumption]. Qed.

Lemma document_extends_trans (d1 d2 d3 : list page) :
  Forall2 pageExtends d1 d2 -> Forall2 pageExtends d2 d3 -> Forall2 pageExtends d1 d3.
Proof.
  intros H12. revert d3. induction H12; intros d3 H23; inversion H23; subst;
    constructor; [eapply pageExtends_trans; eassumption | now apply IHForall2].
Qed.

Lemma applyPages_extends (allPages : list (string * option (list Obj.t)))
    (keys : list string) (pdfDoc : list page) :
  Forall2 pageExtends pdfDoc
    (fst (applyPages lib_throws Math_pow allPages keys pdfDoc)).
Proof.
  revert pdfDoc. induction keys as [|pageNumStr rest IH]; intros pdfDoc.
  - apply document_extends_refl.
  - cbn [applyPages]. unfold bind at 1.
    assert (forall d, Forall2 pageExtends pdfDoc d ->
                      Forall2 pageExtends pdfDoc
                        (fst (applyPages lib_throws Math_pow allPages rest d))) as Hrest.
    { intros d Hd. eapply document_extends_trans; [exact Hd | apply IH]. }
    destruct (default None (getProp allPages pageNumStr)) as [pageObjects|];
      [|apply Hrest, document_extends_refl].
    destruct (length pageObjects =? 0)%nat; [apply Hrest, document_extends_refl|].
    unfold getPage.
    destruct (pageIndex (length pdfDoc) (parseInt pageNumStr None - 1)) as [i|];
      [|apply document_extends_refl].
    destruct (pdfDoc !! i) as [page_|] eqn:Hpage; [|apply document_extends_refl].
    unfold addAnnotationsToPage. rewrite addAnnotations_run.
    apply Hrest.
    rewrite <- (list_insert_id pdfDoc i page_ Hpage) at 1.
    apply Forall2_insert; [apply document_extends_refl | eexists; reflexivity].
Qed.

(** X14: whatever the request and whether or not it fails part way,
    applying it leaves the document with as many pages, and each page, at
    its place, with its size and with the marks it had, in their order,
    before any new ones. *)
Theorem applyPages_only_adds_marks (allPages : list (string * option (list Obj.t)))
    (keys : list string) (pdfDoc : list page) :
  let pdfDoc' := fst (applyPages lib_throws Math_pow allPages keys pdfDoc) in
  length pdfDoc' = length pdfDoc /\
  forall i page_,
    pdfDoc !! i = Some page_ ->
    exists added,
      pdfDoc' !! i
        = Some {| pageWidth := pageWidth page_; pageHeight := pageHeight page_;
                  marks := marks page_ ++ added |}.
Proof.
  intros pdfDoc'. pose proof (applyPages_extends allPages keys pdfDoc) as H.
  fold pdfDoc' in H. split.
  - symmetry. eapply Forall2_length, H.
  - intros i page_ Hi.
    destruct (Forall2_lookup_l _ _ _ _ _ H Hi) as (page' & Hi' & added & ->).
    exists added. exact Hi'.
Qed.

Lemma find_all_false {A} (f : A -> bool) (l : list A) :
  (forall x, f x = false) -> find f l = None.
Proof.
  intros H. induction l as [|x l IH]; [reflexivity|]. cbn. rewrite H. exact IH.
Qed.

Lemma pageIndex_nan count index :
  PrimFloat.is_nan index = true -> pageIndex count index = None.
Proof.
  intros Hnan. unfold pageIndex. apply find_all_false. intros i.
  rewrite FloatAxioms.eqb_spec. apply is_nan_SF in Hnan. rewrite Hnan.
  unfold SFeqb. destruct (Prim2SF (of_Z (Z.of_nat i))); reflexivity.
Qed.

Lemma applyPages_out_of_range allPages keys : forall pdfDoc pageNumStr objData pageObjects,
  In pageNumStr keys ->
  getProp allPages pageNumStr = Some (Some (objData :: pageObjects)) ->
  pageIndex (length pdfDoc) (parseInt pageNumStr None - 1) = None ->
  exists pdfDoc' e,
    applyPages lib_throws Math_pow allPages keys pdfDoc = (pdfDoc', Throw e).
Proof.
  induction keys as [|key rest IH]; intros pdfDoc pageNumStr objData pageObjects Hin Hprop Hout;
    [destruct Hin|].
  pose proof (applyPages_extends allPages [key] pdfDoc) as Hone.
  apply Forall2_length in Hone.
  cbn [applyPages] in *. unfold bind at 1. unfold bind at 1 in Hone.
  destruct Hin as [-> | Hin].
  - rewrite Hprop. cbn [default from_option id length Nat.eqb]. cbv beta iota.
    unfold getPage. rewrite Hout. eauto.
  - match goal with
    | |- context [match ?body pdfDoc with _ => _ end] =>
        destruct (body pdfDoc) as [pdfDoc1 [[]|e]] eqn:Hbody
    end; [|eauto].
    unfold ret in Hone. cbn [fst] in Hone.
    apply (IH pdfDoc1 pageNumStr objData pageObjects Hin Hprop).
    rewrite <- Hone. exact Hout.
Qed.

End RendererProperties.
(** ** Temporary files *)

Section TempFilesProperties.

Variable lib_throws : libcall -> bool.
Variable Math_pow : float -> float -> float.
Variable tempDir : string.
Variable path_join : string -> string -> string.
Variable PDFDocument_load : bytes -> outcome (list page).
Variable PDFDocument_save : list page -> outcome bytes.
Variable now : float.
Variable mtime : string -> float.
Variable env : string -> option string.
Variable readdir : fileSystem -> string -> outcome (list string).
Variable Buffer_from_base64 : string -> bytes.

Let filledPath (fileId : string) := path_join tempDir (fileId +:+ "_filled.pdf").
Let originalPath (fileId : string) := path_join tempDir (fileId +:+ ".pdf").
Let load := loadPdf tempDir path_join.
Let save := savePdfWithChanges lib_throws Math_pow tempDir path_join
              PDFDocument_load PDFDocument_save.
Let upload := savePdfFromBase64 tempDir path_join Buffer_from_base64.
Let check := checkFileExpiry tempDir path_join now mtime env.
Let delete_ := deleteTemporaryPdf tempDir path_join.
Let cleanup := cleanupOldTemporaryFiles tempDir path_join now mtime env readdir.
Let maxAge := orNumber (envInt env "URL_EXPIRY_HOURS") 168.

Lemma fs_lookup_insert (fs : fileSystem) path e : <[path := e]> fs !! path = Some e.
Proof. apply lookup_insert_eq. Qed.

Lemma fs_lookup_insert_ne (fs : fileSystem) path path' e :
  path <> path' -> <[path := e]> fs !! path' = fs !! path'.
Proof. apply lookup_insert_ne. Qed.

Lemma fs_lookup_delete (fs : fileSystem) path : delete path fs !! path = None.
Proof. apply lookup_delete_eq. Qed.

Lemma fs_lookup_delete_ne (fs : fileSystem) path path' :
  path <> path' -> delete path fs !! path' = fs !! path'.
Proof. apply lookup_delete_ne. Qed.

Lemma fs_delete_absent (fs : fileSystem) path : fs !! path = None -> delete path fs = fs.
Proof. apply delete_id. Qed.

Lemma append_assoc (a b c : string) : (a +:+ b) +:+ c = a +:+ (b +:+ c).
Proof.
  induction a as [|ch a IH]; [reflexivity|].
  change (String ch ((a +:+ b) +:+ c) = String ch (a +:+ (b +:+ c))).
  f_equal. exact IH.
Qed.

(** X15: an uploaded document is stored under the identifier drawn
    for it and is what [loadPdf] returns for that identifier, as long as no
    filled file exists under it; the call fails, and changes nothing, only
    when the file cannot be written. *)
Theorem upload_then_load (uuid base64Data : string) (fs : fileSystem) :
  (fs !! originalPath uuid = None \/
   (exists old, fs !! originalPath uuid = Some (File old)) ->
   fs !! filledPath uuid = None ->
   let fs' := <[originalPath uuid := File (Buffer_from_base64 base64Data)]> fs in
   upload uuid base64Data fs = (fs', Ret uuid) /\
   load uuid fs' = (fs', Ret (Buffer_from_base64 base64Data))) /\
  (forall e fs', upload uuid base64Data fs = (fs', Throw e) ->
     fs' = fs /\
     (fs !! originalPath uuid = Some Directory \/
      fs !! originalPath uuid = Some NoAccess)).
Proof.
  split.
  - intros Hfree Hfilled fs'.
    assert (upload uuid base64Data fs = (fs', Ret uuid)) as Hup.
    { unfold upload, savePdfFromBase64, bind, fs_writeFile, ret.
      fold (originalPath uuid).
      destruct Hfree as [-> | [old ->]]; reflexivity. }
    split; [exact Hup|].
    destruct (decide (filledPath uuid = originalPath uuid)) as [E|N].
    + apply loadPdf_filled. fold (filledPath uuid). rewrite E.
      subst fs'. apply fs_lookup_insert.
    + unfold load. rewrite loadPdf_no_filled.
      * unfold fs_readFile. fold (originalPath uuid). subst fs'.
        rewrite fs_lookup_insert. reflexivity.
      * left. fold (filledPath uuid). subst fs'.
        rewrite fs_lookup_insert_ne by congruence. exact Hfilled.
  - intros e fs'. unfold upload, savePdfFromBase64, bind, fs_writeFile, ret.
    fold (originalPath uuid).
    destruct (fs !! originalPath uuid) as [[]|]; intros H; inversion H; subst; auto.
Qed.

Lemma deleteTemporaryPdf_clearable fileId fs :
  clearable fs (originalPath fileId) ->
  delete_ fileId fs = (delete (originalPath fileId) fs, Ret tt).
Proof.
  unfold delete_, deleteTemporaryPdf, try_catch, fs_unlink, clearable.
  fold (originalPath fileId). intros [H | [content H]]; rewrite H.
  - cbv beta iota. rewrite bool_decide_eq_true_2 by reflexivity.
    rewrite fs_delete_absent by exact H. reflexivity.
  - reflexivity.
Qed.

Lemma checkFileExpiry_missing fileId fs :
  fs !! originalPath fileId = None ->
  check fileId fs
    = (fs, Ret {| fileExists := false; expired := true; ageHours := 0;
                  maxAgeHours := maxAge |}).
Proof.
  intros H. unfold check, checkFileExpiry, try_catch, bind, fs_stat.
  fold (originalPath fileId). rewrite H. reflexivity.
Qed.

(** X16: [checkFileExpiry] never changes the files.  A missing file
    is not an error: it is reported as absent and expired, with age 0.  An
    error of [fs.stat] other than [ENOENT] is thrown again.  A path that
    exists is reported as expired exactly when its age exceeds the limit,
    and the limit is 168 hours whenever [URL_EXPIRY_HOURS] is not set or
    does not read as a number other than zero. *)
Theorem checkFileExpiry_cases (fileId : string) (fs : fileSystem) :
  fst (check fileId fs) = fs /\
  (fs !! originalPath fileId = None ->
     check fileId fs
       = (fs, Ret {| fileExists := false; expired := true; ageHours := 0;
                     maxAgeHours := maxAge |})) /\
  (fs !! originalPath fileId = Some NoAccess ->
     check fileId fs = (fs, Throw (FsError "EACCES"))) /\
  (forall status, check fileId fs = (fs, Ret status) ->
     fileExists status = true ->
     expired status
       = (maxAge * 60 * 60 * 1000 <? now - mtime (originalPath fileId))%float /\
     maxAgeHours status = maxAge) /\
  (truthy (envInt env "URL_EXPIRY_HOURS") = false -> maxAge = 168%float) /\
  (env "URL_EXPIRY_HOURS" = None \/ env "URL_EXPIRY_HOURS" = Some "0" \/
   env "URL_EXPIRY_HOURS" = Some "" \/ env "URL_EXPIRY_HOURS" = Some "one week" ->
   maxAge = 168%float).
Proof.
  unfold check, checkFileExpiry, try_catch, bind, fs_stat, ret, throw.
  fold (originalPath fileId). fold maxAge.
  split_and!.
  - destruct (fs !! originalPath fileId) as [[]|]; reflexivity.
  - intros ->. reflexivity.
  - intros ->. reflexivity.
  - intros status.
    destruct (fs !! originalPath fileId) as [[]|]; cbv beta iota;
      rewrite ?bool_decide_eq_true_2 by reflexivity;
      intros H; inversion H; subst; cbn; intros; try discriminate;
      split; reflexivity.
  - intros H. unfold maxAge, orNumber. rewrite H. reflexivity.
  - unfold maxAge, orNumber, envInt.
    intros [-> | [-> | [-> | ->]]]; vm_compute; reflexivity.
Qed.

(** X17: [deleteTemporaryPdf] returns when the file is there, which
    it then removes, and when there is none; it throws, and changes
    nothing, otherwise.  When it returns, the path has no entry and every
    other path has the entry it had; and a second call changes nothing
    more. *)
Theorem deleteTemporaryPdf_cases (fileId : string) (fs : fileSystem) :
  (clearable fs (originalPath fileId) ->
   delete_ fileId fs = (delete (originalPath fileId) fs, Ret tt)) /\
  (forall fs', delete_ fileId fs = (fs', Ret tt) ->
     fs' !! originalPath fileId = None /\
     (forall path, path <> originalPath fileId -> fs' !! path = fs !! path) /\
     delete_ fileId fs' = (fs', Ret tt)) /\
  (forall fs' e, delete_ fileId fs = (fs', Throw e) ->
     fs' = fs /\
     (fs !! originalPath fileId = Some Directory \/
      fs !! originalPath fileId = Some NoAccess)).
Proof.
  split_and!.
  - apply deleteTemporaryPdf_clearable.
  - intros fs' Hrun.
    destruct (fs !! originalPath fileId) as [[content| |]|] eqn:E.
    + rewrite deleteTemporaryPdf_clearable in Hrun by (right; eauto).
      inversion Hrun; subst. split_and!.
      * apply fs_lookup_delete.
      * intros path Hne. apply fs_lookup_delete_ne. congruence.
      * rewrite deleteTemporaryPdf_clearable by (left; apply fs_lookup_delete).
        rewrite fs_delete_absent by apply fs_lookup_delete. reflexivity.
    + unfold delete_, deleteTemporaryPdf, try_catch, fs_unlink in Hrun.
      fold (originalPath fileId) in Hrun. rewrite E in Hrun. discriminate.
    + unfold delete_, deleteTemporaryPdf, try_catch, fs_unlink in Hrun.
      fold (originalPath fileId) in Hrun. rewrite E in Hrun. discriminate.
    + rewrite deleteTemporaryPdf_clearable in Hrun by (now left).
      rewrite fs_delete_absent in Hrun by exact E. inversion Hrun; subst.
      split_and!; [exact E | reflexivity |].
      rewrite deleteTemporaryPdf_clearable by (now left).
      rewrite fs_delete_absent by exact E. reflexivity.
  - intros fs' e. unfold delete_, deleteTemporaryPdf, try_catch, fs_unlink.
    fold (originalPath fileId).
    destruct (fs !! originalPath fileId) as [[]|]; cbv beta iota;
      rewrite ?bool_decide_eq_true_2 by reflexivity;
      intros H; inversion H; subst; auto.
Qed.

Lemma savePdfWithChanges_returns fileId mods fs fs1 name :
  save fileId mods fs = (fs1, Ret name) ->
  exists out,
    fs1 = <[filledPath fileId := File out]> fs /\
    name = fileId +:+ "_filled" /\
    clearable fs (filledPath fileId).
Proof.
  unfold save, savePdfWithChanges, try_catch, bind. intros Hsave.
  destruct (loadPdf tempDir path_join fileId fs) as [fs0 [content|e]] eqn:Hload;
    [|discriminate].
  assert (fs0 = fs) as ->.
  { pose proof (loadPdf_state tempDir path_join fileId fs) as Hst.
    rewrite Hload in Hst. exact Hst. }
  unfold flattenInto, bind, ret, throw in Hsave.
  destruct (PDFDocument_load content) as [pdfDoc|e]; [|discriminate].
  destruct (applyPages _ _ _ _ pdfDoc) as [pdfDoc' [[]|e]]; [|discriminate].
  destruct (PDFDocument_save pdfDoc') as [out|e]; [|discriminate].
  unfold bind, fs_writeFile in Hsave. fold (filledPath fileId) in Hsave.
  exists out. unfold clearable.
  destruct (fs !! filledPath fileId) as [[old| |]|] eqn:E;
    inversion Hsave; subst; split_and!; eauto.
Qed.

(** X18: a request that names, with annotations, a page the
    document does not have is fatal: [savePdfWithChanges] throws and writes
    nothing, although [validateAnnotations] lets the request through; and a
    page key that does not read as a number names no page of any
    document. *)
Theorem page_out_of_range_is_fatal :
  (forall fileId mods fs content pdfDoc pageNumStr objData pageObjects,
     load fileId fs = (fs, Ret content) ->
     PDFDocument_load content = Ret pdfDoc ->
     In pageNumStr (Object_keys (default [] (pages mods))) ->
     getProp (default [] (pages mods)) pageNumStr = Some (Some (objData :: pageObjects)) ->
     pageIndex (length pdfDoc) (parseInt pageNumStr None - 1) = None ->
     validateAnnotations (Some mods) = true /\
     exists e, save fileId mods fs = (fs, Throw e)) /\
  (forall count pageNumStr,
     PrimFloat.is_nan (parseInt pageNumStr None) = true ->
     pageIndex count (parseInt pageNumStr None - 1) = None).
Proof.
  split.
  - intros fileId mods fs content pdfDoc pageNumStr objData pageObjects
      Hload Hdoc Hin Hprop Hout.
    split.
    + unfold validateAnnotations.
      destruct (pages mods) as [allPages|]; [|destruct Hin].
      cbn [default from_option id] in *. apply existsb_exists.
      exists pageNumStr. split; [exact Hin|]. rewrite Hprop. reflexivity.
    + destruct (applyPages_out_of_range lib_throws Math_pow (default [] (pages mods))
                  (Object_keys (default [] (pages mods))) pdfDoc pageNumStr objData
                  pageObjects Hin Hprop Hout) as (pdfDoc' & e & Hrun).
      exists e. unfold save, savePdfWithChanges, try_catch, bind.
      unfold load in Hload. rewrite Hload. unfold flattenInto, bind, ret, throw.
      rewrite Hdoc, Hrun. reflexivity.
  - intros count pageNumStr Hnan. apply pageIndex_nan, nan_sub_l, Hnan.
Qed.

Lemma filled_name_path fileId : originalPath (fileId +:+ "_filled") = filledPath fileId.
Proof. unfold originalPath, filledPath. rewrite append_assoc. reflexivity. Qed.

(** X19: the identifier [savePdfWithChanges] returns
    names, for [deleteTemporaryPdf], the very file it wrote; deleting it
    takes the file system back to where no filled file exists, and to the
    state before the request if none existed then. *)
Theorem delete_undoes_save (fileId : string) (mods : modifications)
    (fs fs1 : fileSystem) (name : string) :
  save fileId mods fs = (fs1, Ret name) ->
  originalPath name = filledPath fileId /\
  delete_ name fs1 = (delete (filledPath fileId) fs, Ret tt) /\
  (fs !! filledPath fileId = None -> delete_ name fs1 = (fs, Ret tt)).
Proof.
  intros (out & -> & -> & Hclear)%savePdfWithChanges_returns.
  pose proof (filled_name_path fileId) as Hpath.
  assert (delete_ (fileId +:+ "_filled") (<[filledPath fileId := File out]> fs)
          = (delete (filledPath fileId) fs, Ret tt)) as Hdel.
  { unfold delete_, deleteTemporaryPdf, try_catch, fs_unlink.
    fold (originalPath (fileId +:+ "_filled")). rewrite Hpath.
    rewrite fs_lookup_insert. f_equal. apply delete_insert_eq. }
  split_and!; [exact Hpath | exact Hdel |].
  intros Hnone. rewrite Hdel, fs_delete_absent by exact Hnone. reflexivity.
Qed.

(** X20: once a document has been flattened and the
    controller has cleaned up its original, [checkFileExpiry] reports the
    document as absent, while [loadPdf] still returns the flattened bytes;
    the cleanup itself never throws. *)
Theorem signed_document_is_reported_missing (fileId : string) (mods : modifications)
    (fs fs1 : fileSystem) (name : string) :
  (forall originalFileId filledFileId fs0,
     snd (cleanupIndividualDocumentFiles tempDir path_join originalFileId filledFileId fs0)
       = Ret tt) /\
  (originalPath fileId <> filledPath fileId ->
   clearable fs (originalPath fileId) ->
   save fileId mods fs = (fs1, Ret name) ->
   exists out,
     let fs2 := delete (originalPath fileId) fs1 in
     cleanupIndividualDocumentFiles tempDir path_join fileId name fs1 = (fs2, Ret tt) /\
     check fileId fs2
       = (fs2, Ret {| fileExists := false; expired := true; ageHours := 0;
                      maxAgeHours := maxAge |}) /\
     fs2 !! filledPath fileId = Some (File out) /\
     load fileId fs2 = (fs2, Ret out)).
Proof.
  split.
  - intros originalFileId filledFileId fs0.
    unfold cleanupIndividualDocumentFiles, try_catch.
    destruct (deleteTemporaryPdf _ _ _ fs0) as [fs0' [[]|e]]; reflexivity.
  - intros Hne Hclear (out & -> & -> & _)%savePdfWithChanges_returns.
    exists out. intros fs2.
    assert (clearable (<[filledPath fileId := File out]> fs) (originalPath fileId))
      as Hclear1.
    { unfold clearable. rewrite fs_lookup_insert_ne by congruence. exact Hclear. }
    pose proof (deleteTemporaryPdf_clearable fileId (<[filledPath fileId := File out]> fs))
      as Hdel.
    assert (fs2 !! filledPath fileId = Some (File out)) as Hfilled.
    { subst fs2. rewrite fs_lookup_delete_ne by congruence. apply fs_lookup_insert. }
    split_and!.
    + unfold cleanupIndividualDocumentFiles, try_catch.
      fold delete_. rewrite (Hdel Hclear1). reflexivity.
    + apply checkFileExpiry_missing. subst fs2. apply fs_lookup_delete.
    + exact Hfilled.
    + apply loadPdf_filled. exact Hfilled.
Qed.

(** *** Cleanup of old files *)

Let cutoff := cleanupCutoff now env.
Let cleanupLoop := cleanupFiles tempDir path_join mtime.

Lemma removedOnly_refl P fs : removedOnly P fs fs.
Proof. intros path. now left. Qed.

Lemma removedOnly_trans P fs1 fs2 fs3 :
  removedOnly P fs1 fs2 -> removedOnly P fs2 fs3 -> removedOnly P fs1 fs3.
Proof.
  intros H12 H23 path.
  destruct (H23 path) as [E | (E & [content Hc] & HP)].
  - rewrite E. apply H12.
  - right. split; [exact E|]. split; [|exact HP].
    exists content. destruct (H12 path) as [E' | (E' & _)]; congruence.
Qed.

Lemma removedOnly_weaken (P Q : string -> Prop) fs fs' :
  (forall path, P path -> Q path) -> removedOnly P fs fs' -> removedOnly Q fs fs'.
Proof.
  intros HPQ H path. destruct (H path) as [E | (E & Hc & HP)]; [now left|].
  right. auto.
Qed.

Lemma removedOnly_delete (P : string -> Prop) fs path content :
  fs !! path = Some (File content) -> P path -> removedOnly P fs (delete path fs).
Proof.
  intros Hfile HP path'. destruct (decide (path = path')) as [<- | Hne].
  - right. rewrite fs_lookup_delete. eauto.
  - left. now apply fs_lookup_delete_ne.
Qed.

Lemma removedOnly_absent P fs fs' path :
  removedOnly P fs fs' -> fs !! path = None -> fs' !! path = None.
Proof. intros H E. destruct (H path) as [E' | (E' & _)]; congruence. Qed.

Lemma removedOnly_clearable P fs fs' path :
  removedOnly P fs fs' -> clearable fs path -> clearable fs' path.
Proof.
  intros H Hc. unfold clearable in *.
  destruct (H path) as [-> | (-> & _)]; [exact Hc | now left].
Qed.

(** What one [fs.unlink] inside a [try] does. *)
Lemma unlink_step (P : string -> Prop) path n fs :
  P path ->
  exists fs' n',
    try_catch (let! _ := fs_unlink path in ret (S n)) (fun _ => ret n) fs = (fs', Ret n') /\
    removedOnly P fs fs' /\
    (forall content, fs !! path = Some (File content) -> fs' !! path = None).
Proof.
  intros HP. unfold try_catch, bind, fs_unlink, ret.
  destruct (fs !! path) as [[content| |]|] eqn:E; eexists _, _;
    (split; [reflexivity|]); split;
    try apply removedOnly_refl; try discriminate.
  - now apply (removedOnly_delete P fs path content).
  - intros _ _. apply fs_lookup_delete.
Qed.

Let listedOld := listedOldPdf tempDir path_join mtime cutoff.

(** The body of the loop for one name. *)
Let cleanupBody (file : string) (deletedCount : nat) : M fileSystem nat :=
  if endsWith file ".pdf" then
    let filePath := path_join tempDir file in
    let! _ := fs_stat filePath in
    if (mtime filePath <? cutoff)%float then
      try_catch
        (let! _ := fs_unlink filePath in ret (S deletedCount))
        (fun _ => ret deletedCount)
    else ret deletedCount
  else ret deletedCount.

Lemma cleanupFiles_cons file rest n fs :
  cleanupLoop (file :: rest) cutoff n fs
    = match cleanupBody file n fs with
      | (fs1, Ret n1) => cleanupLoop rest cutoff n1 fs1
      | (fs1, Throw e) => (fs1, Throw e)
      end.
Proof. reflexivity. Qed.

Lemma cleanupBody_effect file n fs :
  exists fs1 res,
    cleanupBody file n fs = (fs1, res) /\
    removedOnly
      (fun path => path = path_join tempDir file /\ endsWith file ".pdf" = true /\
                   flt (mtime path) cutoff) fs fs1 /\
    (endsWith file ".pdf" = false \/
     (exists e, fs !! path_join tempDir file = Some e /\ e <> NoAccess) ->
     exists n1, res = Ret n1) /\
    (forall content,
       endsWith file ".pdf" = true ->
       fs !! path_join tempDir file = Some (File content) ->
       flt (mtime (path_join tempDir file)) cutoff ->
       fs1 !! path_join tempDir file = None).
Proof.
  unfold cleanupBody.
  destruct (endsWith file ".pdf") eqn:Hpdf.
  - cbv zeta. unfold bind at 1, fs_stat.
    destruct (fs !! path_join tempDir file) as [e|] eqn:He.
    + destruct (mtime (path_join tempDir file) <? cutoff)%float eqn:Hold.
      * destruct (unlink_step
                    (fun path => path = path_join tempDir file /\ true = true /\
                                 flt (mtime path) cutoff)
                    (path_join tempDir file) n fs)
          as (fs1 & n1 & Hrun & Hrem & Hgone); [split_and!; auto|].
        destruct e as [content| |].
        -- exists fs1, (Ret n1). split_and!; [exact Hrun | exact Hrem | eauto |].
           intros c _ _ _. apply (Hgone content He).
        -- exists fs1, (Ret n1). split_and!; [exact Hrun | exact Hrem | eauto |].
           discriminate.
        -- exists fs, (Throw (FsError "EACCES")).
           split_and!; [reflexivity | apply removedOnly_refl | | discriminate].
           intros [? | (e & He' & Hne)]; [discriminate | congruence].
      * destruct e as [content| |].
        -- exists fs, (Ret n). split_and!; [reflexivity | apply removedOnly_refl | eauto |].
           intros c _ _ Hflt. unfold flt in Hflt. congruence.
        -- exists fs, (Ret n). split_and!; [reflexivity | apply removedOnly_refl | eauto |].
           intros c _ _ Hflt. unfold flt in Hflt. congruence.
        -- exists fs, (Throw (FsError "EACCES")).
           split_and!; [reflexivity | apply removedOnly_refl | | discriminate].
           intros [? | (e & He' & Hne)]; [discriminate | congruence].
    + exists fs, (Throw (FsError "ENOENT")).
      split_and!; [reflexivity | apply removedOnly_refl | | discriminate].
      intros [? | (e & He' & _)]; discriminate.
  - exists fs, (Ret n). split_and!; [reflexivity | apply removedOnly_refl | eauto |].
    discriminate.
Qed.

Lemma cleanupFiles_removes_only files : forall n fs,
  removedOnly (listedOld files) fs (fst (cleanupLoop files cutoff n fs)).
Proof.
  induction files as [|file rest IH]; intros n fs; [apply removedOnly_refl|].
  rewrite cleanupFiles_cons.
  destruct (cleanupBody_effect file n fs) as (fs1 & res & -> & Hrem & _).
  assert (removedOnly (listedOld (file :: rest)) fs fs1) as Hrem1.
  { eapply removedOnly_weaken; [|exact Hrem].
    intros path (-> & Hpdf & Hold). split; [exact Hold|].
    exists file. split_and!; [now left | exact Hpdf | reflexivity]. }
  destruct res as [n1|e]; [|exact Hrem1].
  eapply removedOnly_trans; [exact Hrem1|].
  eapply removedOnly_weaken; [|apply IH].
  intros path (Hold & f & Hin & Hpdf & ->). split; [exact Hold|].
  exists f. split_and!; [now right | exact Hpdf | reflexivity].
Qed.

(** X21: [cleanupOldTemporaryFiles] never throws, and all it
    does to the files is remove some: each path either keeps its entry or
    held a file, older than the cutoff, whose name ends in [.pdf] and was
    listed in the directory, and now has none. *)
Theorem cleanup_removes_only_old_pdfs (fs : fileSystem) :
  exists fs',
    cleanup fs = (fs', Ret tt) /\
    removedOnly
      (fun path => exists files, readdir fs tempDir = Ret files /\ listedOld files path)
      fs fs'.
Proof.
  unfold cleanup, cleanupOldTemporaryFiles, try_catch, bind at 1, fs_readdir.
  destruct (readdir fs tempDir) as [files|e] eqn:Hdir.
  - pose proof (cleanupFiles_removes_only files 0 fs) as Hrem.
    unfold cleanupLoop, cutoff in Hrem. unfold bind, ret.
    destruct (cleanupFiles tempDir path_join mtime files (cleanupCutoff now env) 0 fs)
      as [fs' [n|e]]; cbn [fst] in Hrem;
      (exists fs'; split; [reflexivity|]);
      (eapply removedOnly_weaken; [|exact Hrem]); intros path H; eauto.
  - exists fs. split; [reflexivity | apply removedOnly_refl].
Qed.

Lemma cleanupFiles_removes_all files : forall n fs,
  NoDup (map (path_join tempDir) (pdfNames files)) ->
  (forall file, In file files -> endsWith file ".pdf" = true ->
     exists e, fs !! path_join tempDir file = Some e /\ e <> NoAccess) ->
  (exists n', snd (cleanupLoop files cutoff n fs) = Ret n') /\
  forall file content,
    In file files -> endsWith file ".pdf" = true ->
    fs !! path_join tempDir file = Some (File content) ->
    flt (mtime (path_join tempDir file)) cutoff ->
    fst (cleanupLoop files cutoff n fs) !! path_join tempDir file = None.
Proof.
  induction files as [|file rest IH]; intros n fs Hdup Hstat.
  - split; [eexists; reflexivity | intros ? ? []].
  - rewrite cleanupFiles_cons.
    destruct (cleanupBody_effect file n fs) as (fs1 & res & -> & Hrem & Hret & Hgone).
    destruct Hret as [n1 ->].
    { destruct (endsWith file ".pdf") eqn:Hpdf; [right | now left].
      apply Hstat; [now left | exact Hpdf]. }
    assert (NoDup (map (path_join tempDir) (pdfNames rest)) /\
            forall f, In f rest -> endsWith f ".pdf" = true ->
                      fs1 !! path_join tempDir f = fs !! path_join tempDir f)
      as [Hdup' Hsame].
    { unfold pdfNames in Hdup. cbn [List.filter] in Hdup.
      destruct (endsWith file ".pdf") eqn:Hpdf.
      - cbn [map] in Hdup. apply NoDup_cons in Hdup as [Hfresh Hdup].
        split; [exact Hdup|]. intros f Hin Hf.
        destruct (Hrem (path_join tempDir f)) as [E | (_ & _ & E & _)]; [exact E|].
        exfalso. apply Hfresh. rewrite <- E.
        apply list_elem_of_In, in_map, filter_In. split; [exact Hin | exact Hf].
      - split; [exact Hdup|]. intros f Hin Hf.
        destruct (Hrem (path_join tempDir f)) as [E | (_ & _ & _ & E & _)];
          [exact E | discriminate]. }
    destruct (IH n1 fs1 Hdup') as [Hret' Hall].
    { intros f Hin Hf. rewrite (Hsame f Hin Hf). apply Hstat; [now right | exact Hf]. }
    split; [exact Hret'|].
    intros f content [<- | Hin] Hf Hfile Hold.
    + eapply removedOnly_absent; [apply cleanupFiles_removes_only|].
      eapply Hgone; eassumption.
    + apply (Hall f content Hin Hf); [|exact Hold]. rewrite (Hsame f Hin Hf). exact Hfile.
Qed.

(** X22: when the directory can be listed and every
    listed name that ends in [.pdf] can be examined, each such name at a
    path of its own, then every file among them that is older than the
    cutoff is gone after [cleanupOldTemporaryFiles]. *)
Theorem cleanup_removes_every_old_pdf (fs : fileSystem) (files : list string) :
  readdir fs tempDir = Ret files ->
  NoDup (map (path_join tempDir) (pdfNames files)) ->
  (forall file, In file files -> endsWith file ".pdf" = true ->
     exists e, fs !! path_join tempDir file = Some e /\ e <> NoAccess) ->
  forall file content,
    In file files -> endsWith file ".pdf" = true ->
    fs !! path_join tempDir file = Some (File content) ->
    flt (mtime (path_join tempDir file)) cutoff ->
    fst (cleanup fs) !! path_join tempDir file = None.
Proof.
  intros Hdir Hdup Hstat file content Hin Hpdf Hfile Hold.
  destruct (cleanupFiles_removes_all files 0 fs Hdup Hstat) as [[n' Hret] Hall].
  specialize (Hall file content Hin Hpdf Hfile Hold).
  unfold cleanup, cleanupOldTemporaryFiles, try_catch, bind at 1, fs_readdir.
  rewrite Hdir. unfold bind, ret. unfold cleanupLoop, cutoff in *.
  destruct (cleanupFiles tempDir path_join mtime files (cleanupCutoff now env) 0 fs)
    as [fs' [n|e]]; cbn [fst snd] in *; [exact Hall | discriminate].
Qed.

End TempFilesProperties.

(** ** Sessions *)

Section SessionProperties.

Variable lib_throws : libcall -> bool.
Variable Math_pow : float -> float -> float.
Variable tempDir : string.
Variable path_join : string -> string -> string.
Variable PDFDocument_load : bytes -> outcome (list page).
Variable PDFDocument_save : list page -> outcome bytes.
Variable getSessionDocuments : string -> outcome (list sessionDocument).
Variable removeApprovalSession : string -> outcome unit.
Variable toBase64 : bytes -> string.

Let originalPath (fileId : string) := path_join tempDir (fileId +:+ ".pdf").
Let filledPath (fileId : string) := path_join tempDir (fileId +:+ "_filled.pdf").
Let save := savePdfWithChanges lib_throws Math_pow tempDir path_join
              PDFDocument_load PDFDocument_save.
Let delete_ := deleteTemporaryPdf tempDir path_join.
Let signed := getSignedDocuments tempDir path_join getSessionDocuments toBase64.
Let cleanupSession_ :=
  cleanupSession tempDir path_join getSessionDocuments removeApprovalSession.

Lemma readSignedDocuments_run signedDocuments : forall results fs,
  readSignedDocuments tempDir path_join toBase64 signedDocuments results fs
    = (fs, Ret (results ++ omap (signedEntry tempDir path_join toBase64 fs) signedDocuments)).
Proof.
  induction signedDocuments as [|doc rest IH]; intros results fs.
  - cbn. rewrite app_nil_r. reflexivity.
  - assert (omap (signedEntry tempDir path_join toBase64 fs) (doc :: rest)
            = match signedEntry tempDir path_join toBase64 fs doc with
              | Some entry => entry :: omap (signedEntry tempDir path_join toBase64 fs) rest
              | None => omap (signedEntry tempDir path_join toBase64 fs) rest
              end) as -> by reflexivity.
    cbn [readSignedDocuments]. unfold bind at 1, try_catch, bind, fs_readFile, ret.
    unfold signedEntry at 1.
    destruct (fs !! path_join tempDir ((file_id doc +:+ "_filled") +:+ ".pdf"))
      as [[pdfBuffer| |]|]; rewrite IH; try reflexivity.
    rewrite <- app_assoc. reflexivity.
Qed.

(** X23: [getSignedDocuments] never changes the files and
    returns, in order, one element for each document of the session that
    is marked signed and whose filled file can be read, silently leaving
    out the others; after [savePdfWithChanges] has returned for a document,
    the element of that document carries the identifier that call returned
    and the encoding of the bytes it wrote. *)
Theorem getSignedDocuments_reads_what_was_saved (sessionId : string)
    (documents : list sessionDocument) :
  getSessionDocuments sessionId = Ret documents ->
  (forall fs,
     signed sessionId fs
       = (fs, Ret (omap (signedEntry tempDir path_join toBase64 fs)
                     (filter (fun doc => String.eqb (status doc) "signed") documents)))) /\
  (forall fileId mods fs fs1 name doc,
     save fileId mods fs = (fs1, Ret name) ->
     In doc documents -> file_id doc = fileId -> status doc = "signed" ->
     exists out results,
       fs1 !! filledPath fileId = Some (File out) /\
       signed sessionId fs1 = (fs1, Ret results) /\
       In {| signedType := document_type doc; originalFileId := fileId;
             filledFileId := name; base64Data := toBase64 out;
             signedAt := signed_at doc |} results).
Proof.
  intros Hdocs.
  assert (forall fs,
     signed sessionId fs
       = (fs, Ret (omap (signedEntry tempDir path_join toBase64 fs)
                     (filter (fun doc => String.eqb (status doc) "signed") documents))))
    as Hrun.
  { intros fs. unfold signed, getSignedDocuments, try_catch. rewrite Hdocs.
    rewrite readSignedDocuments_run. reflexivity. }
  split; [exact Hrun|].
  intros fileId mods fs fs1 name doc Hsave Hin Hid Hstatus.
  assert (exists out, fs1 = <[filledPath fileId := File out]> fs /\
                      name = fileId +:+ "_filled") as (out & -> & ->).
  { destruct (savePdfWithChanges_returns lib_throws Math_pow tempDir path_join
                PDFDocument_load PDFDocument_save fileId mods fs fs1 name Hsave)
      as (out & H1 & H2 & _). eauto. }
  exists out. eexists. split_and!; [apply fs_lookup_insert | apply Hrun |].
  apply list_elem_of_In, list_elem_of_omap. exists doc. split.
  - apply list_elem_of_filter. split.
    + rewrite Hstatus. reflexivity.
    + now apply list_elem_of_In.
  - unfold signedEntry. rewrite Hid, append_assoc.
    change ("_filled" +:+ ".pdf") with "_filled.pdf".
    fold (filledPath fileId). rewrite fs_lookup_insert. reflexivity.
Qed.

Let sessionPaths_ := sessionPaths tempDir path_join.

Lemma deleteTemporaryPdf_effect fileId fs :
  exists fs' res,
    delete_ fileId fs = (fs', res) /\
    removedOnly (fun path => path = originalPath fileId) fs fs' /\
    (clearable fs (originalPath fileId) ->
       res = Ret tt /\ fs' !! originalPath fileId = None).
Proof.
  unfold delete_, deleteTemporaryPdf, try_catch, fs_unlink. fold (originalPath fileId).
  unfold clearable.
  destruct (fs !! originalPath fileId) as [[content| |]|] eqn:E; cbv beta iota;
    rewrite ?bool_decide_eq_true_2 by reflexivity; eexists _, _;
    (split; [reflexivity|]); split;
    try apply removedOnly_refl.
  - now apply (removedOnly_delete _ fs _ content).
  - intros _. split; [reflexivity | apply fs_lookup_delete].
  - intros [? | [? ?]]; discriminate.
  - intros [? | [? ?]]; discriminate.
  - intros _. split; [reflexivity | exact E].
Qed.

Lemma cleanupSessionFiles_run documents : forall fs,
  exists fs',
    cleanupSessionFiles tempDir path_join documents fs = (fs', Ret tt) /\
    removedOnly (sessionPaths_ documents) fs fs' /\
    (forall doc, In doc documents ->
       clearable fs (originalPath (file_id doc)) ->
       clearable fs (originalPath (file_id doc +:+ "_filled")) ->
       fs' !! originalPath (file_id doc) = None /\
       fs' !! originalPath (file_id doc +:+ "_filled") = None).
Proof.
  induction documents as [|doc rest IH]; intros fs.
  - exists fs. split_and!; [reflexivity | apply removedOnly_refl | intros ? []].
  - cbn [cleanupSessionFiles]. unfold bind at 1.
    assert (exists fs1,
              try_catch
                (let! _ := deleteTemporaryPdf tempDir path_join (file_id doc) in
                 deleteTemporaryPdf tempDir path_join (file_id doc +:+ "_filled"))
                (fun _ => ret tt) fs = (fs1, Ret tt) /\
              removedOnly (sessionPaths_ (doc :: rest)) fs fs1 /\
              (clearable fs (originalPath (file_id doc)) ->
               clearable fs (originalPath (file_id doc +:+ "_filled")) ->
               fs1 !! originalPath (file_id doc) = None /\
               fs1 !! originalPath (file_id doc +:+ "_filled") = None))
      as (fs1 & -> & Hrem1 & Hgone1).
    { unfold try_catch, bind. fold delete_.
      destruct (deleteTemporaryPdf_effect (file_id doc) fs)
        as (fsa & resa & -> & Hrema & Hposta).
      assert (removedOnly (sessionPaths_ (doc :: rest)) fs fsa) as Hrema'.
      { eapply removedOnly_weaken; [|exact Hrema]. intros path ->.
        exists doc. split; [now left | now left]. }
      destruct resa as [[]|e].
      - destruct (deleteTemporaryPdf_effect (file_id doc +:+ "_filled") fsa)
          as (fsb & resb & -> & Hremb & Hpostb).
        assert (removedOnly (sessionPaths_ (doc :: rest)) fsa fsb) as Hremb'.
        { eapply removedOnly_weaken; [|exact Hremb]. intros path ->.
          exists doc. split; [now left | now right]. }
        exists fsb. split_and!.
        + destruct resb as [[]|e]; reflexivity.
        + eapply removedOnly_trans; eassumption.
        + intros Ho Hf. destruct (Hposta Ho) as [_ Hnone].
          destruct Hpostb as [_ Hnone'].
          { eapply removedOnly_clearable; eassumption. }
          split; [|exact Hnone'].
          eapply removedOnly_absent; eassumption.
      - exists fsa. split_and!; [reflexivity | exact Hrema' |].
        intros Ho _. destruct (Hposta Ho) as [? _]. discriminate. }
    destruct (IH fs1) as (fs' & -> & Hrem & Hgone).
    assert (removedOnly (sessionPaths_ (doc :: rest)) fs1 fs') as Hrem'.
    { eapply removedOnly_weaken; [|exact Hrem]. intros path (d & Hin & Hp).
      exists d. split; [now right | exact Hp]. }
    exists fs'. split_and!; [reflexivity | eapply removedOnly_trans; eassumption |].
    intros d [<- | Hin] Ho Hf.
    + destruct (Hgone1 Ho Hf) as [H1 H2].
      split; eapply removedOnly_absent; eassumption.
    + apply (Hgone d Hin); eapply removedOnly_clearable; eassumption.
Qed.

(** X24: [cleanupSession] fails only when the database
    does: no error of the file system escapes it, and the files are removed
    even when the session then cannot be removed from the database.  All it
    does to the files is remove originals and filled versions of the
    session's documents; and for every document whose two paths hold a file
    or nothing, both are gone afterwards. *)
Theorem cleanupSession_removes_files (sessionId : string) (fs : fileSystem) :
  (forall e, getSessionDocuments sessionId = Throw e ->
     cleanupSession_ sessionId fs = (fs, Throw e)) /\
  (forall documents, getSessionDocuments sessionId = Ret documents ->
     exists fs',
       cleanupSession_ sessionId fs
         = (fs', match removeApprovalSession sessionId with
                 | Throw e => Throw e
                 | Ret _ => Ret tt
                 end) /\
       removedOnly (sessionPaths_ documents) fs fs' /\
       (forall doc, In doc documents ->
          clearable fs (originalPath (file_id doc)) ->
          clearable fs (originalPath (file_id doc +:+ "_filled")) ->
          fs' !! originalPath (file_id doc) = None /\
          fs' !! originalPath (file_id doc +:+ "_filled") = None)).
Proof.
  unfold cleanupSession_, cleanupSession, try_catch. split.
  - intros e ->. reflexivity.
  - intros documents ->.
    destruct (cleanupSessionFiles_run documents fs) as (fs' & Hrun & Hrem & Hgone).
    exists fs'. split_and!; [|exact Hrem | exact Hgone].
    unfold bind. rewrite Hrun.
    destruct (removeApprovalSession sessionId) as [[]|e]; reflexivity.
Qed.

End SessionProperties.

(** ** The controller *)

Section ControllerProperties.

Variable lib_throws : libcall -> bool.
Variable Math_pow : float -> float -> float.

Lemma applyPages_without_annotations allPages keys : forall pdfDoc,
  (forall pageNum, In pageNum keys ->
     match default None (getProp allPages pageNum) with
     | Some pageObjects => (0 <? length pageObjects)%nat
     | None => false
     end = false) ->
  applyPages lib_throws Math_pow allPages keys pdfDoc = (pdfDoc, Ret tt).
Proof.
  induction keys as [|pageNum rest IH]; intros pdfDoc Hnone; [reflexivity|].
  cbn [applyPages]. unfold bind.
  pose proof (Hnone pageNum (or_introl eq_refl)) as Hhere.
  destruct (default None (getProp allPages pageNum)) as [[|objData pageObjects]|];
    cbn [length Nat.eqb]; try discriminate;
    (unfold ret at 1; apply IH; intros k Hin; apply Hnone; now right).
Qed.

(** X25: a submission that [validateAnnotations] turns down
    would not have changed the document: [savePdfWithChanges] applies
    nothing for it.  A submission passes exactly when some page of it has
    at least one annotation. *)
Theorem rejected_submission_changes_nothing (mods : modifications) :
  validateAnnotations None = false /\
  (validateAnnotations (Some mods) = false ->
   forall pdfDoc,
     applyPages lib_throws Math_pow (default [] (pages mods))
       (Object_keys (default [] (pages mods))) pdfDoc = (pdfDoc, Ret tt)) /\
  (validateAnnotations (Some mods) = true <->
   exists allPages pageNum objData pageObjects,
     pages mods = Some allPages /\
     In pageNum (Object_keys allPages) /\
     getProp allPages pageNum = Some (Some (objData :: pageObjects))).
Proof.
  split_and!; [reflexivity | |].
  - unfold validateAnnotations. intros Hno pdfDoc.
    destruct (pages mods) as [allPages|]; [|reflexivity].
    cbn [default from_option id]. apply applyPages_without_annotations.
    intros pageNum Hin.
    destruct (match default None (getProp allPages pageNum) with
              | Some pageObjects => (0 <? length pageObjects)%nat
              | None => false
              end) eqn:E; [|reflexivity].
    rewrite <- Hno. symmetry. apply existsb_exists.
    exists pageNum. split; [exact Hin | exact E].
  - unfold validateAnnotations. destruct (pages mods) as [allPages|].
    + rewrite existsb_exists. split.
      * intros (pageNum & Hin & H).
        destruct (getProp allPages pageNum) as [[[|objData pageObjects]|]|] eqn:E;
          try discriminate.
        exists allPages, pageNum, objData, pageObjects. auto.
      * intros (allPages' & pageNum & objData & pageObjects & [= <-] & Hin & E).
        exists pageNum. split; [exact Hin|]. rewrite E. reflexivity.
    + split; [discriminate|]. intros (? & ? & ? & ? & ? & _). discriminate.
Qed.

End ControllerProperties.

Lemma includes_two (a b : jsval) (s : string) :
  includes [a; b] s = true <-> a = JStr s \/ b = JStr s.
Proof.
  unfold includes. cbn [existsb]. rewrite orb_false_r, orb_true_iff. split.
  - intros [H | H]; [left | right];
      [destruct a | destruct b]; try discriminate;
      apply String.eqb_eq in H; congruence.
  - intros [-> | ->]; [left | right]; apply String.eqb_refl.
Qed.

Lemma property_truthy v name x :
  property v name = Ret x -> toBoolean x = true ->
  exists fields, v = JObj fields /\ getValue fields name = x.
Proof.
  destruct v; cbn; intros [= <-] H; try discriminate. eauto.
Qed.

(** X26: [uploadSession] goes on to create a session exactly for a
    request with a callback URL and exactly two documents, both objects
    with content, one of type [original] and the other of type [dar], in
    either order. *)
Theorem uploadSession_accepts (callbackUrl documents : jsval) :
  uploadSessionChecks callbackUrl documents = Accepted <->
  toBoolean callbackUrl = true /\
  exists fields1 fields2 type1 type2,
    documents = JArr [JObj fields1; JObj fields2] /\
    getValue fields1 "type" = JStr type1 /\
    getValue fields2 "type" = JStr type2 /\
    ((type1 = "original" /\ type2 = "dar") \/ (type1 = "dar" /\ type2 = "original")) /\
    toBoolean (getValue fields1 "contentBytes") = true /\
    toBoolean (getValue fields2 "contentBytes") = true.
Proof.
  unfold uploadSessionChecks. split.
  - destruct (toBoolean callbackUrl); [|discriminate]. cbn [negb].
    destruct documents as [| | | | |[|d1 [|d2 [|]]]|]; try discriminate.
    cbn [checkStructure].
    destruct (property d1 "type") as [t1|] eqn:P1; [|discriminate].
    destruct (toBoolean t1) eqn:T1; [|discriminate]. cbn [negb].
    destruct (property d1 "contentBytes") as [c1|] eqn:Q1; [|discriminate].
    destruct (toBoolean c1) eqn:B1; [|discriminate]. cbn [negb].
    destruct (property d2 "type") as [t2|] eqn:P2; [|discriminate].
    destruct (toBoolean t2) eqn:T2; [|discriminate]. cbn [negb].
    destruct (property d2 "contentBytes") as [c2|] eqn:Q2; [|discriminate].
    destruct (toBoolean c2) eqn:B2; [|discriminate]. cbn [negb map]. rewrite P1, P2.
    destruct (forallb isValidType [t1; t2]) eqn:V; [|discriminate]. cbn [negb].
    destruct (includes [t1; t2] "original") eqn:I1; [|discriminate].
    destruct (includes [t1; t2] "dar") eqn:I2; [|discriminate]. intros _.
    destruct (property_truthy _ _ _ P1 T1) as (fields1 & -> & G1).
    destruct (property_truthy _ _ _ P2 T2) as (fields2 & -> & G2).
    cbn in Q1, Q2. injection Q1 as <-. injection Q2 as <-.
    split; [reflexivity|].
    apply includes_two in I1, I2.
    destruct I1 as [-> | ->], I2 as [E | E]; try discriminate.
    + exists fields1, fields2, "original", "dar". subst t2. auto 10.
    + exists fields1, fields2, "dar", "original". subst t1. auto 10.
  - intros (Hcb & fields1 & fields2 & type1 & type2 & -> & G1 & G2 & Htypes & B1 & B2).
    rewrite Hcb. cbn. rewrite G1, G2, B1, B2.
    destruct Htypes as [[-> ->] | [-> ->]]; reflexivity.
Qed.

(** ** The properties on concrete data *)

Lemma upload_then_load_witness :
  loadPdf "/srv/temp" demoJoin "id-1"
    (<["/srv/temp/id-1.pdf" := File (demoDecode "AAAA")]> demoFiles)
  = (<["/srv/temp/id-1.pdf" := File (demoDecode "AAAA")]> demoFiles,
     Ret (demoDecode "AAAA")).
Proof.
  destruct (upload_then_load "/srv/temp" demoJoin demoDecode "id-1" "AAAA" demoFiles)
    as [H _].
  destruct H as [_ H]; [left; vm_compute; reflexivity | vm_compute; reflexivity |].
  exact H.
Defined.

Lemma checkFileExpiry_cases_witness :
  checkFileExpiry "/srv/temp" demoJoin demoNow demoMtime (fun _ => None) "gone" demoFiles
  = (demoFiles, Ret {| fileExists := false; expired := true; ageHours := 0;
                       maxAgeHours := 168 |}).
Proof.
  destruct (checkFileExpiry_cases "/srv/temp" demoJoin demoNow demoMtime (fun _ => None)
              "gone" demoFiles) as (_ & Hmissing & _ & _ & _ & Hdefault).
  rewrite Hmissing by (vm_compute; reflexivity).
  rewrite Hdefault by (left; reflexivity). reflexivity.
Defined.

Lemma deleteTemporaryPdf_cases_witness :
  deleteTemporaryPdf "/srv/temp" demoJoin "doc" demoFiles = (∅, Ret tt) /\
  deleteTemporaryPdf "/srv/temp" demoJoin "doc" ∅ = (∅, Ret tt).
Proof.
  split.
  - destruct (deleteTemporaryPdf_cases "/srv/temp" demoJoin "doc" demoFiles) as (H & _).
    rewrite H by (right; eexists; vm_compute; reflexivity).
    vm_compute. reflexivity.
  - destruct (deleteTemporaryPdf_cases "/srv/temp" demoJoin "doc" demoFiles)
      as (_ & H & _).
    destruct (H ∅) as (_ & _ & Hagain); [vm_compute; reflexivity | exact Hagain].
Defined.

Lemma delete_undoes_save_witness :
  deleteTemporaryPdf "/srv/temp" demoJoin "doc_filled"
    (fst (demoService "doc" demoMods demoFiles))
  = (demoFiles, Ret tt).
Proof.
  destruct (delete_undoes_save strictColours (fun v _ => v) "/srv/temp" demoJoin
              demoLoad demoSave "doc" demoMods demoFiles
              (fst (demoService "doc" demoMods demoFiles)) "doc_filled")
    as (_ & _ & H).
  - vm_compute. reflexivity.
  - apply H. vm_compute. reflexivity.
Defined.

Lemma signed_document_is_reported_missing_witness :
  exists out,
    checkFileExpiry "/srv/temp" demoJoin demoNow demoMtime demoEnv "doc"
      (delete "/srv/temp/doc.pdf" (fst (demoService "doc" demoMods demoFiles)))
    = (delete "/srv/temp/doc.pdf" (fst (demoService "doc" demoMods demoFiles)),
       Ret {| fileExists := false; expired := true; ageHours := 0; maxAgeHours := 24 |}) /\
    loadPdf "/srv/temp" demoJoin "doc"
      (delete "/srv/temp/doc.pdf" (fst (demoService "doc" demoMods demoFiles)))
    = (delete "/srv/temp/doc.pdf" (fst (demoService "doc" demoMods demoFiles)), Ret out).
Proof.
  destruct (signed_document_is_reported_missing strictColours (fun v _ => v) "/srv/temp"
              demoJoin demoLoad demoSave demoNow demoMtime demoEnv "doc" demoMods
              demoFiles (fst (demoService "doc" demoMods demoFiles)) "doc_filled")
    as (_ & H).
  destruct H as (out & _ & Hcheck & _ & Hload).
  - vm_compute. discriminate.
  - right. eexists. vm_compute. reflexivity.
  - vm_compute. reflexivity.
  - exists out. split; [|exact Hload].
    change (delete "/srv/temp/doc.pdf" (fst (demoService "doc" demoMods demoFiles)))
      with (delete (demoJoin "/srv/temp" ("doc" +:+ ".pdf"))
              (fst (demoService "doc" demoMods demoFiles))).
    rewrite Hcheck. reflexivity.
Defined.

Lemma cleanup_removes_every_old_pdf_witness :
  fst (cleanupOldTemporaryFiles "/srv/temp" demoJoin demoNow demoMtime demoEnv
         demoReaddir demoDisk) !! "/srv/temp/old.pdf" = None.
Proof.
  apply (cleanup_removes_every_old_pdf "/srv/temp" demoJoin demoNow demoMtime demoEnv
           demoReaddir demoDisk ["old.pdf"; "doc.pdf"; "notes.txt"] eq_refl)
    with (file := "old.pdf") (content := "%PDF-old").
  - apply (bool_decide_unpack _). vm_compute. reflexivity.
  - intros file [<- | [<- | [<- | []]]] Hpdf; try (vm_compute in Hpdf; discriminate);
      eexists; (split; [vm_compute; reflexivity | discriminate]).
  - left. reflexivity.
  - vm_compute. reflexivity.
  - vm_compute. reflexivity.
  - vm_compute. reflexivity.
Defined.

Lemma getSignedDocuments_reads_what_was_saved_witness :
  exists out results,
    fst (demoService "doc" demoMods demoFiles) !! "/srv/temp/doc_filled.pdf"
      = Some (File out) /\
    getSignedDocuments "/srv/temp" demoJoin demoDocuments demoEncode "session"
      (fst (demoService "doc" demoMods demoFiles))
    = (fst (demoService "doc" demoMods demoFiles), Ret results) /\
    In {| signedType := "original"; originalFileId := "doc";
          filledFileId := "doc_filled"; base64Data := demoEncode out;
          signedAt := Some "2024-01-01 10:00:00" |} results.
Proof.
  destruct (getSignedDocuments_reads_what_was_saved strictColours (fun v _ => v)
              "/srv/temp" demoJoin demoLoad demoSave demoDocuments demoEncode
              "session" [demoDocument] eq_refl) as [_ Hsaved].
  destruct (Hsaved "doc" demoMods demoFiles (fst (demoService "doc" demoMods demoFiles))
              "doc_filled" demoDocument)
    as (out & results & Hfile & Hrun & Hin);
    [vm_compute; reflexivity | now left | reflexivity | reflexivity |].
  exists out, results. split_and!; [exact Hfile | exact Hrun | exact Hin].
Defined.

Lemma cleanupSession_removes_files_witness :
  exists fs',
    cleanupSession "/srv/temp" demoJoin demoDocuments demoRemove "session"
      (fst (demoService "doc" demoMods demoFiles)) = (fs', Ret tt) /\
    fs' !! "/srv/temp/doc.pdf" = None /\
    fs' !! "/srv/temp/doc_filled.pdf" = None.
Proof.
  destruct (cleanupSession_removes_files "/srv/temp" demoJoin demoDocuments demoRemove
              "session" (fst (demoService "doc" demoMods demoFiles))) as [_ H].
  destruct (H [demoDocument] eq_refl) as (fs' & Hrun & _ & Hgone).
  exists fs'. split; [exact Hrun|].
  apply (Hgone demoDocument); [now left | |];
    right; eexists; vm_compute; reflexivity.
Defined.

Lemma rejected_submission_changes_nothing_witness :
  applyPages strictColours (fun v _ => v) [("1", Some []); ("2", None)] ["1"; "2"]
    [blankPage 600 800] = ([blankPage 600 800], Ret tt).
Proof.
  destruct (rejected_submission_changes_nothing strictColours (fun v _ => v)
              {| pages := Some [("1", Some []); ("2", None)] |}) as (_ & H & _).
  apply (H eq_refl [blankPage 600 800]).
Defined.

Lemma uploadSession_accepts_witness :
  uploadSessionChecks (JStr "https://flow.example/callback")
    (JArr [JObj [("type", JStr "dar"); ("contentBytes", JStr "AAAA")];
           JObj [("type", JStr "original"); ("contentBytes", JStr "BBBB")]])
  = Accepted.
Proof.
  apply uploadSession_accepts. split; [reflexivity|].
  exists [("type", JStr "dar"); ("contentBytes", JStr "AAAA")],
         [("type", JStr "original"); ("contentBytes", JStr "BBBB")], "dar", "original".
  split_and!; try reflexivity. right. split; reflexivity.
Defined.

Lemma array_encoding_throws_iff_witness :
  (exists what,
     parseSVGPath (JArr [fabricTuple "M" [1; 2]%float; JArr [JNum 3; JNum 4]])
       = Throw (TypeError what)) /\
  (exists what,
     parseSVGPath (JArr [JArr [JStr "M"; JNum 1; JArr [JObj [("toString", JNum 1)]]]])
       = Throw (TypeError what)) /\
  (exists what,
     parseSVGPath (JObj [("1", JArr [JStr "L"; JObj [("toString", JNull)]]);
                         ("x", fabricTuple "M" [1; 2]%float)])
       = Throw (TypeError what)) /\
  (exists stream,
     parseSVGPath (JObj [("1", JArr [JStr "L"; JObj [("valueOf", JNull)]]);
                         ("x", JNum 5)])
       = Ret stream).
Proof.
  split_and!.
  - destruct (array_encoding_throws_iff
                [fabricTuple "M" [1; 2]%float; JArr [JNum 3; JNum 4]] []) as ([H _] & _).
    apply H. reflexivity.
  - destruct (array_encoding_throws_iff
                [JArr [JStr "M"; JNum 1; JArr [JObj [("toString", JNum 1)]]]] [])
      as ([H _] & _).
    apply H. reflexivity.
  - destruct (array_encoding_throws_iff []
                [("1", JArr [JStr "L"; JObj [("toString", JNull)]]);
                 ("x", fabricTuple "M" [1; 2]%float)]) as (_ & _ & [H _] & _).
    apply H. reflexivity.
  - destruct (array_encoding_throws_iff []
                [("1", JArr [JStr "L"; JObj [("valueOf", JNull)]]);
                 ("x", JNum 5)]) as (_ & _ & _ & [H _]).
    apply H. reflexivity.
Defined.

Lemma strokes_drawn_for_path_witness :
  exists strokes,
    drawSVGPathCommands acceptAll (fun v _ => v)
      (PathSpec.stream [PathSpec.MoveTo 0 0; PathSpec.QuadTo 5 10 10 0; PathSpec.ClosePath])
      (identityPath JUndefined) 0 black 2 (blankPage 600 800)
      = (addMarks (blankPage 600 800) strokes, Ret tt) /\
    length strokes = 11%nat.
Proof.
  destruct (strokes_drawn_for_path acceptAll (fun v _ => v) 0 0
              [PathSpec.QuadTo 5 10 10 0; PathSpec.ClosePath]
              (identityPath JUndefined) 0 black 2 (blankPage 600 800))
    as (strokes & Hrun & Hlen & _); [reflexivity|].
  exists strokes. split; [exact Hrun | exact Hlen].
Defined.

Lemma nan_operand_spoils_every_point_witness :
  Forall (Forall nanX)
    (pathSegmentsOf (fun v _ => v)
       (PathSpec.stream [PathSpec.MoveTo 1 2; PathSpec.LineTo PrimFloat.nan 4;
                         PathSpec.LineTo 5 6])
       (identityPath JUndefined) 0).
Proof.
  destruct (nan_operand_spoils_every_point (fun v _ => v)
              [PathSpec.MoveTo 1 2; PathSpec.LineTo PrimFloat.nan 4; PathSpec.LineTo 5 6]
              (identityPath JUndefined) 0) as [H _].
  apply H. cbn. right. left. reflexivity.
Defined.

Lemma bounding_box_corner_is_anchor_witness :
  toPageX 2 10 3 3 = 10%float /\ toPageY 2 20 4 100 4 = (100 - 20)%float.
Proof.
  destruct (bounding_box_corner_is_anchor
              [PathSpec.MoveTo 7 4; PathSpec.LineTo 3 9]
              (boxedPath JUndefined) 100) as [Hx Hy].
  split.
  - destruct Hx as [_ H]; [exact I | exact I | exact H].
  - destruct Hy as [_ H]; [exact I | exact I | exact H].
Defined.

Lemma path_falls_back_to_bounding_box_witness :
  addPathToPage acceptAll (fun v _ => v) (boxedPath (JArr [JArr [JNum 1; JNum 2]]))
    600 800 (blankPage 600 800)
  = (addMarks (blankPage 600 800)
       [MRectangle 10 (800 - 20 - 40 * 2) (30 * 2) (40 * 2)
          {| r := 0; g := 0; b := 1 |} 2 None],
     Ret tt).
Proof.
  destruct (path_falls_back_to_bounding_box acceptAll (fun v _ => v)
              (boxedPath (JArr [JArr [JNum 1; JNum 2]])) 600 800 (blankPage 600 800))
    as (_ & Hfall & Hbox).
  rewrite Hfall by (right; eexists; reflexivity).
  rewrite (Hbox 10 20)%float; try reflexivity.
Defined.

Lemma image_falls_back_to_placeholder_witness :
  addImageToPage noImages
    (imageObject (Some 120%float) (Some 60%float) None None (Some 50%float)
       (Some 20%float) (Some "data:image/png;base64,AAAA")) 600 800 (blankPage 600 800)
  = (addMarks (blankPage 600 800) (placeholderMarks 50 (800 - 20 - 60) 120 60), Ret tt).
Proof.
  destruct (image_falls_back_to_placeholder noImages
              (imageObject (Some 120%float) (Some 60%float) None None (Some 50%float)
                 (Some 20%float) (Some "data:image/png;base64,AAAA"))
              600 800 (blankPage 600 800)) as (_ & H & _).
  rewrite H by (intros []; reflexivity).
  vm_compute. reflexivity.
Defined.

Lemma nothing_is_drawn_witness :
  renderAnnotation (fun _ => true) (fun v _ => v) (textObject "   " None None None)
    600 800 (blankPage 600 800)
  = (blankPage 600 800, Ret tt).
Proof.
  apply nothing_is_drawn. right. right. split; reflexivity.
Defined.

Lemma applyPages_only_adds_marks_witness :
  exists added,
    fst (applyPages strictColours (fun v _ => v)
           [("1", Some [filledText "First" "#000000" 10 20])] ["1"]
           [blankPage 600 800]) !! 0%nat
    = Some {| pageWidth := 600; pageHeight := 800; marks := [] ++ added |}.
Proof.
  destruct (applyPages_only_adds_marks strictColours (fun v _ => v)
              [("1", Some [filledText "First" "#000000" 10 20])] ["1"]
              [blankPage 600 800]) as [_ H].
  apply (H 0%nat (blankPage 600 800)). reflexivity.
Defined.

Lemma page_out_of_range_is_fatal_witness :
  exists e,
    demoService "doc" {| pages := Some [("0", Some [filledText "First" "#000000" 10 20])] |}
      demoFiles = (demoFiles, Throw e).
Proof.
  destruct (page_out_of_range_is_fatal strictColours (fun v _ => v) "/srv/temp" demoJoin
              demoLoad demoSave) as [H _].
  destruct (H "doc" {| pages := Some [("0", Some [filledText "First" "#000000" 10 20])] |}
              demoFiles "%PDF-1.7" [blankPage 600 800] "0"
              (filledText "First" "#000000" 10 20) [])
    as [_ He]; try (vm_compute; reflexivity).
  - left. reflexivity.
  - exact He.
Defined.
